(** * Deep Interest Network (my_model/DIN.py): a shallow embedding

    The Python module builds a Keras model.  Two levels are embedded:

    - the numeric level: what the custom layers ([Dice],
      [LocalActivationUnit], [AttentionPoolingLayer]) compute on tensors,
      through the TensorFlow operations and the Keras layers they call;
    - the graph level: what the assembly functions ([build_input_layers],
      [build_embedding_layers], [embedding_lookup], [concat_input_list],
      [concat_embedding_list], [get_dnn_logits], [DIN]) build from a feature
      schema, with Python exceptions as an error monad.

    Modelling choices:

    - tensor entries are exact rationals ([Qc]): rounding, NaN and
      infinities of float32 are outside the model.  The logistic function
      and the square root, which are not rational functions, are operations
      of the class [FloatOps]; every definition and theorem is generic in
      them;
    - a layer holds its weights once built; their values are arbitrary, so
      that a statement about a layer holds before and after training;
    - the exceptions modelled are those of dictionary lookups, of list
      indexing, of incompatible shapes and of [None] passed for a tensor.
      The checks that Keras makes on what the assembly passes to it (a
      table needs a row and a column; an empty layer name is replaced by a
      generated one; the layers of a model have distinct names) are not
      part of the assembly functions: the predicates [valid_sizes],
      [plain_name], [free_name] and [keras_accepts] single out the
      descriptors that pass them, and what the assembly returns is stated
      for these. *)

From Stdlib Require Import Ascii String List Bool Arith ZArith Lia QArith Qcanon.
Import ListNotations.

Set Implicit Arguments.

Close Scope Qc_scope.
Close Scope Q_scope.
Open Scope string_scope.
Open Scope nat_scope.
Open Scope list_scope.

(** ** Python exceptions and the error monad *)

Inductive exn : Type :=
| KeyError (key : string)
| IndexError (what : string)
| ValueError (what : string)
| AttributeError (what : string).

Inductive result (A : Type) : Type :=
| Ok (a : A)
| Raise (e : exn).

Arguments Ok {A} a.
Arguments Raise {A} e.

Definition bind {A B : Type} (c : result A) (k : A -> result B) : result B :=
  match c with
  | Ok a => k a
  | Raise e => Raise e
  end.

Notation "x <- c ;; k" := (bind c (fun x => k))
  (at level 61, c at next level, right associativity).
Notation "' p <- c ;; k" := (bind c (fun x => let p := x in k))
  (at level 61, p pattern, c at next level, right associativity).

Definition raises {A : Type} (c : result A) : Prop := exists e, c = Raise e.

Fixpoint mapM {A B : Type} (f : A -> result B) (l : list A) : result (list B) :=
  match l with
  | [] => Ok []
  | a :: r => b <- f a ;; bs <- mapM f r ;; Ok (b :: bs)
  end.

(** ** Scalars *)

Class FloatOps : Type := {
  sigmoid : Qc -> Qc;
  sqrt : Qc -> Qc
}.

Definition Qc_eqb (x y : Qc) : bool := Qeq_bool x y.

Definition Qc_leb (x y : Qc) : bool := Qle_bool x y.

Definition relu (x : Qc) : Qc := if Qc_leb 0 x then x else 0%Qc.

Fixpoint sum_n (n : nat) (f : nat -> Qc) : Qc :=
  match n with
  | O => 0%Qc
  | S k => (sum_n k f + f k)%Qc
  end.

(** ** Tensors

    A tensor is its static shape and its entries, read by a multi-index.
    Only the entries at in-range indices are meaningful. *)

Definition Shape := list nat.
Definition Index := list nat.

Record Tensor (A : Type) : Type := mkTensor {
  shape : Shape;
  elem : Index -> A
}.

Fixpoint in_range (s : Shape) (i : Index) : Prop :=
  match s, i with
  | [], [] => True
  | d :: s', x :: i' => x < d /\ in_range s' i'
  | _, _ => False
  end.

Definition shape_eq_dec : forall s t : Shape, {s = t} + {s <> t} :=
  list_eq_dec Nat.eq_dec.

Arguments shape_eq_dec : simpl never.

Fixpoint zip_with {A B C : Type} (f : A -> B -> C) (l : list A) (m : list B) : list C :=
  match l, m with
  | a :: l', b :: m' => f a b :: zip_with f l' m'
  | _, _ => []
  end.

Fixpoint set_nth {A : Type} (n : nat) (l : list A) (a : A) : list A :=
  match n, l with
  | O, _ :: r => a :: r
  | S k, x :: r => x :: set_nth k r a
  | _, [] => []
  end.

Fixpoint remove_nth {A : Type} (n : nat) (l : list A) : list A :=
  match n, l with
  | O, _ :: r => r
  | S k, x :: r => x :: remove_nth k r
  | _, [] => []
  end.

Fixpoint insert_nth {A : Type} (n : nat) (a : A) (l : list A) : list A :=
  match n, l with
  | O, _ => a :: l
  | S k, x :: r => x :: insert_nth k a r
  | S _, [] => [a]
  end.

Definition prod_list (l : list nat) : nat := fold_right Nat.mul 1 l.

(** Python's negative axes count from the end. *)
Definition norm_axis (rank : nat) (axis : Z) : result nat :=
  if (0 <=? axis)%Z then
    if (axis <? Z.of_nat rank)%Z then Ok (Z.to_nat axis)
    else Raise (ValueError "axis out of range")
  else
    if (- Z.of_nat rank <=? axis)%Z then Ok (Z.to_nat (Z.of_nat rank + axis))
    else Raise (ValueError "axis out of range").

(** NumPy-style broadcasting of two shapes, aligned at the last axis. *)
Fixpoint broadcast_rev (r1 r2 : list nat) : option (list nat) :=
  match r1, r2 with
  | [], r => Some r
  | r, [] => Some r
  | a :: x, b :: y =>
      if a =? b then option_map (cons a) (broadcast_rev x y)
      else if a =? 1 then option_map (cons b) (broadcast_rev x y)
      else if b =? 1 then option_map (cons a) (broadcast_rev x y)
      else None
  end.

Definition broadcast_shape (s1 s2 : Shape) : option Shape :=
  option_map (@rev nat) (broadcast_rev (rev s1) (rev s2)).

(** The index into an operand of shape [s] for the index [i] of the
    broadcast result: leading axes are dropped, axes of size 1 read 0. *)
Definition broadcast_index (s : Shape) (i : Index) : Index :=
  zip_with (fun d x => if d =? 1 then 0 else x) s (skipn (length i - length s) i).

Fixpoint sum_index (dims : Shape) (f : Index -> Qc) : Qc :=
  match dims with
  | [] => f []
  | d :: ds => sum_n d (fun x => sum_index ds (fun r => f (x :: r)))
  end.

Definition Qc_of_nat (n : nat) : Qc := Q2Qc (inject_Z (Z.of_nat n)).

(** ** The TensorFlow operations the layers call *)

Module tf.

Definition constant (c : Qc) : Tensor Qc := mkTensor [] (fun _ => c).

Definition zeros_like (t : Tensor Qc) : Tensor Qc :=
  mkTensor (shape t) (fun _ => 0%Qc).

Definition not_equal (t : Tensor Qc) (c : Qc) : Tensor bool :=
  mkTensor (shape t) (fun i => negb (Qc_eqb (elem t i) c)).

Definition unary (f : Qc -> Qc) (t : Tensor Qc) : Tensor Qc :=
  mkTensor (shape t) (fun i => f (elem t i)).

(** Element-wise binary operations broadcast their operands. *)
Definition binary (f : Qc -> Qc -> Qc) (a b : Tensor Qc) : result (Tensor Qc) :=
  match broadcast_shape (shape a) (shape b) with
  | Some s =>
      Ok (mkTensor s (fun i => f (elem a (broadcast_index (shape a) i))
                                 (elem b (broadcast_index (shape b) i))))
  | None => Raise (ValueError "operands could not be broadcast together")
  end.

Definition add (a b : Tensor Qc) := binary Qcplus a b.
Definition subtract (a b : Tensor Qc) := binary Qcminus a b.
Definition multiply (a b : Tensor Qc) := binary Qcmult a b.

Definition sigmoid {F : FloatOps} : Tensor Qc -> Tensor Qc := unary sigmoid.

(** [t[:, :, k]] and its like: entry [k] of one axis, which is dropped. *)
Definition getitem (t : Tensor Qc) (axis k : nat) : result (Tensor Qc) :=
  match nth_error (shape t) axis with
  | Some d =>
      if k <? d then
        Ok (mkTensor (remove_nth axis (shape t)) (fun i => elem t (insert_nth axis k i)))
      else Raise (ValueError "slice index out of bounds")
  | None => Raise (ValueError "index out of range for the input's rank")
  end.

Definition tile (t : Tensor Qc) (multiples : list nat) : result (Tensor Qc) :=
  if length multiples =? length (shape t) then
    Ok (mkTensor (zip_with Nat.mul (shape t) multiples)
                 (fun i => elem t (zip_with Nat.modulo i (shape t))))
  else Raise (ValueError "multiples must have one entry per axis").

Fixpoint concat_elem (ax : nat) (values : list (Tensor Qc)) (i : Index) (j : nat) : Qc :=
  match values with
  | [] => 0%Qc
  | u :: r =>
      let w := nth ax (shape u) 0 in
      if j <? w then elem u (set_nth ax i j) else concat_elem ax r i (j - w)
  end.

Definition concat (values : list (Tensor Qc)) (axis : Z) : result (Tensor Qc) :=
  match values with
  | [] => Raise (ValueError "concat of no tensor")
  | t :: rest =>
      ax <- norm_axis (length (shape t)) axis ;;
      if forallb (fun u => if shape_eq_dec (remove_nth ax (shape u)) (remove_nth ax (shape t))
                           then length (shape u) =? length (shape t) else false) rest
      then Ok (mkTensor (set_nth ax (shape t) (list_sum (map (fun u => nth ax (shape u) 0) values)))
                        (fun i => concat_elem ax values i (nth ax i 0)))
      else Raise (ValueError "concat: dimensions off the axis must agree")
  end.

Definition where_ (condition : Tensor bool) (x y : Tensor Qc) : result (Tensor Qc) :=
  match broadcast_shape (shape x) (shape y) with
  | Some sxy =>
      match broadcast_shape (shape condition) sxy with
      | Some s =>
          Ok (mkTensor s (fun i => if elem condition (broadcast_index (shape condition) i)
                                   then elem x (broadcast_index (shape x) i)
                                   else elem y (broadcast_index (shape y) i)))
      | None => Raise (ValueError "operands could not be broadcast together")
      end
  | None => Raise (ValueError "operands could not be broadcast together")
  end.

Definition expand_dims (t : Tensor Qc) (axis : Z) : result (Tensor Qc) :=
  ax <- norm_axis (S (length (shape t))) axis ;;
  Ok (mkTensor (insert_nth ax 1 (shape t)) (fun i => elem t (remove_nth ax i))).

Definition squeeze (t : Tensor Qc) (axis : Z) : result (Tensor Qc) :=
  ax <- norm_axis (length (shape t)) axis ;;
  if nth ax (shape t) 0 =? 1 then
    Ok (mkTensor (remove_nth ax (shape t)) (fun i => elem t (insert_nth ax 0 i)))
  else Raise (ValueError "cannot squeeze an axis whose size is not 1").

(** Batched matrix product: [... x M x K] by [... x K x N]. *)
Definition matmul (a b : Tensor Qc) : result (Tensor Qc) :=
  match rev (shape a), rev (shape b) with
  | k :: m :: ba, n :: k' :: bb =>
      if shape_eq_dec ba bb then
        if k =? k' then
          Ok (mkTensor (rev (n :: m :: ba))
                (fun i =>
                   let batch := firstn (length i - 2) i in
                   let r := nth (length i - 2) i 0 in
                   let c := nth (length i - 1) i 0 in
                   sum_n k (fun j => (elem a (batch ++ [r; j]) * elem b (batch ++ [j; c]))%Qc)))
        else Raise (ValueError "matmul: inner dimensions must agree")
      else Raise (ValueError "matmul: batch dimensions must agree")
  | _, _ => Raise (ValueError "matmul: rank must be at least 2")
  end.

(** Contraction of the last axis with a [K x U] kernel (Dense's product). *)
Definition tensordot_last (x kernel : Tensor Qc) : result (Tensor Qc) :=
  match rev (shape x), shape kernel with
  | k :: pre, [k'; u] =>
      if k =? k' then
        Ok (mkTensor (rev (u :: pre))
              (fun i =>
                 let p := removelast i in
                 sum_n k (fun j => (elem x (p ++ [j]) * elem kernel [j; last i 0%nat])%Qc)))
      else Raise (ValueError "input's last dimension does not match the kernel")
  | _, _ => Raise (ValueError "tensordot: bad ranks")
  end.

(** Per-channel mean and variance over every axis but the last.  (Over
    no entry at all, the quotient by 0 is 0 here; it is NaN in floats.) *)
Definition moments_last (x : Tensor Qc) : (nat -> Qc) * (nat -> Qc) :=
  let dims := removelast (shape x) in
  let n := Qc_of_nat (prod_list dims) in
  let mean := fun c => (sum_index dims (fun p => elem x (p ++ [c])) / n)%Qc in
  let var := fun c =>
    (sum_index dims (fun p => (elem x (p ++ [c]) - mean c) * (elem x (p ++ [c]) - mean c)) / n)%Qc in
  (mean, var).

End tf.

Arguments broadcast_shape : simpl never.
Arguments broadcast_index : simpl never.
Arguments tf.binary : simpl never.
Arguments tf.add : simpl never.
Arguments tf.subtract : simpl never.
Arguments tf.multiply : simpl never.

(** A tensor as nested lists, to read results. *)
Definition to_list2 {A : Type} (t : Tensor A) : list (list A) :=
  map (fun i => map (fun j => elem t [i; j]) (seq 0 (nth 1 (shape t) 0)))
      (seq 0 (nth 0 (shape t) 0)).

Definition to_list3 {A : Type} (t : Tensor A) : list (list (list A)) :=
  map (fun b => map (fun i => map (fun j => elem t [b; i; j]) (seq 0 (nth 2 (shape t) 0)))
                    (seq 0 (nth 1 (shape t) 0)))
      (seq 0 (nth 0 (shape t) 0)).

Definition of_list3 (B L D : nat) (v : list (list (list Qc))) : Tensor Qc :=
  mkTensor [B; L; D]
    (fun i => match i with
              | [b; l; d] => nth d (nth l (nth b v []) []) 0%Qc
              | _ => 0%Qc
              end).

(** ** Keras layers used by the module

    A layer's weights are created by [build] at its first call, from the
    shape of the input it is called on.  Their values (fresh from an
    initializer or trained) are read from a weight source, by weight name:
    they are arbitrary. *)

Definition Weights := string -> Shape -> Index -> Qc.

Definition weight (w : Weights) (name : string) (s : Shape) : Tensor Qc :=
  mkTensor s (w name s).

Module BatchNormalization.

Record t : Type := mk {
  center : bool;
  scale : bool;
  momentum : Qc;
  epsilon : Qc;
  gamma : option (Tensor Qc);
  beta : option (Tensor Qc);
  moving_mean : option (Tensor Qc);
  moving_variance : option (Tensor Qc);
  built : bool;
  weights : Weights
}.

Definition __init__ (center scale : bool) (w : Weights) : t :=
  mk center scale (Q2Qc (99 # 100)) (Q2Qc (1 # 1000)) None None None None false w.

Definition build (l : t) (input_shape : Shape) : result t :=
  match rev input_shape with
  | [] => Raise (ValueError "BatchNormalization: input has no axis")
  | c :: _ =>
      Ok (mk (center l) (scale l) (momentum l) (epsilon l)
             (if scale l then Some (weight (weights l) "gamma" [c]) else None)
             (if center l then Some (weight (weights l) "beta" [c]) else None)
             (Some (weight (weights l) "moving_mean" [c]))
             (Some (weight (weights l) "moving_variance" [c]))
             true (weights l))
  end.

(** The normalisation of one entry of channel [c]. *)
Definition normalize {F : FloatOps} (l : t) (mean var : nat -> Qc) (c : nat) (v : Qc) : Qc :=
  let n := ((v - mean c) / sqrt (var c + epsilon l))%Qc in
  let n := match gamma l with Some g => (n * elem g [c])%Qc | None => n end in
  match beta l with Some b => (n + elem b [c])%Qc | None => n end.

(** The statistics used: of the batch when training, the moving ones
    otherwise. *)
Definition statistics (training : bool) (mm mv x : Tensor Qc) : (nat -> Qc) * (nat -> Qc) :=
  if training then tf.moments_last x
  else (fun c => elem mm [c], fun c => elem mv [c]).

Definition call {F : FloatOps} (training : bool) (l : t) (x : Tensor Qc) : result (t * Tensor Qc) :=
  match moving_mean l, moving_variance l with
  | Some mm, Some mv =>
      if shape_eq_dec (shape mm) [last (shape x) 0] then
        let (mean, var) := statistics training mm mv x in
        let out := mkTensor (shape x) (fun i => normalize l mean var (last i 0) (elem x i)) in
        let blend := fun old new c =>
          (elem old [c] * momentum l + new c * (1 - momentum l))%Qc in
        let l' :=
          if training then
            mk (center l) (scale l) (momentum l) (epsilon l) (gamma l) (beta l)
               (Some (mkTensor (shape mm) (fun i => blend mm mean (last i 0))))
               (Some (mkTensor (shape mv) (fun i => blend mv var (last i 0))))
               (built l) (weights l)
          else l in
        Ok (l', out)
      else Raise (ValueError "BatchNormalization: input incompatible with the layer")
  | _, _ => Raise (AttributeError "moving_mean")
  end.

Definition __call__ {F : FloatOps} (training : bool) (l : t) (x : Tensor Qc) : result (t * Tensor Qc) :=
  l' <- (if built l then Ok l else build l (shape x)) ;;
  call training l' x.

(** A state a call on an input with [c] channels may meet: not built yet,
    or built for [c] channels. *)
Definition ready (c : nat) (l : t) : Prop :=
  built l = true ->
  exists mm mv, moving_mean l = Some mm /\ moving_variance l = Some mv /\ shape mm = [c].

(** A normalisation layer without learned shift or scale. *)
Definition plain (l : t) : Prop :=
  center l = false /\ scale l = false /\ gamma l = None /\ beta l = None.

End BatchNormalization.

Module PReLU.

Record t : Type := mk {
  alpha : option (Tensor Qc);
  built : bool;
  weights : Weights
}.

Definition __init__ (w : Weights) : t := mk None false w.

(** [alpha] has the input's shape without the batch axis. *)
Definition build (l : t) (input_shape : Shape) : result t :=
  Ok (mk (Some (weight (weights l) "alpha" (tl input_shape))) true (weights l)).

(** [build] fixes the rank of the inputs only; [alpha] is broadcast
    against them. *)
Definition call (l : t) (inputs : Tensor Qc) : result (Tensor Qc) :=
  match alpha l with
  | Some a =>
      if length (shape inputs) =? S (length (shape a)) then
        let pos := tf.unary relu inputs in
        neg <- tf.multiply (tf.unary Qcopp a) (tf.unary relu (tf.unary Qcopp inputs)) ;;
        tf.add pos neg
      else Raise (ValueError "PReLU: input incompatible with the layer")
  | None => Raise (AttributeError "alpha")
  end.

Definition __call__ (l : t) (x : Tensor Qc) : result (t * Tensor Qc) :=
  l' <- (if built l then Ok l else build l (shape x)) ;;
  out <- call l' x ;;
  Ok (l', out).

(** Not built yet, or built for examples of shape [e]. *)
Definition ready (e : Shape) (l : t) : Prop :=
  built l = true -> exists a, alpha l = Some a /\ shape a = e.

End PReLU.

(** ** class Dice(Layer) *)

Module Dice.

Record t : Type := mk {
  bn : BatchNormalization.t;
  alpha : option (Tensor Qc);
  built : bool;
  weights : Weights
}.

Definition __init__ (w : Weights) : t :=
  mk (BatchNormalization.__init__ false false w) None false w.

Definition build (self : t) (input_shape : Shape) : result t :=
  match rev input_shape with
  | [] => Raise (IndexError "input_shape[-1]")
  | c :: _ => Ok (mk (bn self) (Some (weight (weights self) "alpha" [c])) true (weights self))
  end.

Definition call {F : FloatOps} (training : bool) (self : t) (x : Tensor Qc) : result (t * Tensor Qc) :=
  '(bn', x_normed) <- BatchNormalization.__call__ training (bn self) x ;;
  let x_p := tf.sigmoid x_normed in
  match alpha self with
  | None => Raise (AttributeError "alpha")
  | Some a =>
      one_minus <- tf.subtract (tf.constant 1%Qc) x_p ;;
      scaled <- tf.multiply a one_minus ;;
      left <- tf.multiply scaled x ;;
      right <- tf.multiply x_p x ;;
      out <- tf.add left right ;;
      Ok (mk bn' (alpha self) (built self) (weights self), out)
  end.

Definition __call__ {F : FloatOps} (training : bool) (self : t) (x : Tensor Qc) : result (t * Tensor Qc) :=
  self' <- (if built self then Ok self else build self (shape x)) ;;
  call training self' x.

(** Not built yet, or built for [c] channels; the normalisation is the
    plain one that [__init__] creates. *)
Definition ready (c : nat) (self : t) : Prop :=
  BatchNormalization.ready c (bn self) /\
  BatchNormalization.plain (bn self) /\
  (built self = true -> exists a, alpha self = Some a /\ shape a = [c]).

End Dice.

(** ** Dense, with the activations the module passes to it *)

Inductive Activation : Type :=
| act_linear
| act_sigmoid
| act_PReLU (l : PReLU.t)
| act_Dice (l : Dice.t).

Module Dense.

Record t : Type := mk {
  units : nat;
  activation : Activation;
  kernel : option (Tensor Qc);
  bias : option (Tensor Qc);
  built : bool;
  weights : Weights
}.

Definition __init__ (units : nat) (activation : Activation) (w : Weights) : t :=
  mk units activation None None false w.

Definition build (l : t) (input_shape : Shape) : result t :=
  match rev input_shape with
  | last_dim :: _ :: _ =>
      Ok (mk (units l) (activation l)
             (Some (weight (weights l) "kernel" [last_dim; units l]))
             (Some (weight (weights l) "bias" [units l]))
             true (weights l))
  | _ => Raise (ValueError "Dense: input must have at least 2 axes")
  end.

Definition activate {F : FloatOps} (training : bool) (a : Activation) (x : Tensor Qc)
  : result (Activation * Tensor Qc) :=
  match a with
  | act_linear => Ok (act_linear, x)
  | act_sigmoid => Ok (act_sigmoid, tf.sigmoid x)
  | act_PReLU p => '(p', y) <- PReLU.__call__ p x ;; Ok (act_PReLU p', y)
  | act_Dice d => '(d', y) <- Dice.__call__ training d x ;; Ok (act_Dice d', y)
  end.

Definition call {F : FloatOps} (training : bool) (l : t) (inputs : Tensor Qc) : result (t * Tensor Qc) :=
  match kernel l, bias l with
  | Some k, Some b =>
      outputs <- tf.tensordot_last inputs k ;;
      outputs <- tf.add outputs b ;;
      '(a', outputs) <- activate training (activation l) outputs ;;
      Ok (mk (units l) a' (kernel l) (bias l) (built l) (weights l), outputs)
  | _, _ => Raise (AttributeError "kernel")
  end.

Definition __call__ {F : FloatOps} (training : bool) (l : t) (x : Tensor Qc) : result (t * Tensor Qc) :=
  l' <- (if built l then Ok l else build l (shape x)) ;;
  call training l' x.

Definition activation_ready (e : Shape) (a : Activation) : Prop :=
  match a with
  | act_linear | act_sigmoid => True
  | act_PReLU p => PReLU.ready e p
  | act_Dice d => Dice.ready (last e 0) d
  end.

(** Not built yet, or built for examples of shape [e]. *)
Definition ready (e : Shape) (l : t) : Prop :=
  (built l = true ->
   exists k b, kernel l = Some k /\ bias l = Some b /\
               shape k = [last e 0; units l] /\ shape b = [units l]) /\
  activation_ready (removelast e ++ [units l]) (activation l).

End Dense.

(** ** class LocalActivationUnit(Layer) *)

Module LocalActivationUnit.


Record t : Type := mk {
  hidden_units : list nat;
  linear : Dense.t;
  dnn : list Dense.t
}.

Definition __init__ (hidden_units : list nat) (activation : string) (w : nat -> Weights) : t :=
  mk hidden_units
     (Dense.__init__ 1 act_linear (w (length hidden_units)))
     (map (fun ku : nat * nat =>
             let (k, unit) := ku in
             Dense.__init__ unit
               (if String.eqb activation "prelu" then act_PReLU (PReLU.__init__ (w k))
                else act_Dice (Dice.__init__ (w k)))
               (w k))
          (combine (seq 0 (length hidden_units)) hidden_units)).

(** [att_input]: the 4 pieces side by side on the last axis. *)
Definition att_input (query keys : Tensor Qc) : result (Tensor Qc) :=
  keys_len <- match nth_error (shape keys) 1 with
              | Some n => Ok n
              | None => Raise (IndexError "keys.get_shape()[1]")
              end ;;
  queries <- tf.tile query [1; keys_len; 1] ;;
  diff <- tf.subtract queries keys ;;
  prod <- tf.multiply queries keys ;;
  tf.concat [queries; keys; diff; prod] (-1).

(** [for fc in self.dnn: att_out = fc(att_out)] *)
Fixpoint run_dnn {F : FloatOps} (training : bool) (dnn : list Dense.t) (att_out : Tensor Qc)
  : result (list Dense.t * Tensor Qc) :=
  match dnn with
  | [] => Ok ([], att_out)
  | fc :: rest =>
      '(fc', att_out) <- Dense.__call__ training fc att_out ;;
      '(rest', att_out) <- run_dnn training rest att_out ;;
      Ok (fc' :: rest', att_out)
  end.

Definition call {F : FloatOps} (training : bool) (self : t) (inputs : Tensor Qc * Tensor Qc)
  : result (t * Tensor Qc) :=
  let (query, keys) := inputs in
  att_input <- att_input query keys ;;
  '(dnn', att_out) <- run_dnn training (dnn self) att_input ;;
  '(linear', att_out) <- Dense.__call__ training (linear self) att_out ;;
  att_out <- tf.squeeze att_out (-1) ;;
  Ok (mk (hidden_units self) linear' dnn', att_out).

Fixpoint dnn_ready (e : Shape) (dnn : list Dense.t) : Prop :=
  match dnn with
  | [] => True
  | fc :: rest => Dense.ready e fc /\ dnn_ready (removelast e ++ [Dense.units fc]) rest
  end.

Fixpoint dnn_out (e : Shape) (dnn : list Dense.t) : Shape :=
  match dnn with
  | [] => e
  | fc :: rest => dnn_out (removelast e ++ [Dense.units fc]) rest
  end.

(** Not built yet, or built for per-example attention inputs of shape [e]. *)
Definition ready (e : Shape) (self : t) : Prop :=
  dnn_ready e (dnn self) /\
  Dense.ready (dnn_out e (dnn self)) (linear self) /\
  Dense.units (linear self) = 1.

End LocalActivationUnit.

(** ** class AttentionPoolingLayer(Layer) *)

Module AttentionPoolingLayer.

(** The default of [__init__]. *)
Definition default_att_hidden_units : list nat := [256; 128; 64].

Record t : Type := mk {
  att_hidden_units : list nat;
  local_att : LocalActivationUnit.t
}.

Definition __init__ (att_hidden_units : list nat) (w : nat -> Weights) : t :=
  mk att_hidden_units (LocalActivationUnit.__init__ att_hidden_units "prelu" w).

(** [key_masks = tf.not_equal(keys[:, :, 0], 0)] *)
Definition key_masks (keys : Tensor Qc) : result (Tensor bool) :=
  first <- tf.getitem keys 2 0 ;;
  Ok (tf.not_equal first 0%Qc).

(** [outputs = tf.where(key_masks, attention_score, paddings)] *)
Definition masked_scores (key_masks : Tensor bool) (attention_score : Tensor Qc)
  : result (Tensor Qc) :=
  let paddings := tf.zeros_like attention_score in
  tf.where_ key_masks attention_score paddings.

Definition call {F : FloatOps} (training : bool) (self : t) (inputs : Tensor Qc * Tensor Qc)
  : result (t * Tensor Qc) :=
  let (queries, keys) := inputs in
  key_masks <- key_masks keys ;;
  '(local_att', attention_score) <-
      LocalActivationUnit.call training (local_att self) (queries, keys) ;;
  outputs <- masked_scores key_masks attention_score ;;
  outputs <- tf.expand_dims outputs 1 ;;
  outputs <- tf.matmul outputs keys ;;
  outputs <- tf.squeeze outputs 1 ;;
  Ok (mk (att_hidden_units self) local_att', outputs).

(** Not built yet, or built for histories of length [L] and width [D]. *)
Definition ready (L D : nat) (self : t) : Prop :=
  LocalActivationUnit.ready [L; 4 * D] (local_att self).

End AttentionPoolingLayer.

(** * The graph level: model assembly *)

(** ** Feature descriptors *)

(** Modelled from the spec: utils.py, which declares [SparseFeat],
    [DenseFeat] and [VarLenSparseFeat], is not among the sources.  The
    three descriptors are distinct variants and carry the fields that the
    data model lists and that DIN.py reads. *)
Inductive FeatureColumn : Type :=
| SparseFeat (name : string) (vocabulary_size embedding_dim : nat)
| DenseFeat (name : string) (dimension : nat)
| VarLenSparseFeat (name : string) (vocabulary_size embedding_dim maxlen : nat).

Definition fc_name (fc : FeatureColumn) : string :=
  match fc with
  | SparseFeat n _ _ | DenseFeat n _ | VarLenSparseFeat n _ _ _ => n
  end.

(** [isinstance(fc, SparseFeat)] and its like. *)
Definition is_SparseFeat (fc : FeatureColumn) : bool :=
  match fc with SparseFeat _ _ _ => true | _ => false end.

Definition is_DenseFeat (fc : FeatureColumn) : bool :=
  match fc with DenseFeat _ _ => true | _ => false end.

(** ** Python dictionaries with string keys, in insertion order *)

Module Dict.

Definition t (V : Type) : Type := list (string * V).

Definition empty {V : Type} : t V := [].

(** [d[k] = v] *)
Fixpoint setitem {V : Type} (d : t V) (k : string) (v : V) : t V :=
  match d with
  | [] => [(k, v)]
  | (k', v') :: r => if String.eqb k k' then (k, v) :: r else (k', v') :: setitem r k v
  end.

Fixpoint get {V : Type} (d : t V) (k : string) : option V :=
  match d with
  | [] => None
  | (k', v) :: r => if String.eqb k k' then Some v else get r k
  end.

(** [d[k]], which raises [KeyError] on a missing key. *)
Definition getitem {V : Type} (d : t V) (k : string) : result V :=
  match get d k with
  | Some v => Ok v
  | None => Raise (KeyError k)
  end.

Definition values {V : Type} (d : t V) : list V := map snd d.

End Dict.

(** ** Symbolic tensors: the graph that the layer calls build *)

Module Embedding.

Record t : Type := mk {
  input_dim : nat;
  output_dim : nat;
  name : string;
  mask_zero : bool
}.


End Embedding.

#[warnings="-register-all"]
Inductive KerasTensor : Type :=
| KInput (name : string) (shape : Shape)
| KEmbedding (layer : Embedding.t) (x : KerasTensor)
| KFlatten (x : KerasTensor)
| KConcatenate (axis : Z) (inputs : list KerasTensor)
| KAttentionPooling (layer : AttentionPoolingLayer.t) (queries keys : KerasTensor)
                    (output_shape : Shape)
| KDense (layer : Dense.t) (x : KerasTensor).

(** The static shape of a symbolic tensor, without its batch axis. *)
Fixpoint kshape (t : KerasTensor) : Shape :=
  match t with
  | KInput _ s => s
  | KEmbedding l x => kshape x ++ [Embedding.output_dim l]
  | KFlatten x => [prod_list (kshape x)]
  | KConcatenate axis inputs =>
      match inputs with
      | [] => []
      | x :: _ =>
          let ax := Z.to_nat axis - 1 in
          set_nth ax (kshape x) (list_sum (map (fun u => nth ax (kshape u) 0) inputs))
      end
  | KAttentionPooling _ _ _ output_shape => output_shape
  | KDense l x => removelast (kshape x) ++ [Dense.units l]
  end.

(** A layer called on symbolic tensors is traced on placeholders of their
    shapes, which creates its weights, raises on incompatible shapes and
    gives the shape of the result.  The batch size is not known then; any
    value stands for it. *)
Definition symbolic_batch : nat := 2.

Definition placeholder (s : Shape) : Tensor Qc :=
  mkTensor (symbolic_batch :: s) (fun _ => 0%Qc).

(** [Input(shape=shape, name=name)], for a [name] that Keras keeps as it
    is (see [plain_name]): an empty one is replaced by a generated name. *)
Definition Input (shape : Shape) (name : string) : KerasTensor := KInput name shape.

(** [layer(x)] for an [Embedding] layer. *)
Definition call_Embedding (layer : Embedding.t) (x : KerasTensor) : result KerasTensor :=
  Ok (KEmbedding layer x).

(** [Flatten()(x)] *)
Definition call_Flatten (x : KerasTensor) : result KerasTensor := Ok (KFlatten x).

(** [Concatenate(axis=axis)(inputs)]; the inputs are Python values, which
    may be [None]. *)
Definition call_Concatenate (axis : Z) (inputs : list (option KerasTensor))
  : result KerasTensor :=
  xs <- mapM (fun o : option KerasTensor =>
                match o with
                | Some x => Ok x
                | None => Raise (ValueError "Concatenate: an input is None")
                end) inputs ;;
  _ <- tf.concat (map (fun x => placeholder (kshape x)) xs) axis ;;
  Ok (KConcatenate axis xs).

(** [layer([queries, keys])] for an [AttentionPoolingLayer]. *)
Definition call_AttentionPoolingLayer {F : FloatOps} (layer : AttentionPoolingLayer.t)
           (queries keys : KerasTensor) : result KerasTensor :=
  '(layer', outputs) <- AttentionPoolingLayer.call false layer
                          (placeholder (kshape queries), placeholder (kshape keys)) ;;
  Ok (KAttentionPooling layer' queries keys (tl (shape outputs))).

(** [layer(x)] for a [Dense] layer. *)
Definition call_Dense {F : FloatOps} (layer : Dense.t) (x : KerasTensor) : result KerasTensor :=
  '(layer', _) <- Dense.__call__ false layer (placeholder (kshape x)) ;;
  Ok (KDense layer' x).

Record Model : Type := mkModel {
  inputs : list KerasTensor;
  outputs : KerasTensor
}.

(** ** The assembly functions of DIN.py *)

Definition build_input_layers (feature_columns : list FeatureColumn) : Dict.t KerasTensor :=
  fold_left
    (fun input_layer_dict fc =>
       match fc with
       | SparseFeat name _ _ => Dict.setitem input_layer_dict name (Input [1] name)
       | DenseFeat name dimension =>
           Dict.setitem input_layer_dict name (Input [dimension] name)
       | VarLenSparseFeat name _ _ maxlen =>
           Dict.setitem input_layer_dict name (Input [maxlen] name)
       end)
    feature_columns Dict.empty.

(** The loop, for descriptors whose sizes [Embedding] accepts (see
    [valid_sizes]): on a size that is not positive, [Embedding] raises. *)
Definition build_embedding_layers (feature_columns : list FeatureColumn)
           (input_layer_dict : Dict.t KerasTensor) : Dict.t Embedding.t :=
  fold_left
    (fun embedding_layer_dict fc =>
       match fc with
       | SparseFeat name vocabulary_size embedding_dim =>
           Dict.setitem embedding_layer_dict name
             (Embedding.mk vocabulary_size embedding_dim (String.append "emb_" name) false)
       | VarLenSparseFeat name vocabulary_size embedding_dim _ =>
           Dict.setitem embedding_layer_dict name
             (Embedding.mk (vocabulary_size + 1) embedding_dim (String.append "emb_" name) true)
       | DenseFeat _ _ => embedding_layer_dict
       end)
    feature_columns Dict.empty.

(** [feature_columns] holds feature names here. *)
Definition embedding_lookup (feature_columns : list string)
           (input_layer_dict : Dict.t KerasTensor)
           (embedding_layer_dict : Dict.t Embedding.t) : result (list KerasTensor) :=
  mapM (fun fc =>
          _input <- Dict.getitem input_layer_dict fc ;;
          _embed <- Dict.getitem embedding_layer_dict fc ;;
          call_Embedding _embed _input)
       feature_columns.

Definition get_dnn_logits {F : FloatOps} (dnn_input : KerasTensor) (hidden_units : list nat)
           (activation : string) (w : nat -> Weights) : result KerasTensor :=
  let dnns :=
    map (fun ku : nat * nat =>
           let (k, unit) := ku in
           Dense.__init__ unit
             (if String.eqb activation "prelu" then act_PReLU (PReLU.__init__ (w k))
              else act_Dice (Dice.__init__ (w k)))
             (w k))
        (combine (seq 0 (length hidden_units)) hidden_units) in
  dnn_out <- fold_left (fun acc dnn => dnn_out <- acc ;; call_Dense dnn dnn_out)
                       dnns (Ok dnn_input) ;;
  call_Dense (Dense.__init__ 1 act_sigmoid (w (length hidden_units))) dnn_out.

Definition default_dnn_hidden_units : list nat := [200; 80].

Definition concat_input_list (input_list : list KerasTensor) : result (option KerasTensor) :=
  let feature_nums := length input_list in
  if 1 <? feature_nums then
    x <- call_Concatenate 1 (map Some input_list) ;; Ok (Some x)
  else if feature_nums =? 1 then
    match input_list with
    | x :: _ => Ok (Some x)
    | [] => Raise (IndexError "input_list[0]")
    end
  else Ok None.

Definition concat_embedding_list (feature_columns : list FeatureColumn)
           (input_layer_dict : Dict.t KerasTensor)
           (embedding_layer_dict : Dict.t Embedding.t) (flatten : bool)
  : result (list KerasTensor) :=
  mapM (fun fc =>
          _input <- Dict.getitem input_layer_dict (fc_name fc) ;;
          _embed <- Dict.getitem embedding_layer_dict (fc_name fc) ;;
          embed <- call_Embedding _embed _input ;;
          if flatten then call_Flatten embed else Ok embed)
       feature_columns.

(** The attention pooling of the behaviour sequences, one fresh layer for
    each: [for i in range(len(keys_embed_list))]. *)
Fixpoint pool_sequences {F : FloatOps} (w : nat -> nat -> Weights) (i : nat)
         (query_embed_list keys_embed_list : list KerasTensor) : result (list KerasTensor) :=
  match keys_embed_list with
  | [] => Ok []
  | keys :: rest =>
      query <- match nth_error query_embed_list i with
               | Some q => Ok q
               | None => Raise (IndexError "query_embed_list[i]")
               end ;;
      seq_emb <- call_AttentionPoolingLayer
                   (AttentionPoolingLayer.__init__
                      AttentionPoolingLayer.default_att_hidden_units (w i))
                   query keys ;;
      rest' <- pool_sequences w (S i) query_embed_list rest ;;
      Ok (seq_emb :: rest')
  end.

(** [Model(input_layers, dnn_logits)] is the pair of its arguments, for
    descriptors that pass the checks of Keras (see [keras_accepts]): on two
    layers with one name, [Model] raises. *)
Definition DIN {F : FloatOps} (w : nat -> nat -> Weights)
           (feature_columns : list FeatureColumn)
           (behavior_feature_list behavior_seq_feature_list : list string) : result Model :=
  let input_layer_dict := build_input_layers feature_columns in
  let input_layers := Dict.values input_layer_dict in
  let sparse_feature_columns := filter is_SparseFeat feature_columns in
  let dense_feature_columns := filter is_DenseFeat feature_columns in
  dnn_dense_input <- mapM (fun fc => Dict.getitem input_layer_dict (fc_name fc))
                          dense_feature_columns ;;
  dnn_dense_input <- concat_input_list dnn_dense_input ;;
  let embedding_layer_dict := build_embedding_layers feature_columns input_layer_dict in
  dnn_sparse_embed_input <-
    concat_embedding_list sparse_feature_columns input_layer_dict embedding_layer_dict true ;;
  dnn_sparse_input <- concat_input_list dnn_sparse_embed_input ;;
  query_embed_list <-
    embedding_lookup behavior_feature_list input_layer_dict embedding_layer_dict ;;
  keys_embed_list <-
    embedding_lookup behavior_seq_feature_list input_layer_dict embedding_layer_dict ;;
  dnn_seq_input_list <- pool_sequences w 0 query_embed_list keys_embed_list ;;
  dnn_seq_input <- concat_input_list dnn_seq_input_list ;;
  dnn_input <- call_Concatenate 1 [dnn_dense_input; dnn_sparse_input; dnn_seq_input] ;;
  dnn_logits <- get_dnn_logits dnn_input default_dnn_hidden_units "prelu"
                  (w (length keys_embed_list)) ;;
  Ok (mkModel input_layers dnn_logits).

(** ** Where an embedding table occurs in a graph *)

Definition is_table_of (name : string) (l : Embedding.t) : bool :=
  String.eqb (Embedding.name l) (String.append "emb_" name).

(** The table of feature [name] is looked up in the graph; with
    [through_attention = false], the inputs of the attention poolings are
    not searched. *)
Fixpoint embedding_occurs (through_attention : bool) (name : string) (t : KerasTensor) : bool :=
  match t with
  | KInput _ _ => false
  | KEmbedding l x => is_table_of name l || embedding_occurs through_attention name x
  | KFlatten x => embedding_occurs through_attention name x
  | KConcatenate _ inputs => existsb (embedding_occurs through_attention name) inputs
  | KAttentionPooling _ queries keys _ =>
      through_attention &&
      (embedding_occurs through_attention name queries ||
       embedding_occurs through_attention name keys)
  | KDense _ x => embedding_occurs through_attention name x
  end.

(** The table of feature [name] is looked up somewhere in the graph. *)
Definition uses_embedding : string -> KerasTensor -> bool := embedding_occurs true.

(** The table of feature [name] is looked up outside the inputs of every
    attention pooling. *)
Definition uses_embedding_directly : string -> KerasTensor -> bool := embedding_occurs false.

(** ** The end-to-end scenario of the specification *)

Definition scenario_columns : list FeatureColumn :=
  [SparseFeat "user_id" 100 8;
   VarLenSparseFeat "history" 500 8 50;
   SparseFeat "candidate_id" 500 8].

Definition scenario_behavior_feature_list : list string := ["candidate_id"].
Definition scenario_behavior_seq_feature_list : list string := ["history"].

(** ** The Dice formula, as the specification words it

    [output = alpha * (1 - p) * x + p * x], where the gate [p] is the
    logistic function of the input normalised to zero mean and unit
    variance, without learned shift or scale. *)

Definition Dice_gate {F : FloatOps} (mean var : nat -> Qc) (eps : Qc) (c : nat) (v : Qc) : Qc :=
  sigmoid ((v - mean c) / sqrt (var c + eps))%Qc.

Definition Dice_formula {F : FloatOps} (alpha : Tensor Qc) (mean var : nat -> Qc) (eps : Qc)
           (x : Tensor Qc) (i : Index) : Qc :=
  let c := last i 0 in
  let p := Dice_gate mean var eps c (elem x i) in
  (elem alpha [c] * (1 - p) * elem x i + p * elem x i)%Qc.

(** The state of a normalisation layer once built for a given input. *)
Definition built_for (l : BatchNormalization.t) (x : Tensor Qc) : result BatchNormalization.t :=
  if BatchNormalization.built l then Ok l else BatchNormalization.build l (shape x).

(** The four pieces of the attention input, by column. *)
Definition att_input_entry (D : nat) (query keys : Tensor Qc) (b i j : nat) : Qc :=
  let q := fun k => elem query [b; 0; k] in
  let h := fun k => elem keys [b; i; k] in
  if j <? D then q j
  else if j - D <? D then h (j - D)
  else if j - D - D <? D then Qcminus (q (j - D - D)) (h (j - D - D))
  else Qcmult (q (j - D - D - D)) (h (j - D - D - D)).

(** ** Sample inputs, to run the layers on

    Rational stand-ins for the logistic function and the square root. *)

Definition sample_ops : FloatOps := {|
  sigmoid := fun x => ((1 + x / (1 + (if Qc_leb 0 x then x else - x))) / Q2Qc 2)%Qc;
  sqrt := fun x => ((1 + x) / Q2Qc 2)%Qc
|}.

Definition sample_weights : nat -> Weights := fun _ _ _ _ => 1%Qc.

Definition sample_query : Tensor Qc := of_list3 1 1 2 [[[1%Qc; 1%Qc]]].

(** One real position, then one padding position. *)
Definition sample_keys : Tensor Qc :=
  of_list3 1 2 2 [[[1%Qc; Q2Qc 2]; [0%Qc; Q2Qc 3]]].

(** Two padding positions. *)
Definition sample_padded_keys : Tensor Qc :=
  of_list3 1 2 2 [[[0%Qc; Q2Qc 5]; [0%Qc; Q2Qc 7]]].

Definition sample_layer : AttentionPoolingLayer.t :=
  AttentionPoolingLayer.__init__ [2; 3] sample_weights.

(** An empty history: no position. *)
Definition sample_empty_keys : Tensor Qc := of_list3 1 0 2 [[]].

(** One step of the loops of [build_input_layers] and
    [build_embedding_layers]. *)
Definition input_step (input_layer_dict : Dict.t KerasTensor) (fc : FeatureColumn)
  : Dict.t KerasTensor :=
  match fc with
  | SparseFeat name _ _ => Dict.setitem input_layer_dict name (Input [1] name)
  | DenseFeat name dimension => Dict.setitem input_layer_dict name (Input [dimension] name)
  | VarLenSparseFeat name _ _ maxlen => Dict.setitem input_layer_dict name (Input [maxlen] name)
  end.

Definition embedding_step (embedding_layer_dict : Dict.t Embedding.t) (fc : FeatureColumn)
  : Dict.t Embedding.t :=
  match fc with
  | SparseFeat name vocabulary_size embedding_dim =>
      Dict.setitem embedding_layer_dict name
        (Embedding.mk vocabulary_size embedding_dim (String.append "emb_" name) false)
  | VarLenSparseFeat name vocabulary_size embedding_dim _ =>
      Dict.setitem embedding_layer_dict name
        (Embedding.mk (vocabulary_size + 1) embedding_dim (String.append "emb_" name) true)
  | DenseFeat _ _ => embedding_layer_dict
  end.

(** A schema for which the model builds, with a sequence feature of length
    1 in the role of the candidate. *)
Definition sample_columns : list FeatureColumn :=
  [DenseFeat "d" 1;
   SparseFeat "u" 10 4;
   VarLenSparseFeat "h1" 10 4 1;
   VarLenSparseFeat "h2" 10 4 5].

Definition sample_model_weights : nat -> nat -> Weights := fun _ _ _ _ _ => 1%Qc.

(** The table that [build_embedding_layers] creates for a descriptor. *)
Definition table_of (fc : FeatureColumn) : option Embedding.t :=
  match fc with
  | SparseFeat name vocabulary_size embedding_dim =>
      Some (Embedding.mk vocabulary_size embedding_dim (String.append "emb_" name) false)
  | VarLenSparseFeat name vocabulary_size embedding_dim _ =>
      Some (Embedding.mk (vocabulary_size + 1) embedding_dim (String.append "emb_" name) true)
  | DenseFeat _ _ => None
  end.

(** A feature name without an entry in one of the two dictionaries. *)
Definition missing (input_layer_dict : Dict.t KerasTensor)
           (embedding_layer_dict : Dict.t Embedding.t) (name : string) : Prop :=
  Dict.get input_layer_dict name = None \/ Dict.get embedding_layer_dict name = None.

(** The rows of a pooled output, to read it. *)
Definition rows (r : result (AttentionPoolingLayer.t * Tensor Qc)) : list (list Q) :=
  match r with
  | Ok (_, out) => map (map this) (to_list2 out)
  | Raise _ => []
  end.

(** The scenario with a Dense descriptor added in front. *)
Definition scenario_columns_with_dense : list FeatureColumn :=
  DenseFeat "time" 1 :: scenario_columns.

(** ** The closed form of the layers without Dice

    PReLU, the activation of every sub-layer of the pooling layer, works
    entry by entry; so does Dense on the last axis.  The state of a layer
    once it is built for examples of shape [e], and the entry it computes
    from one row of its input. *)

Definition no_dice (a : Activation) : Prop :=
  match a with
  | act_Dice _ => False
  | _ => True
  end.

Definition PReLU_built (l : PReLU.t) (e : Shape) : PReLU.t :=
  if PReLU.built l then l
  else PReLU.mk (Some (weight (PReLU.weights l) "alpha" e)) true (PReLU.weights l).

Definition activation_built (a : Activation) (e : Shape) : Activation :=
  match a with
  | act_PReLU p => act_PReLU (PReLU_built p e)
  | _ => a
  end.

Definition Dense_built (l : Dense.t) (e : Shape) : Dense.t :=
  let lb :=
    if Dense.built l then l
    else Dense.mk (Dense.units l) (Dense.activation l)
           (Some (weight (Dense.weights l) "kernel" [last e 0; Dense.units l]))
           (Some (weight (Dense.weights l) "bias" [Dense.units l]))
           true (Dense.weights l) in
  Dense.mk (Dense.units lb)
           (activation_built (Dense.activation lb) (removelast e ++ [Dense.units l]))
           (Dense.kernel lb) (Dense.bias lb) (Dense.built lb) (Dense.weights lb).

(** [PReLU(v) = relu(v) - alpha * relu(-v)], with one [alpha] per entry of
    an example. *)
Definition PReLU_entry (alpha v : Qc) : Qc := (relu v + (- alpha) * relu (- v))%Qc.

Definition activation_entry {F : FloatOps} (a : Activation) (i : Index) (v : Qc) : Qc :=
  match a with
  | act_linear => v
  | act_sigmoid => sigmoid v
  | act_PReLU p =>
      match PReLU.alpha p with
      | Some alpha => PReLU_entry (elem alpha i) v
      | None => v
      end
  | act_Dice _ => v
  end.

(** The entry at index [i] (within an example) of the output of a built
    Dense layer, from the row of its input at the same position: [c] is the
    width of the row. *)
Definition Dense_entry {F : FloatOps} (l : Dense.t) (c : nat) (row : nat -> Qc) (i : Index) : Qc :=
  match Dense.kernel l, Dense.bias l with
  | Some k, Some b =>
      let u := last i 0 in
      activation_entry (Dense.activation l) i
        (Qcplus (sum_n c (fun j => Qcmult (row j) (elem k [j; u]))) (elem b [u]))
  | _, _ => 0%Qc
  end.

(** No layer of the unit's stack uses Dice (the only activation here that
    looks across the batch): what [activation='prelu'], the value
    AttentionPoolingLayer always passes, gives. *)
Definition prelu_only (self : LocalActivationUnit.t) : Prop :=
  Forall (fun fc => no_dice (Dense.activation fc)) (LocalActivationUnit.dnn self) /\
  no_dice (Dense.activation (LocalActivationUnit.linear self)).

(** Two batches hold the same example: row [b] of the first and row [b'] of
    the second have the same query and, position by position, the same
    keys. *)
Definition same_query (D : nat) (q q' : Tensor Qc) (b b' : nat) : Prop :=
  forall j, j < D -> elem q [b; 0; j] = elem q' [b'; 0; j].

Definition same_key (D : nat) (k k' : Tensor Qc) (b b' i : nat) : Prop :=
  forall j, j < D -> elem k [b; i; j] = elem k' [b'; i; j].

(** A batch of two examples, the second of which is the example of
    [sample_query] and [sample_keys]. *)
Definition sample_batch_query : Tensor Qc :=
  of_list3 2 1 2 [[[Q2Qc 4; Q2Qc 6]]; [[1%Qc; 1%Qc]]].

Definition sample_batch_keys : Tensor Qc :=
  of_list3 2 2 2 [[[Q2Qc 7; 1%Qc]; [Q2Qc 8; Q2Qc 9]];
                  [[1%Qc; Q2Qc 2]; [0%Qc; Q2Qc 5]]].

(** ** What the assembly makes of one descriptor *)

(** The width of the input slot of a descriptor, and the slot. *)
Definition input_width (fc : FeatureColumn) : nat :=
  match fc with
  | SparseFeat _ _ _ => 1
  | DenseFeat _ dimension => dimension
  | VarLenSparseFeat _ _ _ maxlen => maxlen
  end.

Definition input_of (fc : FeatureColumn) : KerasTensor :=
  Input [input_width fc] (fc_name fc).

(** [name] names a descriptor of the schema that gets an embedding table:
    one that is not Dense. *)
Definition has_table (feature_columns : list FeatureColumn) (name : string) : Prop :=
  exists fc, In fc feature_columns /\ fc_name fc = name /\ is_DenseFeat fc = false.

(** The lookup of feature [n] gives [t]: the table of [n] applied to the
    input slot of [n]. *)
Definition looked_up (input_layer_dict : Dict.t KerasTensor)
           (embedding_layer_dict : Dict.t Embedding.t) (n : string) (t : KerasTensor) : Prop :=
  exists x e, Dict.get input_layer_dict n = Some x /\
              Dict.get embedding_layer_dict n = Some e /\
              t = KEmbedding e x.

(** The width of a symbolic tensor with one axis after the batch axis. *)
Definition width (t : KerasTensor) : nat := nth 0 (kshape t) 0.

(** The widths of the Dense layers stacked at the top of a graph, from
    the innermost to the outermost. *)
Fixpoint dense_units (t : KerasTensor) : list nat :=
  match t with
  | KDense l x => dense_units x ++ [Dense.units l]
  | _ => []
  end.

(** The descriptor that a name stands for in a schema. *)
Definition descriptor (feature_columns : list FeatureColumn) (name : string)
  : option FeatureColumn :=
  find (fun fc => String.eqb (fc_name fc) name) feature_columns.

(** The width of the embedding of a descriptor; a Dense one has none. *)
Definition embedding_width (fc : FeatureColumn) : nat :=
  match table_of fc with
  | Some e => Embedding.output_dim e
  | None => 0
  end.

(** A behaviour feature and a behaviour sequence that the attention
    pooling accepts together: both have a table, the feature fills one
    slot, and the two embeddings have the same width, not 0. *)
Definition poolable (feature_columns : list FeatureColumn) (query keys : string) : Prop :=
  match descriptor feature_columns query, descriptor feature_columns keys with
  | Some q, Some k =>
      is_DenseFeat q = false /\ is_DenseFeat k = false /\
      input_width q = 1 /\
      embedding_width q = embedding_width k /\ 0 < embedding_width k
  | _, _ => False
  end.

(** The width of the input of the final stack of Dense layers: the Dense
    descriptors' dimensions, the Sparse descriptors' embeddings and one
    pooled embedding per behaviour sequence. *)
Definition dnn_input_width (feature_columns : list FeatureColumn)
           (behavior_seq_feature_list : list string) : nat :=
  list_sum (map input_width (filter is_DenseFeat feature_columns)) +
  list_sum (map embedding_width (filter is_SparseFeat feature_columns)) +
  list_sum (map (fun n => match descriptor feature_columns n with
                          | Some k => embedding_width k
                          | None => 0
                          end) behavior_seq_feature_list).

(** The tensor under the Dense layers stacked at the top of a graph. *)
Fixpoint below_dense (t : KerasTensor) : KerasTensor :=
  match t with
  | KDense _ x => below_dense x
  | _ => t
  end.

(** The kind of an activation. *)
Definition is_PReLU (a : Activation) : bool :=
  match a with act_PReLU _ => true | _ => false end.

Definition is_Dice (a : Activation) : bool :=
  match a with act_Dice _ => true | _ => false end.

(** The nodes of a graph: a symbolic tensor and all the tensors that it
    is computed from. *)
Fixpoint nodes (t : KerasTensor) : list KerasTensor :=
  t :: match t with
       | KInput _ _ => []
       | KEmbedding _ x => nodes x
       | KFlatten x => nodes x
       | KConcatenate _ inputs => flat_map nodes inputs
       | KAttentionPooling _ queries keys _ => nodes queries ++ nodes keys
       | KDense _ x => nodes x
       end.

(** A node is wired as the assembly wires it: an input slot is one of
    the declared inputs; a table named [emb_<n>] is applied to the input
    slot named [n], itself a declared input. *)
Definition well_wired (declared : list KerasTensor) (u : KerasTensor) : Prop :=
  match u with
  | KInput _ _ => In u declared
  | KEmbedding e x =>
      exists n s, x = KInput n s /\ Embedding.name e = String.append "emb_" n /\
                  In x declared
  | _ => True
  end.

(** ** The configuration of the script

    The vocabulary sizes are counts taken from the data files. *)
Definition main_feature_columns (users histories impressions categories : nat)
  : list FeatureColumn :=
  [SparseFeat "user_id" users 8;
   VarLenSparseFeat "history" histories 8 50;
   SparseFeat "imp_news_id" impressions 8;
   SparseFeat "user_news_features" categories 8;
   DenseFeat "time" 1].

Definition main_behavior_feature_list : list string := ["imp_news_id"].
Definition main_behavior_seq_feature_list : list string := ["history"].

(** ** The labels of the script

    A cell of a column read from the data file: a string, or no string
    (the reader gives the float NaN for an empty field). *)
Inductive Cell : Type :=
| CStr (s : string)
| CNaN.

(** [y_train]: [split] stands for [str.split()] and [label] for
    [int(n.split('-')[1])].  The loops of the comprehension run outermost
    first, and the element is computed inside them. *)
Fixpoint y_train (split : string -> list string) (label : string -> result Z)
         (impressions : list Cell) : result (list Z) :=
  match impressions with
  | [] => Ok []
  | s :: rest =>
      tokens <- match s with
                | CStr x => Ok (firstn 1 (split x))
                | CNaN => Raise (AttributeError "split")
                end ;;
      labels <- mapM (fun n => match s with
                               | CStr _ => label n
                               | CNaN => Ok 0%Z
                               end) tokens ;;
      others <- y_train split label rest ;;
      Ok (labels ++ others)
  end.

(** ** What Keras checks around the assembly

    The assembly functions are modelled without the checks that Keras
    itself makes on what they pass to it: [Embedding] refuses a table
    without a row or without a column; a layer name goes into scope names,
    and an empty one is replaced by a generated name; the layers of a
    model must have distinct names, those that Keras generates for the
    unnamed layers ([Flatten], [Concatenate], [AttentionPoolingLayer],
    [Dense]) included.  The predicates below single out the descriptors
    that pass these checks; statements about what the assembly returns
    are made for them. *)

(** The sizes of the table of a descriptor are positive. *)
Definition valid_sizes (fc : FeatureColumn) : bool :=
  match fc with
  | SparseFeat _ vocabulary_size embedding_dim => (0 <? vocabulary_size) && (0 <? embedding_dim)
  | VarLenSparseFeat _ _ embedding_dim _ => 0 <? embedding_dim
  | DenseFeat _ _ => true
  end.

Definition is_letter (c : ascii) : bool :=
  let n := nat_of_ascii c in
  ((65 <=? n) && (n <=? 90)) || ((97 <=? n) && (n <=? 122)).

Definition is_name_char (c : ascii) : bool :=
  let n := nat_of_ascii c in
  is_letter c || ((48 <=? n) && (n <=? 57)) || (n =? 95).

(** A name that Keras keeps as it is: a letter, then letters, digits and
    underscores. *)
Definition plain_name (n : string) : bool :=
  match n with
  | EmptyString => false
  | String c r => is_letter c && forallb is_name_char (list_ascii_of_string r)
  end.

(** The beginnings of the names of the other layers of the model: the
    tables, named [emb_<n>], and the layers that Keras names. *)
Definition reserved_prefixes : list string :=
  ["emb_"; "flatten"; "concatenate"; "attention_pooling_layer"; "dense"].

(** A feature name that no other layer of the model can bear. *)
Definition free_name (n : string) : bool :=
  plain_name n && forallb (fun p => negb (String.prefix p n)) reserved_prefixes.

(** A list of descriptors that passes the checks of Keras. *)
Definition keras_accepts (feature_columns : list FeatureColumn) : bool :=
  forallb valid_sizes feature_columns &&
  forallb (fun fc => free_name (fc_name fc)) feature_columns.

(** ** The statistics of a batch, as the specification words them

    The mean and the variance of channel [j] of a tensor of shape
    [q ++ [c]]: over the entries at the indices [p ++ [j]], [p] ranging
    over [q]. *)
Definition batch_mean (q : Shape) (x : Tensor Qc) (j : nat) : Qc :=
  Qcdiv (sum_index q (fun p => elem x (p ++ [j]))) (Qc_of_nat (prod_list q)).

Definition batch_variance (q : Shape) (x : Tensor Qc) (j : nat) : Qc :=
  Qcdiv (sum_index q (fun p =>
           Qcmult (Qcminus (elem x (p ++ [j])) (batch_mean q x j))
                  (Qcminus (elem x (p ++ [j])) (batch_mean q x j))))
        (Qc_of_nat (prod_list q)).

(** A weight source with [alpha] one half, kernels of alternating signs
    and no bias. *)
Definition sample_signed_weights : Weights :=
  fun name _ i =>
    if String.eqb name "alpha" then Q2Qc (1 # 2)
    else if String.eqb name "kernel" then
      (if Nat.even (list_sum i) then 1%Qc else Qcopp 1%Qc)
    else 0%Qc.




(** * Facts about sums, shapes and broadcasting *)

Unset Implicit Arguments.

Lemma sum_n_ext (n : nat) (f g : nat -> Qc) :
  (forall k, k < n -> f k = g k) -> sum_n n f = sum_n n g.
Proof.
  induction n as [|n IH]; intros H; simpl; [reflexivity|].
  rewrite IH by (intros k Hk; apply H; lia).
  rewrite H by lia. reflexivity.
Qed.

Lemma sum_n_zero (n : nat) (f : nat -> Qc) :
  (forall k, k < n -> f k = 0%Qc) -> sum_n n f = 0%Qc.
Proof.
  induction n as [|n IH]; intros H; simpl; [reflexivity|].
  rewrite IH by (intros k Hk; apply H; lia).
  rewrite H by lia. ring.
Qed.

(** A sum with at most one non-zero term is that term. *)
Lemma sum_n_single (n i : nat) (f : nat -> Qc) :
  i < n -> (forall k, k < n -> k <> i -> f k = 0%Qc) -> sum_n n f = f i.
Proof.
  induction n as [|n IH]; intros Hi H; [lia|]. simpl.
  destruct (Nat.eq_dec i n) as [->|Hne].
  - rewrite sum_n_zero by (intros k Hk; apply H; lia). ring.
  - rewrite IH by (try lia; intros k Hk Hki; apply H; lia).
    rewrite (H n) by lia. ring.
Qed.

Lemma Qc_eqb_eq (x y : Qc) : Qc_eqb x y = true <-> x = y.
Proof.
  unfold Qc_eqb. rewrite Qeq_bool_iff. split.
  - apply Qc_is_canon.
  - intros ->. reflexivity.
Qed.

Lemma Qc_eqb_neq (x y : Qc) : Qc_eqb x y = false <-> x <> y.
Proof.
  rewrite <- Qc_eqb_eq. destruct (Qc_eqb x y); split; congruence.
Qed.

Lemma in_range_length (s : Shape) : forall i, in_range s i -> length i = length s.
Proof.
  induction s as [|d s IH]; intros [|x i]; simpl; try tauto.
  intros [_ H]. f_equal. apply IH, H.
Qed.

Lemma in_range_app (s : Shape) : forall i d x,
  in_range (s ++ [d]) (i ++ [x]) <-> in_range s i /\ x < d.
Proof.
  induction s as [|e s IH]; intros [|y i] d x; simpl.
  - tauto.
  - destruct i; simpl; tauto.
  - destruct s; simpl; tauto.
  - rewrite IH. tauto.
Qed.

Lemma in_range_snoc_inv (s : Shape) (d : nat) (i : Index) :
  in_range (s ++ [d]) i ->
  i = removelast i ++ [last i 0] /\ in_range s (removelast i) /\ last i 0 < d.
Proof.
  intros H.
  assert (Hne : i <> []).
  { intros ->. apply in_range_length in H. rewrite length_app in H. simpl in H. lia. }
  assert (E : i = removelast i ++ [last i 0]) by (apply app_removelast_last, Hne).
  split; [exact E|]. rewrite E in H. apply in_range_app in H. exact H.
Qed.

Lemma broadcast_rev_same (r : list nat) : broadcast_rev r r = Some r.
Proof.
  induction r as [|a r IH]; simpl; [reflexivity|].
  rewrite Nat.eqb_refl, IH. reflexivity.
Qed.

Lemma broadcast_shape_same (s : Shape) : broadcast_shape s s = Some s.
Proof.
  unfold broadcast_shape. rewrite broadcast_rev_same. simpl.
  rewrite rev_involutive. reflexivity.
Qed.

Lemma broadcast_shape_scalar (s : Shape) : broadcast_shape [] s = Some s.
Proof.
  unfold broadcast_shape. simpl. rewrite rev_involutive. reflexivity.
Qed.

Lemma broadcast_rev_nil_r (r : list nat) : broadcast_rev r [] = Some r.
Proof. destruct r; reflexivity. Qed.

(** A per-channel vector against a tensor with that many channels. *)
Lemma broadcast_shape_channel_r (pre : Shape) (c : nat) :
  broadcast_shape (pre ++ [c]) [c] = Some (pre ++ [c]).
Proof.
  unfold broadcast_shape. rewrite rev_app_distr. simpl.
  rewrite Nat.eqb_refl, broadcast_rev_nil_r. simpl.
  rewrite rev_involutive. reflexivity.
Qed.

Lemma broadcast_shape_channel_l (pre : Shape) (c : nat) :
  broadcast_shape [c] (pre ++ [c]) = Some (pre ++ [c]).
Proof.
  unfold broadcast_shape. rewrite rev_app_distr. simpl.
  rewrite Nat.eqb_refl. simpl. rewrite rev_involutive. reflexivity.
Qed.

Lemma broadcast_rev_prefix (r : list nat) : forall b,
  broadcast_rev r (r ++ [b]) = Some (r ++ [b]).
Proof.
  induction r as [|a r IH]; intros b; simpl; [reflexivity|].
  rewrite Nat.eqb_refl, IH. reflexivity.
Qed.

(** A per-example tensor against a batch of such tensors. *)
Lemma broadcast_shape_batch (b : nat) (e : Shape) :
  broadcast_shape e (b :: e) = Some (b :: e).
Proof.
  unfold broadcast_shape. simpl. rewrite broadcast_rev_prefix. simpl.
  rewrite rev_app_distr, rev_involutive. reflexivity.
Qed.

Lemma zip_with_clamp (s : Shape) : forall i,
  in_range s i -> zip_with (fun d x => if d =? 1 then 0 else x) s i = i.
Proof.
  induction s as [|d s IH]; intros [|x i]; simpl; try tauto.
  intros [Hx Hi]. rewrite IH by exact Hi.
  destruct (Nat.eqb_spec d 1); [f_equal; lia | reflexivity].
Qed.

Lemma broadcast_index_same (s : Shape) (i : Index) :
  in_range s i -> broadcast_index s i = i.
Proof.
  intros H. unfold broadcast_index.
  rewrite (in_range_length _ _ H), Nat.sub_diag. simpl.
  apply zip_with_clamp, H.
Qed.

Lemma skipn_snoc_last {A : Type} (p : list A) (x : A) :
  skipn (length (p ++ [x]) - 1) (p ++ [x]) = [x].
Proof.
  rewrite length_app. simpl.
  replace (length p + 1 - 1) with (length p) by lia.
  rewrite skipn_app, skipn_all, Nat.sub_diag. reflexivity.
Qed.

Lemma broadcast_index_channel (c : nat) (p : Index) (x : nat) :
  x < c -> broadcast_index [c] (p ++ [x]) = [x].
Proof.
  intros H. unfold broadcast_index. simpl length at 2.
  rewrite skipn_snoc_last. simpl.
  destruct (Nat.eqb_spec c 1); [f_equal; lia | reflexivity].
Qed.

(** ** Batch statistics *)

Lemma Qc_of_nat_add (n m : nat) : Qc_of_nat (n + m) = (Qc_of_nat n + Qc_of_nat m)%Qc.
Proof.
  apply Qc_is_canon. unfold Qc_of_nat, Qcplus, Q2Qc. cbn [this].
  rewrite !Qred_correct. rewrite Nat2Z.inj_add, inject_Z_plus. reflexivity.
Qed.

Lemma Qc_of_nat_mul (n m : nat) : Qc_of_nat (n * m) = (Qc_of_nat n * Qc_of_nat m)%Qc.
Proof.
  apply Qc_is_canon. unfold Qc_of_nat, Qcmult, Q2Qc. cbn [this].
  rewrite !Qred_correct. rewrite Nat2Z.inj_mul, inject_Z_mult. reflexivity.
Qed.

Lemma Qc_of_nat_nonzero (n : nat) : n <> 0 -> Qc_of_nat n <> 0%Qc.
Proof.
  intros Hn H. unfold Qc_of_nat in H. apply Q2Qc_eq_iff in H.
  unfold Qeq in H. simpl in H. lia.
Qed.

Lemma sum_n_minus_const (n : nat) (f : nat -> Qc) (k : Qc) :
  sum_n n (fun x => (f x - k)%Qc) = (sum_n n f - Qc_of_nat n * k)%Qc.
Proof.
  induction n as [|n IH]; simpl.
  - change (Qc_of_nat 0) with 0%Qc. ring.
  - rewrite IH. replace (S n) with (n + 1) by lia. rewrite Qc_of_nat_add.
    change (Qc_of_nat 1) with 1%Qc. ring.
Qed.

Lemma sum_n_scale (n : nat) (f : nat -> Qc) (k : Qc) :
  sum_n n (fun x => (f x * k)%Qc) = (sum_n n f * k)%Qc.
Proof.
  induction n as [|n IH]; simpl; [ring|]. rewrite IH. ring.
Qed.

Lemma sum_index_minus_const (dims : Shape) : forall (f : Index -> Qc) (k : Qc),
  sum_index dims (fun p => (f p - k)%Qc)
  = (sum_index dims f - Qc_of_nat (prod_list dims) * k)%Qc.
Proof.
  induction dims as [|d ds IH]; intros f k; simpl.
  - change (Qc_of_nat 1) with 1%Qc. ring.
  - rewrite (sum_n_ext d _ (fun x => (sum_index ds (fun r => f (x :: r))
                                      - Qc_of_nat (prod_list ds) * k)%Qc))
      by (intros x _; apply IH).
    rewrite sum_n_minus_const, Qc_of_nat_mul. ring.
Qed.

Lemma sum_index_scale (dims : Shape) : forall (f : Index -> Qc) (k : Qc),
  sum_index dims (fun p => (f p * k)%Qc) = (sum_index dims f * k)%Qc.
Proof.
  induction dims as [|d ds IH]; intros f k; simpl; [reflexivity|].
  rewrite (sum_n_ext d _ (fun x => (sum_index ds (fun r => f (x :: r)) * k)%Qc))
    by (intros x _; apply IH).
  apply sum_n_scale.
Qed.

Lemma sum_index_ext (dims : Shape) : forall (f g : Index -> Qc),
  (forall p, f p = g p) -> sum_index dims f = sum_index dims g.
Proof.
  induction dims as [|d ds IH]; intros f g H; simpl; [apply H|].
  apply sum_n_ext. intros x _. apply IH. intros r. apply H.
Qed.

(** Normalised with the statistics of a batch that is not empty, the
    entries of a channel sum to zero, whatever the divisor. *)
Lemma batch_normalized_zero_mean (x : Tensor Qc) (q : Shape) (c j : nat) (k : Qc) :
  shape x = q ++ [c] -> prod_list q <> 0 ->
  sum_index q (fun p => ((elem x (p ++ [j]) - fst (tf.moments_last x) j) / k)%Qc) = 0%Qc.
Proof.
  intros Hx Hq. unfold tf.moments_last. rewrite Hx, removelast_last. cbn [fst].
  unfold Qcdiv at 1.
  rewrite (sum_index_scale q (fun p => (elem x (p ++ [j]) - _)%Qc)).
  rewrite sum_index_minus_const.
  pose proof (Qc_of_nat_nonzero _ Hq) as Hn.
  match goal with
  | |- (?a * ?b)%Qc = _ => replace a with 0%Qc; [ring | symmetry; field; exact Hn]
  end.
Qed.

(** * The layers' calls succeed on inputs they are ready for *)

Ltac inv H := inversion H; subst; clear H.

Ltac red_bind := cbn [bind shape elem tf.sigmoid tf.unary].

Lemma bind_Ok {A B : Type} (c : result A) (k : A -> result B) (v : B) :
  bind c k = Ok v -> exists a, c = Ok a /\ k a = Ok v.
Proof.
  destruct c as [a|e]; simpl; [eauto | discriminate].
Qed.

Tactic Notation "bind_inv" hyp(H) "as" ident(a) ident(E) :=
  apply bind_Ok in H; destruct H as (a & E & H).

Lemma PReLU_call_ok (l : PReLU.t) (x : Tensor Qc) (b : nat) (e : Shape) :
  shape x = b :: e ->
  PReLU.ready e l ->
  exists l' out,
    PReLU.__call__ l x = Ok (l', out) /\ shape out = b :: e /\ PReLU.ready e l'.
Proof.
  intros Hx Hr. unfold PReLU.__call__.
  assert (Hcall : forall l0 a, PReLU.alpha l0 = Some a -> shape a = e ->
            exists out, PReLU.call l0 x = Ok out /\ shape out = b :: e).
  { intros l0 a Ha Hs. unfold PReLU.call. rewrite Ha, Hx, Hs. cbn [length].
    rewrite Nat.eqb_refl.
    unfold tf.multiply, tf.binary. simpl. rewrite Hs, Hx, broadcast_shape_batch.
    simpl. unfold tf.add, tf.binary. simpl. rewrite Hx, broadcast_shape_same.
    eexists. split; reflexivity. }
  destruct (PReLU.built l) eqn:Hb.
  - destruct (Hr Hb) as (a & Ha & Hs).
    destruct (Hcall l a Ha Hs) as (out & Hc & Ho).
    simpl. rewrite Hc. simpl. exists l, out. repeat split; assumption.
  - simpl.
    destruct (Hcall (PReLU.mk (Some (weight (PReLU.weights l) "alpha" (tl (shape x))))
                              true (PReLU.weights l))
                    (weight (PReLU.weights l) "alpha" (tl (shape x))) eq_refl)
      as (out & Hc & Ho).
    { rewrite Hx. reflexivity. }
    rewrite Hc. simpl. do 2 eexists. split; [reflexivity|]. split; [exact Ho|].
    intros _. eexists. split; [reflexivity|]. simpl. rewrite Hx. reflexivity.
Qed.

Lemma binary_same (f : Qc -> Qc -> Qc) (a b : Tensor Qc) (s : Shape) :
  shape a = s -> shape b = s ->
  tf.binary f a b =
  Ok (mkTensor s (fun i => f (elem a (broadcast_index s i)) (elem b (broadcast_index s i)))).
Proof.
  intros Ha Hb. unfold tf.binary. rewrite Ha, Hb, broadcast_shape_same. reflexivity.
Qed.

Lemma binary_scalar_l (f : Qc -> Qc -> Qc) (k : Qc) (b : Tensor Qc) :
  tf.binary f (tf.constant k) b =
  Ok (mkTensor (shape b) (fun i => f k (elem b (broadcast_index (shape b) i)))).
Proof.
  unfold tf.binary, tf.constant. cbn [shape elem].
  rewrite broadcast_shape_scalar. reflexivity.
Qed.

Lemma binary_channel_l (f : Qc -> Qc -> Qc) (a b : Tensor Qc) (q : Shape) (c : nat) :
  shape a = [c] -> shape b = q ++ [c] ->
  tf.binary f a b =
  Ok (mkTensor (q ++ [c])
        (fun i => f (elem a (broadcast_index [c] i)) (elem b (broadcast_index (q ++ [c]) i)))).
Proof.
  intros Ha Hb. unfold tf.binary. rewrite Ha, Hb, broadcast_shape_channel_l. reflexivity.
Qed.

Lemma binary_channel_r (f : Qc -> Qc -> Qc) (a b : Tensor Qc) (q : Shape) (c : nat) :
  shape a = q ++ [c] -> shape b = [c] ->
  tf.binary f a b =
  Ok (mkTensor (q ++ [c])
        (fun i => f (elem a (broadcast_index (q ++ [c]) i)) (elem b (broadcast_index [c] i)))).
Proof.
  intros Ha Hb. unfold tf.binary. rewrite Ha, Hb, broadcast_shape_channel_r. reflexivity.
Qed.

Lemma BatchNormalization_call_plain {F : FloatOps} (training : bool)
      (l : BatchNormalization.t) (x : Tensor Qc) (q : Shape) (c : nat) :
  shape x = q ++ [c] ->
  BatchNormalization.ready c l ->
  BatchNormalization.plain l ->
  exists lb mm mv l' out,
    built_for l x = Ok lb /\
    BatchNormalization.moving_mean lb = Some mm /\
    BatchNormalization.moving_variance lb = Some mv /\
    BatchNormalization.epsilon lb = BatchNormalization.epsilon l /\
    BatchNormalization.__call__ training l x = Ok (l', out) /\
    shape out = shape x /\
    BatchNormalization.ready c l' /\ BatchNormalization.plain l' /\
    forall i,
      elem out i =
      let (mean, var) := BatchNormalization.statistics training mm mv x in
      ((elem x i - mean (last i 0%nat)) / sqrt (var (last i 0%nat) + BatchNormalization.epsilon l))%Qc.
Proof.
  intros Hx Hr (Hc & Hsc & Hg & Hbt).
  assert (Hlast : last (shape x) 0 = c) by (rewrite Hx; apply last_last).
  assert (Hrev : rev (shape x) = c :: rev q) by (rewrite Hx; apply rev_unit).
  unfold BatchNormalization.__call__, built_for.
  destruct (BatchNormalization.built l) eqn:Hb.
  - destruct (Hr Hb) as (mm & mv & Hmm & Hmv & Hs).
    exists l, mm, mv. simpl. unfold BatchNormalization.call.
    rewrite Hmm, Hmv, Hs, Hlast.
    destruct (shape_eq_dec [c] [c]) as [_|n]; [|congruence].
    destruct (BatchNormalization.statistics training mm mv x) as [mean var] eqn:Hst.
    do 2 eexists. do 6 (split; [reflexivity|]).
    split; [|split].
    + destruct training; [|exact Hr]. intros _. do 2 eexists.
      split; [reflexivity|]. split; reflexivity.
    + destruct training; unfold BatchNormalization.plain; simpl; auto.
    + intros i. simpl. unfold BatchNormalization.normalize. rewrite Hg, Hbt. reflexivity.
  - unfold BatchNormalization.build. rewrite Hrev, Hsc, Hc. simpl.
    do 3 eexists. unfold BatchNormalization.call. simpl. rewrite Hlast.
    destruct (shape_eq_dec [c] [c]) as [_|n]; [|congruence].
    destruct (BatchNormalization.statistics training _ _ x) as [mean var] eqn:Hst.
    do 2 eexists. do 6 (split; [reflexivity|]).
    split; [|split].
    + destruct training; intros _; do 2 eexists;
        (split; [reflexivity|]); split; reflexivity.
    + destruct training; unfold BatchNormalization.plain; simpl; auto.
    + intros i. simpl. rewrite Hst. reflexivity.
Qed.

(** What a Dice layer computes, on any input with [c] channels. *)
Lemma Dice_call_spec {F : FloatOps} (training : bool) (d : Dice.t)
      (x : Tensor Qc) (q : Shape) (c : nat) :
  shape x = q ++ [c] ->
  Dice.ready c d ->
  exists d' out a lb mm mv,
    Dice.__call__ training d x = Ok (d', out) /\
    Dice.alpha d' = Some a /\ shape a = [c] /\
    built_for (Dice.bn d) x = Ok lb /\
    BatchNormalization.moving_mean lb = Some mm /\
    BatchNormalization.moving_variance lb = Some mv /\
    shape out = shape x /\
    Dice.ready c d' /\
    forall i, in_range (shape x) i ->
      elem out i =
      let (mean, var) := BatchNormalization.statistics training mm mv x in
      Dice_formula a mean var (BatchNormalization.epsilon (Dice.bn d)) x i.
Proof.
  intros Hx (Hrb & Hp & Hra).
  assert (Hrev : rev (shape x) = c :: rev q) by (rewrite Hx; apply rev_unit).
  assert (Hcall : forall d0 a, Dice.bn d0 = Dice.bn d -> Dice.alpha d0 = Some a ->
            shape a = [c] -> Dice.built d0 = true ->
            exists d' out lb mm mv,
              Dice.call training d0 x = Ok (d', out) /\
              Dice.alpha d' = Some a /\
              built_for (Dice.bn d) x = Ok lb /\
              BatchNormalization.moving_mean lb = Some mm /\
              BatchNormalization.moving_variance lb = Some mv /\
              shape out = shape x /\
              Dice.ready c d' /\
              forall i, in_range (shape x) i ->
                elem out i =
                let (mean, var) := BatchNormalization.statistics training mm mv x in
                Dice_formula a mean var (BatchNormalization.epsilon (Dice.bn d)) x i).
  { intros d0 a Hbn Ha Hsa Hbuilt.
    destruct (BatchNormalization_call_plain training _ x q c Hx Hrb Hp)
      as (lb & mm & mv & bn' & xn & Hlb & Hmm & Hmv & _ & Hc & Hsn & Hr' & Hp' & He).
    exists (Dice.mk bn' (Dice.alpha d0) (Dice.built d0) (Dice.weights d0)).
    unfold Dice.call. rewrite Hbn, Hc. red_bind. rewrite Ha.
    unfold tf.subtract, tf.multiply, tf.add.
    rewrite binary_scalar_l. red_bind.
    rewrite (binary_channel_l _ a _ q c Hsa) by (red_bind; rewrite Hsn; exact Hx). red_bind.
    rewrite (binary_same _ _ x (q ++ [c])) by (try reflexivity; exact Hx). red_bind.
    rewrite (binary_same _ _ x (q ++ [c])) by (red_bind; try rewrite Hsn; exact Hx). red_bind.
    rewrite (binary_same _ _ _ (q ++ [c])) by reflexivity. red_bind.
    eexists. exists lb, mm, mv. split; [reflexivity|]. simpl.
    split; [reflexivity|]. do 3 (split; [assumption|]). split; [symmetry; exact Hx|].
    split.
    - split; [exact Hr'|]. split; [exact Hp'|].
      intros _. exists a. split; [reflexivity|exact Hsa].
    - intros i Hi. rewrite Hx in Hi.
      destruct (in_range_snoc_inv _ _ _ Hi) as (Ei & Hpre & Hj).
      assert (Hsame : broadcast_index (q ++ [c]) i = i)
        by (apply broadcast_index_same; exact Hi).
      assert (Hch : broadcast_index [c] i = [last i 0]).
      { rewrite Ei at 1. apply broadcast_index_channel, Hj. }
      rewrite Hsn, Hx, !Hsame, Hch. rewrite !He.
      destruct (BatchNormalization.statistics training mm mv x) as [mean var].
      unfold Dice_formula, Dice_gate, tf.sigmoid. simpl. reflexivity. }
  unfold Dice.__call__. destruct (Dice.built d) eqn:Hb.
  - destruct (Hra eq_refl) as (a & Ha & Hsa). red_bind.
    destruct (Hcall d a eq_refl Ha Hsa Hb)
      as (d' & out & lb & mm & mv & H1 & H2 & H3 & H4 & H5 & H6 & H7 & H9).
    exists d', out, a, lb, mm, mv. repeat (split; [assumption|]). exact H9.
  - unfold Dice.build. rewrite Hrev. simpl.
    destruct (Hcall (Dice.mk (Dice.bn d) (Some (weight (Dice.weights d) "alpha" [c]))
                             true (Dice.weights d))
                    (weight (Dice.weights d) "alpha" [c]) eq_refl eq_refl eq_refl eq_refl)
      as (d' & out & lb & mm & mv & H1 & H2 & H3 & H4 & H5 & H6 & H7 & H9).
    exists d', out, (weight (Dice.weights d) "alpha" [c]), lb, mm, mv.
    split; [exact H1|]. split; [exact H2|]. split; [reflexivity|].
    repeat (split; [assumption|]). exact H9.
Qed.

Lemma activate_ok {F : FloatOps} (training : bool) (a : Activation)
      (x : Tensor Qc) (b : nat) (p : Shape) (u : nat) :
  shape x = b :: p ++ [u] ->
  Dense.activation_ready (p ++ [u]) a ->
  exists a' out,
    Dense.activate training a x = Ok (a', out) /\
    shape out = b :: p ++ [u] /\
    Dense.activation_ready (p ++ [u]) a'.
Proof.
  intros Hx Hr. destruct a as [| |l|d]; simpl.
  - exists act_linear, x. auto.
  - exists act_sigmoid, (tf.sigmoid x). auto.
  - destruct (PReLU_call_ok l x b (p ++ [u]) Hx Hr) as (l' & out & Hc & Ho & Hr').
    rewrite Hc. simpl. exists (act_PReLU l'), out. auto.
  - simpl in Hr. rewrite last_last in Hr.
    destruct (Dice_call_spec training d x (b :: p) u Hx Hr)
      as (d' & out & a & lb & mm & mv & Hc & _ & _ & _ & _ & _ & Ho & Hr' & _).
    rewrite Hc. simpl. exists (act_Dice d'), out.
    split; [reflexivity|]. split; [rewrite Ho; exact Hx|].
    simpl. rewrite last_last. exact Hr'.
Qed.

Lemma rev_cons_nonempty (b : nat) (p : list nat) :
  exists y ys, rev (b :: p) = y :: ys.
Proof.
  simpl. destruct (rev p) as [|y ys]; simpl; eauto.
Qed.

Lemma tensordot_last_ok (x k : Tensor Qc) (q : Shape) (c u : nat) :
  shape x = q ++ [c] -> shape k = [c; u] ->
  exists out, tf.tensordot_last x k = Ok out /\ shape out = q ++ [u].
Proof.
  intros Hx Hk. unfold tf.tensordot_last.
  rewrite Hx, rev_unit, Hk, Nat.eqb_refl.
  eexists. split; [reflexivity|]. simpl. rewrite rev_involutive. reflexivity.
Qed.

Lemma Dense_call_ok {F : FloatOps} (training : bool) (l : Dense.t)
      (x : Tensor Qc) (b : nat) (p : Shape) (c : nat) :
  shape x = b :: p ++ [c] ->
  Dense.ready (p ++ [c]) l ->
  exists l' out,
    Dense.__call__ training l x = Ok (l', out) /\
    shape out = b :: p ++ [Dense.units l] /\
    Dense.ready (p ++ [c]) l' /\
    Dense.units l' = Dense.units l.
Proof.
  intros Hx [Hrw Hra].
  rewrite removelast_last in Hra. rewrite last_last in Hrw.
  assert (Hcall : forall l0 k bi,
            Dense.kernel l0 = Some k -> Dense.bias l0 = Some bi ->
            shape k = [c; Dense.units l] -> shape bi = [Dense.units l] ->
            Dense.units l0 = Dense.units l -> Dense.activation l0 = Dense.activation l ->
            Dense.built l0 = true ->
            exists l' out,
              Dense.call training l0 x = Ok (l', out) /\
              shape out = b :: p ++ [Dense.units l] /\
              Dense.ready (p ++ [c]) l' /\
              Dense.units l' = Dense.units l).
  { intros l0 k bi Hk Hb Hsk Hsb Hu Hact Hbuilt.
    unfold Dense.call. rewrite Hk, Hb.
    destruct (tensordot_last_ok x k (b :: p) c (Dense.units l) Hx Hsk) as (o1 & Ho1 & Hs1).
    rewrite Ho1. red_bind. unfold tf.add.
    rewrite (binary_channel_r _ o1 bi (b :: p) (Dense.units l) Hs1 Hsb). red_bind.
    rewrite Hact.
    match goal with
    | |- context [Dense.activate training _ ?t] =>
        destruct (activate_ok training (Dense.activation l) t b p (Dense.units l) eq_refl Hra)
          as (a' & out & Hc & Ho & Hr')
    end.
    rewrite Hc. red_bind.
    do 2 eexists. split; [reflexivity|]. split; [exact Ho|]. split; [|exact Hu].
    split; cbn [Dense.built Dense.kernel Dense.bias Dense.units Dense.activation].
    - intros _. exists k, bi. rewrite last_last, Hu. auto.
    - rewrite removelast_last, Hu. exact Hr'. }
  unfold Dense.__call__. destruct (Dense.built l) eqn:Hb.
  - destruct (Hrw eq_refl) as (k & bi & Hk & Hbi & Hsk & Hsb). red_bind.
    apply (Hcall l k bi); auto.
  - unfold Dense.build.
    destruct (rev_cons_nonempty b p) as (y & ys & Hrev).
    replace (rev (shape x)) with (c :: y :: ys)
      by (rewrite Hx; change (b :: p ++ [c]) with ((b :: p) ++ [c]);
          rewrite rev_unit, Hrev; reflexivity).
    red_bind. eapply Hcall; reflexivity.
Qed.

Lemma dnn_out_snoc (dnn : list Dense.t) : forall (p : Shape) (c : nat),
  LocalActivationUnit.dnn_out (p ++ [c]) dnn = p ++ [last (c :: map Dense.units dnn) 0].
Proof.
  induction dnn as [|fc rest IH]; intros p c; [reflexivity|].
  cbn [LocalActivationUnit.dnn_out]. rewrite removelast_last, IH. reflexivity.
Qed.

Lemma run_dnn_ok {F : FloatOps} (training : bool) (dnn : list Dense.t) :
  forall (x : Tensor Qc) (b : nat) (p : Shape) (c : nat),
    shape x = b :: p ++ [c] ->
    LocalActivationUnit.dnn_ready (p ++ [c]) dnn ->
    exists dnn' out,
      LocalActivationUnit.run_dnn training dnn x = Ok (dnn', out) /\
      shape out = b :: LocalActivationUnit.dnn_out (p ++ [c]) dnn /\
      LocalActivationUnit.dnn_ready (p ++ [c]) dnn' /\
      map Dense.units dnn' = map Dense.units dnn.
Proof.
  induction dnn as [|fc rest IH]; intros x b p c Hx Hr; simpl.
  - exists [], x. simpl. auto.
  - destruct Hr as [Hfc Hrest]. rewrite removelast_last in Hrest.
    destruct (Dense_call_ok training fc x b p c Hx Hfc) as (fc' & o1 & Hc & Ho & Hr' & Hu).
    rewrite Hc. red_bind.
    destruct (IH o1 b p (Dense.units fc) Ho Hrest) as (rest' & out & Hc2 & Ho2 & Hr2 & Hu2).
    rewrite Hc2. red_bind. exists (fc' :: rest'), out.
    split; [reflexivity|]. rewrite removelast_last.
    split; [exact Ho2|]. split.
    + simpl. split; [exact Hr'|]. rewrite removelast_last, Hu. exact Hr2.
    + simpl. rewrite Hu, Hu2. reflexivity.
Qed.

Lemma broadcast_index_3 (B L D b i j : nat) :
  b < B -> i < L -> j < D -> broadcast_index [B; L; D] [b; i; j] = [b; i; j].
Proof.
  intros. apply broadcast_index_same. simpl. auto.
Qed.

Lemma att_input_ok (query keys : Tensor Qc) (B L D : nat) :
  shape query = [B; 1; D] -> shape keys = [B; L; D] ->
  exists ai,
    LocalActivationUnit.att_input query keys = Ok ai /\
    shape ai = [B; L; 4 * D] /\
    forall b i j, b < B -> i < L -> j < 4 * D ->
      elem ai [b; i; j] = att_input_entry D query keys b i j.
Proof.
  intros Hq Hk. unfold LocalActivationUnit.att_input. rewrite Hk. cbn [nth_error bind].
  unfold tf.tile. rewrite Hq. cbn [length Nat.eqb bind zip_with].
  rewrite Nat.mul_1_r, Nat.mul_1_l, Nat.mul_1_r.
  unfold tf.subtract, tf.multiply.
  rewrite (binary_same _ _ keys [B; L; D]) by (try reflexivity; exact Hk). red_bind.
  rewrite (binary_same _ _ keys [B; L; D]) by (try reflexivity; exact Hk). red_bind.
  unfold tf.concat. cbn [shape length bind forallb remove_nth].
  change (norm_axis 3 (-1)) with (@Ok nat 2). cbn [bind remove_nth].
  rewrite Hk. cbn [remove_nth length Nat.eqb].
  destruct (shape_eq_dec [B; L] [B; L]) as [_|n]; [|congruence].
  cbn [andb]. eexists. split; [reflexivity|]. cbn [shape set_nth map nth].
  split; [rewrite Hk; reflexivity|].
  intros b i j Hb Hi Hj. cbn [elem nth tf.concat_elem shape set_nth].
  rewrite ?Hk. cbn [nth]. unfold att_input_entry.
  assert (Hb' : b mod B = b) by (apply Nat.mod_small; lia).
  assert (Hi' : i mod 1 = 0) by (apply Nat.mod_1_r).
  destruct (Nat.ltb_spec j D) as [H1|H1].
  { cbn [zip_with]. rewrite Hb', Hi', Nat.mod_small by lia. reflexivity. }
  destruct (Nat.ltb_spec (j - D) D) as [H2|H2]; [reflexivity|].
  destruct (Nat.ltb_spec (j - D - D) D) as [H3|H3].
  { rewrite broadcast_index_3 by lia. cbn [zip_with].
    rewrite Hb', Hi', Nat.mod_small by lia. reflexivity. }
  assert (H4 : j - D - D - D < D) by lia.
  apply Nat.ltb_lt in H4. rewrite H4.
  apply Nat.ltb_lt in H4.
  rewrite broadcast_index_3 by lia. cbn [zip_with].
  rewrite Hb', Hi', Nat.mod_small by lia. reflexivity.
Qed.

(** The scores are the final projection, one per position. *)
Lemma LocalActivationUnit_call_spec {F : FloatOps} (training : bool)
      (self : LocalActivationUnit.t) (query keys : Tensor Qc) (B L D : nat) :
  shape query = [B; 1; D] -> shape keys = [B; L; D] ->
  LocalActivationUnit.ready [L; 4 * D] self ->
  exists self' ai h o out,
    LocalActivationUnit.att_input query keys = Ok ai /\
    LocalActivationUnit.run_dnn training (LocalActivationUnit.dnn self) ai
      = Ok (LocalActivationUnit.dnn self', h) /\
    shape h = [B; L; last (4 * D :: map Dense.units (LocalActivationUnit.dnn self)) 0] /\
    Dense.__call__ training (LocalActivationUnit.linear self) h
      = Ok (LocalActivationUnit.linear self', o) /\
    shape o = [B; L; 1] /\
    LocalActivationUnit.call training self (query, keys) = Ok (self', out) /\
    shape out = [B; L] /\
    (forall b i, elem out [b; i] = elem o [b; i; 0]) /\
    LocalActivationUnit.ready [L; 4 * D] self' /\
    LocalActivationUnit.hidden_units self' = LocalActivationUnit.hidden_units self.
Proof.
  intros Hq Hk (Hdnn & Hlin & Hone).
  unfold LocalActivationUnit.call.
  destruct (att_input_ok query keys B L D Hq Hk) as (ai & Hai & Hsai & _).
  rewrite Hai. red_bind.
  change [L; 4 * D] with ([L] ++ [4 * D]) in *.
  destruct (run_dnn_ok training (LocalActivationUnit.dnn self) ai B [L] (4 * D) Hsai Hdnn)
    as (dnn' & o1 & Hrun & Ho1 & Hdnn' & Hunits).
  rewrite Hrun. red_bind.
  rewrite dnn_out_snoc in Ho1, Hlin.
  destruct (Dense_call_ok training (LocalActivationUnit.linear self) o1 B [L] _ Ho1 Hlin)
    as (lin' & o2 & Hcl & Ho2 & Hlin' & Hu').
  rewrite Hcl. red_bind. rewrite Hone in Ho2.
  unfold tf.squeeze. rewrite Ho2. cbn [length app].
  change (norm_axis 3 (-1)) with (@Ok nat 2). cbn [bind nth Nat.eqb remove_nth].
  exists (LocalActivationUnit.mk (LocalActivationUnit.hidden_units self) lin' dnn'), ai, o1, o2.
  eexists. cbn [LocalActivationUnit.dnn LocalActivationUnit.linear].
  do 7 (split; [first [reflexivity | assumption]|]).
  split; [reflexivity|]. split; [|reflexivity].
  split; [exact Hdnn'|]. cbn [LocalActivationUnit.dnn LocalActivationUnit.linear].
  split; [|congruence].
  change [L; 4 * D] with ([L] ++ [4 * D]).
  rewrite dnn_out_snoc, Hunits. exact Hlin'.
Qed.

Lemma LocalActivationUnit_call_ok {F : FloatOps} (training : bool)
      (self : LocalActivationUnit.t) (query keys : Tensor Qc) (B L D : nat) :
  shape query = [B; 1; D] -> shape keys = [B; L; D] ->
  LocalActivationUnit.ready [L; 4 * D] self ->
  exists self' out,
    LocalActivationUnit.call training self (query, keys) = Ok (self', out) /\
    shape out = [B; L] /\
    LocalActivationUnit.ready [L; 4 * D] self' /\
    LocalActivationUnit.hidden_units self' = LocalActivationUnit.hidden_units self.
Proof.
  intros Hq Hk Hr.
  destruct (LocalActivationUnit_call_spec training self query keys B L D Hq Hk Hr)
    as (self' & ai & h & o & out & _ & _ & _ & _ & _ & Hc & Hs & _ & Hr' & Hh).
  exists self', out. auto.
Qed.

Lemma key_masks_ok (keys : Tensor Qc) (B L D : nat) :
  shape keys = [B; L; D] -> 0 < D ->
  exists mask,
    AttentionPoolingLayer.key_masks keys = Ok mask /\
    shape mask = [B; L] /\
    forall b i, elem mask [b; i] = negb (Qc_eqb (elem keys [b; i; 0]) 0%Qc).
Proof.
  intros Hk HD. unfold AttentionPoolingLayer.key_masks, tf.getitem.
  rewrite Hk. cbn [nth_error].
  destruct (Nat.ltb_spec 0 D) as [_|H]; [|lia].
  cbn [bind remove_nth]. eexists. split; [reflexivity|].
  split; reflexivity.
Qed.

(** The pooled output is the product of the masked score row by the keys. *)
Lemma AttentionPoolingLayer_call_spec {F : FloatOps} (training : bool)
      (self : AttentionPoolingLayer.t) (queries keys : Tensor Qc) (B L D : nat) :
  shape queries = [B; 1; D] -> shape keys = [B; L; D] -> 0 < D ->
  AttentionPoolingLayer.ready L D self ->
  exists self' lau' score mask masked out,
    AttentionPoolingLayer.key_masks keys = Ok mask /\
    LocalActivationUnit.call training (AttentionPoolingLayer.local_att self) (queries, keys)
      = Ok (lau', score) /\
    shape score = [B; L] /\
    AttentionPoolingLayer.masked_scores mask score = Ok masked /\
    shape masked = [B; L] /\
    (forall b i, b < B -> i < L ->
       elem masked [b; i] = if elem mask [b; i] then elem score [b; i] else 0%Qc) /\
    AttentionPoolingLayer.call training self (queries, keys) = Ok (self', out) /\
    shape out = [B; D] /\
    AttentionPoolingLayer.ready L D self' /\
    forall b j, b < B -> j < D ->
      elem out [b; j] = sum_n L (fun k => (elem masked [b; k] * elem keys [b; k; j])%Qc).
Proof.
  intros Hq Hk HD Hr.
  destruct (key_masks_ok keys B L D Hk HD) as (mask & Hm & Hsm & Hem).
  destruct (LocalActivationUnit_call_ok training _ queries keys B L D Hq Hk Hr)
    as (lau' & score & Hc & Hss & Hr' & _).
  assert (Hms : exists masked,
            AttentionPoolingLayer.masked_scores mask score = Ok masked /\
            shape masked = [B; L] /\
            forall i, elem masked i =
              if elem mask (broadcast_index [B; L] i)
              then elem score (broadcast_index [B; L] i) else 0%Qc).
  { unfold AttentionPoolingLayer.masked_scores, tf.where_, tf.zeros_like.
    cbn [shape]. rewrite Hss, Hsm, !broadcast_shape_same.
    eexists. split; [reflexivity|]. split; reflexivity. }
  destruct Hms as (masked & Hmasked & Hsmasked & Hemasked).
  exists (AttentionPoolingLayer.mk (AttentionPoolingLayer.att_hidden_units self) lau'),
         lau', score, mask, masked.
  unfold AttentionPoolingLayer.call. rewrite Hm. red_bind.
  rewrite Hc. red_bind. rewrite Hmasked. red_bind.
  unfold tf.expand_dims. rewrite Hsmasked. cbn [length].
  change (norm_axis 3 1) with (@Ok nat 1). cbn [bind insert_nth].
  unfold tf.matmul. cbn [shape]. rewrite Hk. cbn [rev app].
  destruct (shape_eq_dec [B] [B]) as [_|n]; [|congruence].
  rewrite Nat.eqb_refl. cbn [bind rev app].
  unfold tf.squeeze. cbn [shape length].
  change (norm_axis 3 1) with (@Ok nat 1). cbn [bind nth Nat.eqb remove_nth].
  eexists. do 5 (split; [first [reflexivity | assumption]|]).
  split.
  { intros b i Hb Hi. rewrite Hemasked.
    rewrite broadcast_index_same by (simpl; auto). reflexivity. }
  split; [reflexivity|]. split; [reflexivity|]. split; [exact Hr'|].
  intros b j Hb Hj. cbn [elem insert_nth length Nat.sub firstn nth app remove_nth].
  reflexivity.
Qed.

(** ** Layers fresh from [__init__] are ready for any input *)

Lemma Dense_fresh_ready (e : Shape) (units : nat) (prelu : bool) (w : Weights) :
  Dense.ready e
    (Dense.__init__ units
       (if prelu then act_PReLU (PReLU.__init__ w) else act_Dice (Dice.__init__ w)) w).
Proof.
  split; [discriminate|]. destruct prelu; simpl.
  - discriminate.
  - split; [discriminate|]. split; [|discriminate].
    repeat split.
Qed.

Lemma dnn_fresh_ready (prelu : bool) (w : nat -> Weights) (hidden_units : list nat) :
  forall (start : nat) (e : Shape),
    LocalActivationUnit.dnn_ready e
      (map (fun ku : nat * nat =>
              let (k, unit) := ku in
              Dense.__init__ unit
                (if prelu then act_PReLU (PReLU.__init__ (w k))
                 else act_Dice (Dice.__init__ (w k)))
                (w k))
           (combine (seq start (length hidden_units)) hidden_units)).
Proof.
  induction hidden_units as [|u r IH]; intros start e; simpl; [exact I|].
  split; [apply Dense_fresh_ready | apply IH].
Qed.

Lemma LocalActivationUnit_fresh_ready (e : Shape) (hidden_units : list nat)
      (activation : string) (w : nat -> Weights) :
  LocalActivationUnit.ready e (LocalActivationUnit.__init__ hidden_units activation w).
Proof.
  unfold LocalActivationUnit.ready, LocalActivationUnit.__init__.
  cbn [LocalActivationUnit.dnn LocalActivationUnit.linear].
  split; [apply dnn_fresh_ready|]. split; [|reflexivity].
  split; [discriminate | exact I].
Qed.

Lemma AttentionPoolingLayer_fresh_ready (L D : nat) (att_hidden_units : list nat)
      (w : nat -> Weights) :
  AttentionPoolingLayer.ready L D (AttentionPoolingLayer.__init__ att_hidden_units w).
Proof.
  apply LocalActivationUnit_fresh_ready.
Qed.

(** * AttentionPoolingLayer: mask, masked scores, pooled output *)

Section Pooling.

Context {F : FloatOps}.

Variable training : bool.
Variable self : AttentionPoolingLayer.t.
Variables queries keys : Tensor Qc.
Variables B L D : nat.

(** One candidate embedding and [L] history embeddings of width [D] for
    each of the [B] examples. *)
Hypothesis queries_shape : shape queries = [B; 1; D].
Hypothesis keys_shape : shape keys = [B; L; D].
Hypothesis width_positive : 0 < D.
Hypothesis self_ready : AttentionPoolingLayer.ready L D self.

(** C3: for keys of shape [B x L x D] (one [L x D] history per example),
    the validity mask has one boolean per position, and position [i] is
    valid if and only if the first coordinate of its key embedding is not
    zero. *)
Theorem key_masks_first_coordinate :
  exists mask,
    AttentionPoolingLayer.key_masks keys = Ok mask /\
    shape mask = [B; L] /\
    forall b i, b < B -> i < L ->
      (elem mask [b; i] = true <-> elem keys [b; i; 0] <> 0%Qc).
Proof.
  destruct (key_masks_ok keys B L D keys_shape width_positive) as (mask & Hm & Hs & He).
  exists mask. split; [exact Hm|]. split; [exact Hs|].
  intros b i _ _. rewrite He, negb_true_iff. apply Qc_eqb_neq.
Qed.

(** C1: when every history position is masked (the first coordinate of
    every key embedding is zero), the call succeeds and the pooled output
    is the all-zero vector of width [D], for every example of the batch. *)
Theorem attention_pooling_all_masked_zero :
  (forall b i, b < B -> i < L -> elem keys [b; i; 0] = 0%Qc) ->
  exists self' out,
    AttentionPoolingLayer.call training self (queries, keys) = Ok (self', out) /\
    shape out = [B; D] /\
    forall b j, b < B -> j < D -> elem out [b; j] = 0%Qc.
Proof.
  intros Hmasked.
  destruct (AttentionPoolingLayer_call_spec training self queries keys B L D
              queries_shape keys_shape width_positive self_ready)
    as (self' & lau' & score & mask & masked & out &
        Hm & _ & _ & _ & _ & Hw & Hc & Hs & _ & Ho).
  exists self', out. split; [exact Hc|]. split; [exact Hs|].
  intros b j Hb Hj. rewrite (Ho b j Hb Hj).
  apply sum_n_zero. intros k Hk'.
  rewrite (Hw b k Hb Hk').
  destruct (key_masks_ok keys B L D keys_shape width_positive) as (mask' & Hm' & _ & He).
  rewrite Hm in Hm'. injection Hm' as <-.
  rewrite He, (Hmasked b k Hb Hk'). cbn. ring.
Qed.

(** C2: the scores at masked positions are replaced by 0, the masked
    scores are used as they are (no softmax, no renormalisation) as the
    row of a matrix product with the keys, and so, when exactly one
    position of an example is unmasked, the pooled output is the score at
    that position times the key embedding at that position. *)
Theorem attention_pooling_linear_weights :
  exists self' lau' score mask masked out,
    AttentionPoolingLayer.key_masks keys = Ok mask /\
    LocalActivationUnit.call training (AttentionPoolingLayer.local_att self) (queries, keys)
      = Ok (lau', score) /\
    AttentionPoolingLayer.masked_scores mask score = Ok masked /\
    AttentionPoolingLayer.call training self (queries, keys) = Ok (self', out) /\
    (forall b i, b < B -> i < L ->
       elem masked [b; i] = if elem mask [b; i] then elem score [b; i] else 0%Qc) /\
    (forall b j, b < B -> j < D ->
       elem out [b; j] = sum_n L (fun k => (elem masked [b; k] * elem keys [b; k; j])%Qc)) /\
    (forall b i0, b < B -> i0 < L ->
       elem keys [b; i0; 0] <> 0%Qc ->
       (forall i, i < L -> i <> i0 -> elem keys [b; i; 0] = 0%Qc) ->
       forall j, j < D ->
         elem out [b; j] = (elem score [b; i0] * elem keys [b; i0; j])%Qc).
Proof.
  destruct (AttentionPoolingLayer_call_spec training self queries keys B L D
              queries_shape keys_shape width_positive self_ready)
    as (self' & lau' & score & mask & masked & out &
        Hm & Hl & _ & Hms & _ & Hw & Hc & _ & _ & Ho).
  exists self', lau', score, mask, masked, out.
  do 4 (split; [assumption|]). split; [exact Hw|]. split; [exact Ho|].
  intros b i0 Hb Hi0 Hvalid Hothers j Hj.
  destruct (key_masks_ok keys B L D keys_shape width_positive) as (mask' & Hm' & _ & He).
  rewrite Hm in Hm'. injection Hm' as <-.
  rewrite (Ho b j Hb Hj).
  rewrite (sum_n_single L i0) by
    (try exact Hi0; intros k Hk' Hne;
     rewrite (Hw b k Hb Hk'), He, (Hothers k Hk' Hne); cbn; ring).
  rewrite (Hw b i0 Hb Hi0), He.
  apply Qc_eqb_neq in Hvalid. rewrite Hvalid. reflexivity.
Qed.

End Pooling.

Lemma key_masks_first_coordinate_witness :
  exists mask,
    AttentionPoolingLayer.key_masks sample_keys = Ok mask /\
    shape mask = [1; 2] /\
    forall b i, b < 1 -> i < 2 ->
      (elem mask [b; i] = true <-> elem sample_keys [b; i; 0] <> 0%Qc).
Proof.
  apply (key_masks_first_coordinate sample_keys 1 2 2); [reflexivity | lia].
Defined.

Lemma attention_pooling_all_masked_zero_witness :
  exists self' out,
    @AttentionPoolingLayer.call sample_ops false sample_layer
      (sample_query, sample_padded_keys) = Ok (self', out) /\
    shape out = [1; 2] /\
    forall b j, b < 1 -> j < 2 -> elem out [b; j] = 0%Qc.
Proof.
  apply (@attention_pooling_all_masked_zero sample_ops false sample_layer
           sample_query sample_padded_keys 1 2 2).
  - reflexivity.
  - reflexivity.
  - lia.
  - apply AttentionPoolingLayer_fresh_ready.
  - intros b i Hb Hi.
    destruct b as [|b]; [|lia]. destruct i as [|[|i]]; [reflexivity | reflexivity | lia].
Defined.

Lemma attention_pooling_linear_weights_witness :
  exists score out,
    (exists lau', @LocalActivationUnit.call sample_ops false
                    (AttentionPoolingLayer.local_att sample_layer)
                    (sample_query, sample_keys) = Ok (lau', score)) /\
    (exists self', @AttentionPoolingLayer.call sample_ops false sample_layer
                     (sample_query, sample_keys) = Ok (self', out)) /\
    elem out [0; 1] = Qcmult (elem score [0; 0]) (elem sample_keys [0; 0; 1]).
Proof.
  destruct (@attention_pooling_linear_weights sample_ops false sample_layer
              sample_query sample_keys 1 2 2)
    as (self' & lau' & score & mask & masked & out & _ & Hl & _ & Hc & _ & _ & Hone).
  - reflexivity.
  - reflexivity.
  - lia.
  - apply AttentionPoolingLayer_fresh_ready.
  - exists score, out. split; [exists lau'; exact Hl|]. split; [exists self'; exact Hc|].
    apply (Hone 0 0); try lia.
    + intros H. apply (f_equal this) in H. discriminate H.
    + intros i Hi Hne. destruct i as [|[|i]]; [congruence | reflexivity | lia].
Defined.

(** * LocalActivationUnit *)


(** * Dice *)

Lemma Dice_fresh_ready (c : nat) (w : Weights) : Dice.ready c (Dice.__init__ w).
Proof.
  split; [discriminate|]. split; [|discriminate]. repeat split.
Qed.

Lemma moments_last_batch (x : Tensor Qc) (q : Shape) (c : nat) :
  shape x = q ++ [c] ->
  tf.moments_last x = (batch_mean q x, batch_variance q x).
Proof.
  intros Hx. unfold tf.moments_last. rewrite Hx, removelast_last. reflexivity.
Qed.

(** The alpha that a call of a Dice layer uses: the one of the layer when
    it is built, the one that [build] creates otherwise. *)
Lemma Dice_call_alpha {F : FloatOps} (training : bool) (d d' : Dice.t)
      (x out : Tensor Qc) (q : Shape) (c : nat) :
  shape x = q ++ [c] ->
  Dice.__call__ training d x = Ok (d', out) ->
  Dice.alpha d'
  = if Dice.built d then Dice.alpha d else Some (weight (Dice.weights d) "alpha" [c]).
Proof.
  intros Hx H. unfold Dice.__call__ in H.
  assert (Hcall : forall d0, Dice.call training d0 x = Ok (d', out) ->
                             Dice.alpha d' = Dice.alpha d0).
  { intros d0 H0. unfold Dice.call in H0.
    bind_inv H0 as r Er. destruct r as [bn' xn].
    destruct (Dice.alpha d0) as [a|]; [|discriminate H0].
    bind_inv H0 as t1 E1. bind_inv H0 as t2 E2. bind_inv H0 as t3 E3.
    bind_inv H0 as t4 E4. bind_inv H0 as t5 E5.
    injection H0 as <- _. reflexivity. }
  destruct (Dice.built d).
  - cbn [bind] in H. apply Hcall, H.
  - unfold Dice.build in H. rewrite Hx, rev_unit in H. cbn [bind] in H.
    rewrite (Hcall _ H). reflexivity.
Qed.

(** With the statistics of a batch that is not empty and a divisor that
    is not 0, the mean square of the normalised entries of a channel is
    the variance of the channel over the square of the divisor. *)
Lemma batch_normalized_mean_square (x : Tensor Qc) (q : Shape) (j : nat) (s : Qc) :
  prod_list q <> 0 -> s <> 0%Qc ->
  sum_index q (fun p =>
    (((elem x (p ++ [j]) - batch_mean q x j) / s)
     * ((elem x (p ++ [j]) - batch_mean q x j) / s))%Qc)
  = (Qc_of_nat (prod_list q) * (batch_variance q x j / (s * s)))%Qc.
Proof.
  intros Hq Hs. pose proof (Qc_of_nat_nonzero _ Hq) as Hn.
  rewrite (sum_index_ext q _
             (fun p => ((elem x (p ++ [j]) - batch_mean q x j)
                        * (elem x (p ++ [j]) - batch_mean q x j) * (/ (s * s)))%Qc))
    by (intros p; field; exact Hs).
  rewrite sum_index_scale. unfold batch_variance. field. split; assumption.
Qed.

(** C9: on every input, Dice returns [alpha * (1 - p) * x + p * x], where
    [p] is the logistic function of the input normalised with a mean and a
    variance per channel and no learned shift or scale, and [alpha] has one
    entry per channel of the input's last axis; [alpha] does not exist
    before [build], which creates it from the input's width, and a call
    uses the layer's [alpha] once built.  In training, the mean and the
    variance are those of the batch: the mean of the channel's entries and
    the mean of their squared deviations; the normalised entries of each
    channel then sum to zero, and their mean square is the variance over
    the square of the divisor, the square root of the variance plus
    epsilon: one, up to epsilon.  Otherwise they are the moving ones of
    the layer. *)
Theorem dice_activation {F : FloatOps} (training : bool) (d : Dice.t)
        (x : Tensor Qc) (q : Shape) (c : nat) :
  shape x = q ++ [c] ->
  Dice.ready c d ->
  (exists d' out a lb mm mv,
     Dice.__call__ training d x = Ok (d', out) /\
     Dice.alpha d' = Some a /\ shape a = [c] /\
     built_for (Dice.bn d) x = Ok lb /\
     BatchNormalization.moving_mean lb = Some mm /\
     BatchNormalization.moving_variance lb = Some mv /\
     shape out = shape x /\
     (forall i, in_range (shape x) i ->
        elem out i =
        let (mean, var) := BatchNormalization.statistics training mm mv x in
        Dice_formula a mean var (BatchNormalization.epsilon (Dice.bn d)) x i) /\
     (if Dice.built d then Dice.alpha d = Some a
      else a = weight (Dice.weights d) "alpha" [c]) /\
     (forall i, in_range (shape x) i ->
        elem out i =
        if training then
          Dice_formula a (batch_mean q x) (batch_variance q x)
            (BatchNormalization.epsilon (Dice.bn d)) x i
        else
          Dice_formula a (fun j => elem mm [j]) (fun j => elem mv [j])
            (BatchNormalization.epsilon (Dice.bn d)) x i)) /\
  BatchNormalization.plain (Dice.bn d) /\
  (forall w, Dice.alpha (Dice.__init__ w) = None /\
             Dice.built (Dice.__init__ w) = false /\
             BatchNormalization.center (Dice.bn (Dice.__init__ w)) = false /\
             BatchNormalization.scale (Dice.bn (Dice.__init__ w)) = false) /\
  (forall d0, Dice.build d0 (shape x) =
              Ok (Dice.mk (Dice.bn d0) (Some (weight (Dice.weights d0) "alpha" [c]))
                          true (Dice.weights d0))) /\
  (forall mm mv j,
     prod_list q <> 0 ->
     let (mean, var) := BatchNormalization.statistics true mm mv x in
     sum_index q (fun p =>
       ((elem x (p ++ [j]) - mean j)
        / sqrt (var j + BatchNormalization.epsilon (Dice.bn d)))%Qc) = 0%Qc) /\
  (forall j,
     prod_list q <> 0 ->
     let s := sqrt (batch_variance q x j + BatchNormalization.epsilon (Dice.bn d))%Qc in
     s <> 0%Qc ->
     sum_index q (fun p =>
       (((elem x (p ++ [j]) - batch_mean q x j) / s)
        * ((elem x (p ++ [j]) - batch_mean q x j) / s))%Qc)
     = (Qc_of_nat (prod_list q) * (batch_variance q x j / (s * s)))%Qc).
Proof.
  intros Hx Hr. split; [|split; [|split; [|split; [|split]]]].
  - destruct (Dice_call_spec training d x q c Hx Hr)
      as (d' & out & a & lb & mm & mv & H1 & H2 & H3 & H4 & H5 & H6 & H7 & _ & H9).
    exists d', out, a, lb, mm, mv. do 7 (split; [assumption|]).
    split; [exact H9|]. split.
    + pose proof (Dice_call_alpha training d d' x out q c Hx H1) as Ha.
      rewrite H2 in Ha. destruct (Dice.built d); congruence.
    + intros i Hi. rewrite (H9 i Hi). unfold BatchNormalization.statistics.
      destruct training; [rewrite (moments_last_batch x q c Hx)|]; reflexivity.
  - apply Hr.
  - intros w. repeat split.
  - intros d0. unfold Dice.build. rewrite Hx, rev_unit. reflexivity.
  - intros mm mv j Hq. unfold BatchNormalization.statistics.
    pose proof (batch_normalized_zero_mean x q c j
                  (sqrt (snd (tf.moments_last x) j
                         + BatchNormalization.epsilon (Dice.bn d))) Hx Hq) as H.
    destruct (tf.moments_last x) as [mean var]. exact H.
  - intros j Hq s Hs. apply batch_normalized_mean_square; assumption.
Qed.

Lemma dice_activation_witness :
  exists d' out,
    @Dice.__call__ sample_ops true (Dice.__init__ sample_signed_weights) sample_keys
    = Ok (d', out) /\
    shape out = [1; 2; 2] /\
    Dice.alpha d' = Some (weight sample_signed_weights "alpha" [2]) /\
    this (batch_mean [1; 2] sample_keys 1) = (5 # 2)%Q /\
    this (batch_variance [1; 2] sample_keys 1) = (1 # 4)%Q /\
    this (elem out [0; 0; 1]) = (5753 # 4502)%Q /\
    sum_index [1; 2] (fun p =>
      Qcdiv (Qcminus (elem sample_keys (p ++ [1])) (batch_mean [1; 2] sample_keys 1))
            (@sqrt sample_ops
               (Qcplus (batch_variance [1; 2] sample_keys 1)
                  (BatchNormalization.epsilon
                     (Dice.bn (Dice.__init__ sample_signed_weights)))))) = 0%Qc.
Proof.
  destruct (@dice_activation sample_ops true (Dice.__init__ sample_signed_weights)
              sample_keys [1; 2] 2)
    as ((d' & out & a & lb & mm & mv & Hc & Ha & _ & _ & _ & _ & Hso & _ & Hw & He)
        & _ & _ & _ & Hz & _).
  - reflexivity.
  - apply Dice_fresh_ready.
  - cbn [Dice.built Dice.__init__] in Hw. subst a.
    exists d', out. split; [exact Hc|]. split; [exact Hso|]. split; [exact Ha|].
    split; [vm_compute; reflexivity|]. split; [vm_compute; reflexivity|].
    split.
    + rewrite (He [0; 0; 1]) by (simpl; lia). vm_compute. reflexivity.
    + specialize (Hz (tf.constant 0%Qc) (tf.constant 0%Qc) 1).
      unfold BatchNormalization.statistics in Hz.
      rewrite (moments_last_batch sample_keys [1; 2] 2 eq_refl) in Hz.
      apply Hz. simpl. lia.
Defined.


(** * Dictionaries *)

Lemma get_setitem {V : Type} (d : Dict.t V) (k k' : string) (v : V) :
  Dict.get (Dict.setitem d k v) k' = if String.eqb k' k then Some v else Dict.get d k'.
Proof.
  induction d as [|[k0 v0] r IH]; simpl.
  - reflexivity.
  - destruct (String.eqb_spec k k0) as [->|Hne]; simpl.
    + destruct (String.eqb k' k0); reflexivity.
    + rewrite IH. destruct (String.eqb_spec k' k0) as [->|Hne'].
      * destruct (String.eqb_spec k0 k); [congruence | reflexivity].
      * reflexivity.
Qed.

Lemma build_input_layers_fold (l : list FeatureColumn) :
  build_input_layers l = fold_left input_step l Dict.empty.
Proof. reflexivity. Qed.

Lemma build_embedding_layers_fold (l : list FeatureColumn) (inputs : Dict.t KerasTensor) :
  build_embedding_layers l inputs = fold_left embedding_step l Dict.empty.
Proof. reflexivity. Qed.

Lemma input_step_other (d : Dict.t KerasTensor) (fc : FeatureColumn) (k : string) :
  k <> fc_name fc -> Dict.get (input_step d fc) k = Dict.get d k.
Proof.
  intros Hne. destruct fc; simpl in *; rewrite get_setitem;
    destruct (String.eqb_spec k name); congruence.
Qed.

Lemma embedding_step_other (d : Dict.t Embedding.t) (fc : FeatureColumn) (k : string) :
  k <> fc_name fc -> Dict.get (embedding_step d fc) k = Dict.get d k.
Proof.
  intros Hne. destruct fc; simpl in *; try reflexivity; rewrite get_setitem;
    destruct (String.eqb_spec k name); congruence.
Qed.

Lemma fold_input_step_absent (l : list FeatureColumn) : forall d k,
  ~ In k (map fc_name l) ->
  Dict.get (fold_left input_step l d) k = Dict.get d k.
Proof.
  induction l as [|fc r IH]; intros d k Hk; simpl; [reflexivity|].
  rewrite IH by (intros H; apply Hk; right; exact H).
  apply input_step_other. intros ->. apply Hk. left. reflexivity.
Qed.

Lemma fold_embedding_step_absent (l : list FeatureColumn) : forall d k,
  ~ In k (map fc_name l) ->
  Dict.get (fold_left embedding_step l d) k = Dict.get d k.
Proof.
  induction l as [|fc r IH]; intros d k Hk; simpl; [reflexivity|].
  rewrite IH by (intros H; apply Hk; right; exact H).
  apply embedding_step_other. intros ->. apply Hk. left. reflexivity.
Qed.

Lemma embedding_step_same (d : Dict.t Embedding.t) (fc : FeatureColumn) :
  Dict.get (embedding_step d fc) (fc_name fc) =
  match table_of fc with Some e => Some e | None => Dict.get d (fc_name fc) end.
Proof.
  destruct fc; simpl; try reflexivity; rewrite get_setitem, String.eqb_refl; reflexivity.
Qed.

Lemma fold_embedding_step_present (l : list FeatureColumn) : forall d fc,
  NoDup (map fc_name l) -> In fc l ->
  Dict.get (fold_left embedding_step l d) (fc_name fc) =
  match table_of fc with Some e => Some e | None => Dict.get d (fc_name fc) end.
Proof.
  induction l as [|a r IH]; intros d fc Hnd Hin; [destruct Hin|].
  simpl in Hnd. inv Hnd. simpl. destruct Hin as [->|Hin].
  - rewrite fold_embedding_step_absent by assumption. apply embedding_step_same.
  - rewrite IH by assumption.
    destruct (table_of fc); [reflexivity|].
    apply embedding_step_other. intros E. apply H1. rewrite <- E.
    apply in_map, Hin.
Qed.

(** * The builders *)



(** C8: [concat_input_list] returns [None] on no input, the input itself
    on one input, and the concatenation (on axis 1) of more than one. *)
Theorem concat_input_list_cases :
  concat_input_list [] = Ok None /\
  (forall x, concat_input_list [x] = Ok (Some x)) /\
  (forall x y rest,
     concat_input_list (x :: y :: rest) =
     (c <- call_Concatenate 1 (map Some (x :: y :: rest)) ;; Ok (Some c)) /\
     forall r, concat_input_list (x :: y :: rest) = Ok r ->
               r = Some (KConcatenate 1 (x :: y :: rest))).
Proof.
  split; [reflexivity|]. split; [reflexivity|].
  intros x y rest. split; [reflexivity|].
  intros r. unfold concat_input_list. cbn [length Nat.ltb Nat.leb].
  unfold call_Concatenate.
  assert (Hm : forall l : list KerasTensor,
             mapM (fun o : option KerasTensor =>
                     match o with
                     | Some x0 => Ok x0
                     | None => Raise (ValueError "Concatenate: an input is None")
                     end) (map Some l) = Ok l).
  { induction l as [|a l IH]; simpl; [reflexivity|]. rewrite IH. reflexivity. }
  rewrite Hm. cbn [bind].
  destruct (tf.concat _ _); cbn [bind]; intros H; inv H. reflexivity.
Qed.

Lemma concat_input_list_cases_witness :
  exists r,
    concat_input_list [KInput "a" [2]; KInput "b" [3]] = Ok r /\
    r = Some (KConcatenate 1 [KInput "a" [2]; KInput "b" [3]]).
Proof.
  destruct concat_input_list_cases as (_ & _ & H).
  destruct (H (KInput "a" [2]) (KInput "b" [3]) []) as [_ H'].
  eexists. split; [reflexivity|]. apply H'. reflexivity.
Defined.

(** * The branches before the lookups always build *)

Lemma input_step_keeps (d : Dict.t KerasTensor) (fc : FeatureColumn) (k : string) :
  (exists x, Dict.get d k = Some x) -> exists x, Dict.get (input_step d fc) k = Some x.
Proof.
  intros (x & Hx). destruct fc; simpl; rewrite get_setitem;
    destruct (String.eqb k name); eauto.
Qed.

Lemma input_step_sets (d : Dict.t KerasTensor) (fc : FeatureColumn) :
  exists x, Dict.get (input_step d fc) (fc_name fc) = Some x.
Proof.
  destruct fc; simpl; rewrite get_setitem, String.eqb_refl; eauto.
Qed.

Lemma fold_input_step_keeps (l : list FeatureColumn) : forall d k,
  (exists x, Dict.get d k = Some x) ->
  exists x, Dict.get (fold_left input_step l d) k = Some x.
Proof.
  induction l as [|a r IH]; intros d k H; simpl; [exact H|].
  apply IH, input_step_keeps, H.
Qed.

Lemma build_input_layers_present (fcs : list FeatureColumn) (fc : FeatureColumn) :
  In fc fcs -> exists x, Dict.get (build_input_layers fcs) (fc_name fc) = Some x.
Proof.
  rewrite build_input_layers_fold. generalize (@Dict.empty KerasTensor).
  induction fcs as [|a r IH]; intros d Hin; [destruct Hin|]. simpl.
  destruct Hin as [->|Hin].
  - apply fold_input_step_keeps, input_step_sets.
  - apply IH, Hin.
Qed.

Lemma embedding_step_keeps (d : Dict.t Embedding.t) (fc : FeatureColumn) (k : string) :
  (exists e, Dict.get d k = Some e) -> exists e, Dict.get (embedding_step d fc) k = Some e.
Proof.
  intros (e & He). destruct fc; simpl; eauto; rewrite get_setitem;
    destruct (String.eqb k name); eauto.
Qed.

Lemma fold_embedding_step_keeps (l : list FeatureColumn) : forall d k,
  (exists e, Dict.get d k = Some e) ->
  exists e, Dict.get (fold_left embedding_step l d) k = Some e.
Proof.
  induction l as [|a r IH]; intros d k H; simpl; [exact H|].
  apply IH, embedding_step_keeps, H.
Qed.

Lemma build_embedding_layers_present (fcs : list FeatureColumn)
      (inputs : Dict.t KerasTensor) (fc : FeatureColumn) :
  In fc fcs -> is_SparseFeat fc = true ->
  exists e, Dict.get (build_embedding_layers fcs inputs) (fc_name fc) = Some e.
Proof.
  rewrite build_embedding_layers_fold. generalize (@Dict.empty Embedding.t).
  induction fcs as [|a r IH]; intros d Hin Hsp; [destruct Hin|]. simpl.
  destruct Hin as [->|Hin].
  - apply fold_embedding_step_keeps. destruct fc; try discriminate Hsp.
    simpl. rewrite get_setitem, String.eqb_refl. eauto.
  - apply IH; assumption.
Qed.

(** An input slot has one axis after the batch axis. *)
Lemma build_input_layers_rank (l : list FeatureColumn) (k : string) (x : KerasTensor) :
  Dict.get (build_input_layers l) k = Some x -> exists n, kshape x = [n].
Proof.
  rewrite build_input_layers_fold.
  assert (H : forall d,
             (forall k x, Dict.get d k = Some x -> exists n, kshape x = [n]) ->
             forall k x, Dict.get (fold_left input_step l d) k = Some x ->
                         exists n, kshape x = [n]).
  { induction l as [|fc r IH]; intros d Hd; simpl; [exact Hd|].
    apply IH. intros k0 x0. destruct fc; simpl; rewrite get_setitem;
      destruct (String.eqb k0 name); try apply Hd; intros E; inv E; simpl; eauto. }
  apply H. intros k0 x0 H0. discriminate H0.
Qed.

Lemma mapM_Some (l : list KerasTensor) :
  mapM (fun o : option KerasTensor =>
          match o with
          | Some x => Ok x
          | None => Raise (ValueError "Concatenate: an input is None")
          end) (map Some l) = Ok l.
Proof.
  induction l as [|a l IH]; simpl; [reflexivity|]. rewrite IH. reflexivity.
Qed.

(** Tensors with one axis after the batch axis concatenate on axis 1. *)
Lemma concat_input_list_builds (l : list KerasTensor) :
  Forall (fun t => exists n, kshape t = [n]) l ->
  exists r, concat_input_list l = Ok r.
Proof.
  intros Hl. unfold concat_input_list.
  destruct l as [|x [|y rest]]; cbn [length Nat.ltb Nat.leb Nat.eqb]; eauto.
  unfold call_Concatenate. rewrite mapM_Some. cbn [bind].
  unfold tf.concat. cbn [map]. unfold placeholder at 1. cbn [shape length].
  inv Hl. destruct H1 as (n & Hn). rewrite Hn. cbn [length].
  change (norm_axis 2 1) with (@Ok nat 1). cbn [bind].
  match goal with
  | |- context [forallb ?f ?l] => assert (Hf : forallb f l = true)
  end.
  { apply forallb_forall. intros u Hu.
    change (In u (map (fun t => placeholder (kshape t)) (y :: rest))) in Hu.
    apply in_map_iff in Hu. destruct Hu as (t & <- & Ht).
    rewrite Forall_forall in H2. destruct (H2 t Ht) as (m & Hm).
    unfold placeholder. cbn [shape]. rewrite Hm. cbn [remove_nth length].
    destruct (shape_eq_dec [symbolic_batch] [symbolic_batch]); [reflexivity | congruence]. }
  rewrite Hf. cbn [bind]. eauto.
Qed.

Lemma dense_inputs_build (fcs l : list FeatureColumn) :
  (forall fc, In fc l -> In fc fcs) ->
  exists l0,
    mapM (fun fc => Dict.getitem (build_input_layers fcs) (fc_name fc)) l = Ok l0 /\
    Forall (fun t => exists n, kshape t = [n]) l0.
Proof.
  induction l as [|fc r IH]; intros Hsub; simpl.
  - exists []. split; [reflexivity | constructor].
  - destruct (build_input_layers_present fcs fc (Hsub fc (or_introl eq_refl))) as (x & Hx).
    unfold Dict.getitem at 1. rewrite Hx. cbn [bind].
    destruct (IH (fun f Hf => Hsub f (or_intror Hf))) as (l0 & E & Hl0).
    rewrite E. cbn [bind]. exists (x :: l0). split; [reflexivity|].
    constructor; [|exact Hl0]. eapply build_input_layers_rank, Hx.
Qed.

Lemma sparse_embeddings_build (fcs l : list FeatureColumn) :
  (forall fc, In fc l -> In fc fcs /\ is_SparseFeat fc = true) ->
  exists l0,
    concat_embedding_list l (build_input_layers fcs)
      (build_embedding_layers fcs (build_input_layers fcs)) true = Ok l0 /\
    Forall (fun t => exists n, kshape t = [n]) l0.
Proof.
  unfold concat_embedding_list.
  induction l as [|fc r IH]; intros Hsub; simpl.
  - exists []. split; [reflexivity | constructor].
  - destruct (Hsub fc (or_introl eq_refl)) as [Hin Hsp].
    destruct (build_input_layers_present fcs fc Hin) as (x & Hx).
    destruct (build_embedding_layers_present fcs (build_input_layers fcs) fc Hin Hsp)
      as (e & He).
    unfold Dict.getitem at 1. rewrite Hx. cbn [bind].
    unfold Dict.getitem at 1. rewrite He. cbn [bind call_Embedding call_Flatten].
    destruct (IH (fun f Hf => Hsub f (or_intror Hf))) as (l0 & E & Hl0).
    cbn [bind call_Embedding call_Flatten] in E. rewrite E. cbn [bind].
    eexists. split; [reflexivity|].
    constructor; [|exact Hl0]. simpl. eauto.
Qed.

Lemma embedding_lookup_raises_KeyError (names : list string)
      (inputs : Dict.t KerasTensor) (embs : Dict.t Embedding.t) (e : exn) :
  embedding_lookup names inputs embs = Raise e -> exists k, In k names /\ e = KeyError k.
Proof.
  unfold embedding_lookup.
  induction names as [|n0 r IH]; simpl; [discriminate|].
  unfold Dict.getitem at 1.
  destruct (Dict.get inputs n0); cbn [bind]; [|intros H; inv H; eauto].
  unfold Dict.getitem at 1.
  destruct (Dict.get embs n0); cbn [bind call_Embedding]; [|intros H; inv H; eauto].
  destruct (mapM _ r) eqn:E; cbn [bind]; [discriminate|].
  intros H. inv H. destruct (IH eq_refl) as (k' & Hk & ->). eauto.
Qed.

(** * Lookups *)

Lemma embedding_lookup_missing (names : list string)
      (input_layer_dict : Dict.t KerasTensor) (embedding_layer_dict : Dict.t Embedding.t) :
  (exists n, In n names /\ missing input_layer_dict embedding_layer_dict n) ->
  exists k, In k names /\ missing input_layer_dict embedding_layer_dict k /\
            embedding_lookup names input_layer_dict embedding_layer_dict = Raise (KeyError k).
Proof.
  unfold embedding_lookup, missing.
  induction names as [|n0 r IH]; intros (n & Hin & Hmiss); [destruct Hin|].
  cbn [mapM]. unfold Dict.getitem at 1.
  destruct (Dict.get input_layer_dict n0) as [x|] eqn:Ei.
  2:{ exists n0. split; [left; reflexivity|]. split; [left; exact Ei | reflexivity]. }
  cbn [bind]. unfold Dict.getitem at 1.
  destruct (Dict.get embedding_layer_dict n0) as [e|] eqn:Ee.
  2:{ exists n0. split; [left; reflexivity|]. split; [right; exact Ee | reflexivity]. }
  cbn [bind call_Embedding].
  destruct Hin as [->|Hin]; [destruct Hmiss; congruence|].
  destruct (IH (ex_intro _ n (conj Hin Hmiss))) as (k & Hk & Hm & Hr).
  exists k. split; [right; exact Hk|]. split; [exact Hm|].
  rewrite Hr. reflexivity.
Qed.

Lemma concat_embedding_list_missing (feature_columns : list FeatureColumn)
      (input_layer_dict : Dict.t KerasTensor) (embedding_layer_dict : Dict.t Embedding.t)
      (flatten : bool) :
  (exists fc, In fc feature_columns /\
              missing input_layer_dict embedding_layer_dict (fc_name fc)) ->
  exists fc, In fc feature_columns /\
             missing input_layer_dict embedding_layer_dict (fc_name fc) /\
             concat_embedding_list feature_columns input_layer_dict embedding_layer_dict flatten
             = Raise (KeyError (fc_name fc)).
Proof.
  unfold concat_embedding_list, missing.
  induction feature_columns as [|f0 r IH]; intros (fc & Hin & Hmiss); [destruct Hin|].
  cbn [mapM]. unfold Dict.getitem at 1.
  destruct (Dict.get input_layer_dict (fc_name f0)) as [x|] eqn:Ei.
  2:{ exists f0. split; [left; reflexivity|]. split; [left; exact Ei | reflexivity]. }
  cbn [bind]. unfold Dict.getitem at 1.
  destruct (Dict.get embedding_layer_dict (fc_name f0)) as [e|] eqn:Ee.
  2:{ exists f0. split; [left; reflexivity|]. split; [right; exact Ee | reflexivity]. }
  cbn [bind call_Embedding].
  destruct Hin as [->|Hin]; [destruct Hmiss; congruence|].
  destruct (IH (ex_intro _ fc (conj Hin Hmiss))) as (k & Hk & Hm & Hr).
  exists k. split; [right; exact Hk|]. split; [exact Hm|].
  destruct flatten; cbn [call_Flatten call_Embedding bind] in *; rewrite Hr; reflexivity.
Qed.

(** C7: a lookup of a feature name that has no entry in the input
    dictionary or in the embedding dictionary raises [KeyError], in
    [embedding_lookup] and in [concat_embedding_list]; and [DIN] raises
    [KeyError], and returns no model, when a name of
    [behavior_feature_list] or of [behavior_seq_feature_list] is not the
    name of a descriptor of the schema. *)
Theorem missing_feature_raises {F : FloatOps} :
  (forall names input_layer_dict embedding_layer_dict,
     (exists n, In n names /\ missing input_layer_dict embedding_layer_dict n) ->
     exists k, In k names /\ missing input_layer_dict embedding_layer_dict k /\
               embedding_lookup names input_layer_dict embedding_layer_dict
               = Raise (KeyError k)) /\
  (forall feature_columns input_layer_dict embedding_layer_dict flatten,
     (exists fc, In fc feature_columns /\
                 missing input_layer_dict embedding_layer_dict (fc_name fc)) ->
     exists fc, In fc feature_columns /\
                missing input_layer_dict embedding_layer_dict (fc_name fc) /\
                concat_embedding_list feature_columns input_layer_dict embedding_layer_dict
                  flatten = Raise (KeyError (fc_name fc))) /\
  (forall w feature_columns behavior_feature_list behavior_seq_feature_list,
     (exists n, In n (behavior_feature_list ++ behavior_seq_feature_list) /\
                ~ In n (map fc_name feature_columns)) ->
     exists k, In k (behavior_feature_list ++ behavior_seq_feature_list) /\
               DIN w feature_columns behavior_feature_list behavior_seq_feature_list
               = Raise (KeyError k)).
Proof.
  split; [exact embedding_lookup_missing|]. split; [exact concat_embedding_list_missing|].
  intros w fcs bfl bsfl (n & Hin & Hout).
  assert (Hmiss : missing (build_input_layers fcs)
                          (build_embedding_layers fcs (build_input_layers fcs)) n).
  { left. rewrite build_input_layers_fold, fold_input_step_absent by exact Hout.
    reflexivity. }
  unfold DIN.
  destruct (dense_inputs_build fcs (filter is_DenseFeat fcs)) as (d0 & Ed0 & Hd0).
  { intros fc Hfc. apply filter_In in Hfc. apply Hfc. }
  rewrite Ed0. cbn [bind].
  destruct (concat_input_list_builds d0 Hd0) as (d & Ed). rewrite Ed. cbn [bind].
  destruct (sparse_embeddings_build fcs (filter is_SparseFeat fcs)) as (s0 & Es0 & Hs0).
  { intros fc Hfc. apply filter_In in Hfc. exact Hfc. }
  rewrite Es0. cbn [bind].
  destruct (concat_input_list_builds s0 Hs0) as (sp & Esp). rewrite Esp. cbn [bind].
  apply in_app_or in Hin. destruct Hin as [Hin|Hin].
  - destruct (embedding_lookup_missing bfl _ _ (ex_intro _ n (conj Hin Hmiss)))
      as (k & Hk & _ & Hr).
    rewrite Hr. exists k. split; [apply in_or_app; left; exact Hk | reflexivity].
  - destruct (embedding_lookup bfl _ _) as [qs|e] eqn:Eq; cbn [bind].
    + destruct (embedding_lookup_missing bsfl _ _ (ex_intro _ n (conj Hin Hmiss)))
        as (k & Hk & _ & Hr).
      rewrite Hr. exists k. split; [apply in_or_app; right; exact Hk | reflexivity].
    + destruct (embedding_lookup_raises_KeyError _ _ _ _ Eq) as (k & Hk & ->).
      exists k. split; [apply in_or_app; left; exact Hk | reflexivity].
Qed.

Lemma missing_feature_raises_witness :
  (exists k, embedding_lookup ["nope"] (build_input_layers scenario_columns)
               (build_embedding_layers scenario_columns (build_input_layers scenario_columns))
             = Raise (KeyError k)) /\
  (exists k, @DIN sample_ops sample_model_weights sample_columns ["nope"] ["h2"]
             = Raise (KeyError k)).
Proof.
  destruct (@missing_feature_raises sample_ops) as (Hl & _ & Hd). split.
  - destruct (Hl ["nope"] (build_input_layers scenario_columns)
                (build_embedding_layers scenario_columns (build_input_layers scenario_columns)))
      as (k & _ & _ & Hr).
    + exists "nope". split; [left; reflexivity | left; reflexivity].
    + exists k. exact Hr.
  - destruct (Hd sample_model_weights sample_columns ["nope"] ["h2"]) as (k & _ & Hr).
    + exists "nope". split; [left; reflexivity|].
      simpl. intuition discriminate.
    + exists k. exact Hr.
Defined.

(** * The end-to-end scenario *)

(** C5 (what the code does): in the scenario of the specification, which
    has no Dense descriptor, [DIN] does not return a model: the dense
    branch is [None] and the final concatenation raises.  With one Dense
    descriptor added to the same schema, the model builds. *)
Theorem DIN_scenario_raises {F : FloatOps} (w : nat -> nat -> Weights) :
  filter is_DenseFeat scenario_columns = [] /\
  concat_input_list [] = Ok None /\
  DIN w scenario_columns scenario_behavior_feature_list scenario_behavior_seq_feature_list
  = Raise (ValueError "Concatenate: an input is None") /\
  exists model,
    DIN w scenario_columns_with_dense
        scenario_behavior_feature_list scenario_behavior_seq_feature_list = Ok model.
Proof.
  do 3 (split; [reflexivity|]).
  assert (A : match DIN w scenario_columns_with_dense
                      scenario_behavior_feature_list scenario_behavior_seq_feature_list with
              | Ok _ => true
              | Raise _ => false
              end = true) by (vm_compute; reflexivity).
  destruct (DIN w scenario_columns_with_dense _ _) as [m|e]; [|discriminate A].
  exists m. reflexivity.
Qed.

(** * Which embedding tables reach the output of the model *)

Lemma emb_prefix_injective (a b : string) :
  String.append "emb_" a = String.append "emb_" b -> a = b.
Proof.
  simpl. intros H. injection H as H. exact H.
Qed.

Lemma is_table_of_true (name : string) (l : Embedding.t) (k : string) :
  Embedding.name l = String.append "emb_" k ->
  is_table_of name l = true -> k = name.
Proof.
  unfold is_table_of. intros -> H. apply String.eqb_eq in H.
  apply emb_prefix_injective, H.
Qed.

Lemma embedding_step_names (d : Dict.t Embedding.t) (fc : FeatureColumn) :
  (forall k e, Dict.get d k = Some e -> Embedding.name e = String.append "emb_" k) ->
  forall k e, Dict.get (embedding_step d fc) k = Some e ->
              Embedding.name e = String.append "emb_" k.
Proof.
  intros Hd k e. destruct fc; simpl; try apply Hd;
    rewrite get_setitem; destruct (String.eqb_spec k name) as [->|Hne];
    try apply Hd; intros H; inv H; reflexivity.
Qed.

Lemma fold_embedding_step_names (l : list FeatureColumn) : forall d,
  (forall k e, Dict.get d k = Some e -> Embedding.name e = String.append "emb_" k) ->
  forall k e, Dict.get (fold_left embedding_step l d) k = Some e ->
              Embedding.name e = String.append "emb_" k.
Proof.
  induction l as [|fc r IH]; intros d Hd; simpl; [exact Hd|].
  apply IH, embedding_step_names, Hd.
Qed.

Lemma build_embedding_layers_names (l : list FeatureColumn) (inputs : Dict.t KerasTensor)
      (k : string) (e : Embedding.t) :
  Dict.get (build_embedding_layers l inputs) k = Some e ->
  Embedding.name e = String.append "emb_" k.
Proof.
  rewrite build_embedding_layers_fold. apply fold_embedding_step_names.
  intros k0 e0 H. discriminate H.
Qed.

Lemma input_step_inputs (d : Dict.t KerasTensor) (fc : FeatureColumn) :
  (forall k x, Dict.get d k = Some x -> exists s, x = KInput k s) ->
  forall k x, Dict.get (input_step d fc) k = Some x -> exists s, x = KInput k s.
Proof.
  intros Hd k x. destruct fc; simpl;
    rewrite get_setitem; destruct (String.eqb_spec k name) as [->|Hne];
    try apply Hd; intros H; inv H; eexists; reflexivity.
Qed.

Lemma build_input_layers_inputs (l : list FeatureColumn) (k : string) (x : KerasTensor) :
  Dict.get (build_input_layers l) k = Some x -> exists s, x = KInput k s.
Proof.
  rewrite build_input_layers_fold.
  assert (H : forall d,
             (forall k x, Dict.get d k = Some x -> exists s, x = KInput k s) ->
             forall k x, Dict.get (fold_left input_step l d) k = Some x ->
                         exists s, x = KInput k s).
  { induction l as [|fc r IH]; intros d Hd; simpl; [exact Hd|].
    apply IH, input_step_inputs, Hd. }
  apply H. intros k0 x0 H0. discriminate H0.
Qed.

(** What [embedding_lookup] returns: the table of each name on its input. *)
Lemma embedding_lookup_Ok (names : list string) (inputs : Dict.t KerasTensor)
      (embs : Dict.t Embedding.t) :
  forall l, embedding_lookup names inputs embs = Ok l ->
  Forall (fun t => exists n e x, In n names /\ Dict.get inputs n = Some x /\
                                 Dict.get embs n = Some e /\ t = KEmbedding e x) l.
Proof.
  unfold embedding_lookup.
  induction names as [|n0 r IH]; intros l H; simpl in H.
  - inv H. constructor.
  - bind_inv H as b Eb. bind_inv H as bs Ebs. inv H.
    bind_inv Eb as x Ex. bind_inv Eb as e Ee. inv Eb.
    unfold Dict.getitem in Ex, Ee.
    destruct (Dict.get inputs n0) eqn:Gi; [|discriminate]. inv Ex.
    destruct (Dict.get embs n0) eqn:Ge; [|discriminate]. inv Ee.
    constructor.
    + exists n0, e, x. simpl. auto.
    + eapply Forall_impl; [|apply IH; exact Ebs].
      intros t (n & e' & x' & Hin & H1 & H2 & H3). exists n, e', x'. simpl. auto.
Qed.

Lemma concat_embedding_list_Ok (fcs : list FeatureColumn) (inputs : Dict.t KerasTensor)
      (embs : Dict.t Embedding.t) :
  forall l, concat_embedding_list fcs inputs embs true = Ok l ->
  Forall (fun t => exists fc e x, In fc fcs /\ Dict.get inputs (fc_name fc) = Some x /\
                                  Dict.get embs (fc_name fc) = Some e /\
                                  t = KFlatten (KEmbedding e x)) l.
Proof.
  unfold concat_embedding_list.
  induction fcs as [|f0 r IH]; intros l H; simpl in H.
  - inv H. constructor.
  - bind_inv H as b Eb. bind_inv H as bs Ebs. inv H.
    bind_inv Eb as x Ex. bind_inv Eb as e Ee. inv Eb.
    unfold Dict.getitem in Ex, Ee.
    destruct (Dict.get inputs (fc_name f0)) eqn:Gi; [|discriminate]. inv Ex.
    destruct (Dict.get embs (fc_name f0)) eqn:Ge; [|discriminate]. inv Ee.
    constructor.
    + exists f0, e, x. simpl. auto.
    + eapply Forall_impl; [|apply IH; exact Ebs].
      intros t (fc & e' & x' & Hin & H1 & H2 & H3). exists fc, e', x'. simpl. auto.
Qed.

Lemma mapM_Some_Ok (l : list (option KerasTensor)) : forall xs,
  mapM (fun o : option KerasTensor =>
          match o with
          | Some x => Ok x
          | None => Raise (ValueError "Concatenate: an input is None")
          end) l = Ok xs ->
  l = map Some xs.
Proof.
  induction l as [|o r IH]; intros xs H; simpl in H.
  - inv H. reflexivity.
  - destruct o as [x|]; [|discriminate]. cbn [bind] in H.
    bind_inv H as bs Ebs. inv H. simpl. f_equal. apply IH, Ebs.
Qed.

Lemma call_Concatenate_Ok (axis : Z) (l : list (option KerasTensor)) (t : KerasTensor) :
  call_Concatenate axis l = Ok t ->
  exists xs, l = map Some xs /\ t = KConcatenate axis xs.
Proof.
  unfold call_Concatenate. intros H.
  bind_inv H as xs Exs. bind_inv H as u Eu. inv H.
  exists xs. split; [apply mapM_Some_Ok, Exs | reflexivity].
Qed.

Lemma map_Some_injective (l m : list KerasTensor) : map Some l = map Some m -> l = m.
Proof.
  revert m. induction l as [|a l IH]; intros [|b m] H; simpl in H;
    try discriminate; [reflexivity|].
  inv H. f_equal. apply IH. assumption.
Qed.

(** The result of [concat_input_list] mentions what its inputs mention. *)
Lemma concat_input_list_occurs (ta : bool) (name : string) (l : list KerasTensor)
      (r : option KerasTensor) :
  concat_input_list l = Ok r ->
  match r with
  | Some x => embedding_occurs ta name x = existsb (embedding_occurs ta name) l
  | None => l = []
  end.
Proof.
  unfold concat_input_list. destruct l as [|x [|y rest]]; cbn [length Nat.ltb Nat.leb Nat.eqb].
  - intros H. inv H. reflexivity.
  - intros H. inv H. simpl. rewrite orb_false_r. reflexivity.
  - intros H. bind_inv H as c Ec. inv H.
    apply call_Concatenate_Ok in Ec. destruct Ec as (xs & Hxs & ->).
    apply map_Some_injective in Hxs. subst xs. reflexivity.
Qed.

Lemma pool_sequences_Ok {F : FloatOps} (w : nat -> nat -> Weights)
      (qs ks : list KerasTensor) :
  forall i l, pool_sequences w i qs ks = Ok l ->
  Forall (fun t => exists layer q k s,
                     t = KAttentionPooling layer q k s /\ In q qs /\ In k ks) l.
Proof.
  induction ks as [|k0 r IH]; intros i l H; simpl in H.
  - inv H. constructor.
  - bind_inv H as q Eq. bind_inv H as s Es. bind_inv H as rest Erest. inv H.
    destruct (nth_error qs i) as [q'|] eqn:En; [|discriminate]. inv Eq.
    unfold call_AttentionPoolingLayer in Es.
    bind_inv Es as p Ep. destruct p as [layer' o]. inv Es.
    constructor.
    + exists layer', q, k0, (tl (shape o)). split; [reflexivity|].
      split; [eapply nth_error_In; exact En | left; reflexivity].
    + eapply Forall_impl; [|apply (IH (S i)); exact Erest].
      intros t (layer & q0 & k & s & -> & Hq & Hk). exists layer, q0, k, s.
      split; [reflexivity|]. split; [exact Hq | right; exact Hk].
Qed.

Lemma call_Dense_Ok {F : FloatOps} (layer : Dense.t) (x y : KerasTensor) :
  call_Dense layer x = Ok y -> exists layer', y = KDense layer' x.
Proof.
  unfold call_Dense. intros H. bind_inv H as p Ep. destruct p as [layer' o].
  inv H. eexists. reflexivity.
Qed.

Lemma dense_stack_occurs {F : FloatOps} (ta : bool) (name : string) (dnns : list Dense.t) :
  forall (acc : result KerasTensor) (y : KerasTensor),
    fold_left (fun acc dnn => dnn_out <- acc ;; call_Dense dnn dnn_out) dnns acc = Ok y ->
    exists x, acc = Ok x /\ embedding_occurs ta name y = embedding_occurs ta name x.
Proof.
  induction dnns as [|d r IH]; intros acc y H; simpl in H.
  - exists y. auto.
  - destruct (IH _ _ H) as (x1 & E & Hocc).
    bind_inv E as x0 E0. apply call_Dense_Ok in E. destruct E as (layer' & ->).
    exists x0. split; [exact E0|]. rewrite Hocc. reflexivity.
Qed.

Lemma get_dnn_logits_occurs {F : FloatOps} (ta : bool) (name : string)
      (x y : KerasTensor) (hidden_units : list nat) (activation : string)
      (w : nat -> Weights) :
  get_dnn_logits x hidden_units activation w = Ok y ->
  embedding_occurs ta name y = embedding_occurs ta name x.
Proof.
  unfold get_dnn_logits. intros H. bind_inv H as h Eh.
  apply call_Dense_Ok in H. destruct H as (layer' & ->).
  destruct (dense_stack_occurs ta name _ _ _ Eh) as (x' & Ex & Hocc).
  inv Ex. simpl. exact Hocc.
Qed.

Lemma existsb_false_Forall {A : Type} (f : A -> bool) (l : list A) :
  Forall (fun a => f a = false) l -> existsb f l = false.
Proof.
  induction 1 as [|a l Ha _ IH]; simpl; [reflexivity|]. rewrite Ha, IH. reflexivity.
Qed.

Lemma NoDup_names_injective (l : list FeatureColumn) (a b : FeatureColumn) :
  NoDup (map fc_name l) -> In a l -> In b l -> fc_name a = fc_name b -> a = b.
Proof.
  induction l as [|c r IH]; intros Hnd Ha Hb E; [destruct Ha|].
  simpl in Hnd. inv Hnd. destruct Ha as [->|Ha], Hb as [->|Hb].
  - reflexivity.
  - exfalso. apply H1. rewrite E. apply in_map, Hb.
  - exfalso. apply H1. rewrite <- E. apply in_map, Ha.
  - apply IH; assumption.
Qed.

Lemma dense_inputs_no_table (fcs l : list FeatureColumn) (l0 : list KerasTensor) :
  mapM (fun fc => Dict.getitem (build_input_layers fcs) (fc_name fc)) l = Ok l0 ->
  forall ta name, existsb (embedding_occurs ta name) l0 = false.
Proof.
  revert l0. induction l as [|fc r IH]; intros l0 H ta name; simpl in H.
  - inv H. reflexivity.
  - bind_inv H as x Ex. bind_inv H as xs Exs. inv H.
    unfold Dict.getitem in Ex.
    destruct (Dict.get (build_input_layers fcs) (fc_name fc)) eqn:G; [|discriminate].
    inv Ex. apply build_input_layers_inputs in G. destruct G as (s & ->).
    simpl. apply IH, Exs.
Qed.

(** A looked-up embedding mentions the table of its own feature only. *)
Lemma lookup_occurs (fcs : list FeatureColumn) (k : string) (e : Embedding.t)
      (x : KerasTensor) (ta : bool) (name : string) :
  Dict.get (build_input_layers fcs) k = Some x ->
  Dict.get (build_embedding_layers fcs (build_input_layers fcs)) k = Some e ->
  embedding_occurs ta name (KEmbedding e x) = true -> k = name.
Proof.
  intros Gi Ge H. apply build_input_layers_inputs in Gi. destruct Gi as (s & ->).
  simpl in H. rewrite orb_false_r in H.
  apply (is_table_of_true name e k); [|exact H].
  eapply build_embedding_layers_names, Ge.
Qed.

(** C10 (as amended): in a schema, the table of a VarLenSparse descriptor
    is never looked up on the flattened sparse path to the head of the
    model (nor on the dense path): it reaches the output only as an input
    of an attention pooling, and only if the descriptor's name is listed in
    [behavior_seq_feature_list] (as keys) or in [behavior_feature_list] (as
    query); listed in neither, it does not occur in the model's output. *)
Theorem sequence_embedding_only_through_attention {F : FloatOps}
        (w : nat -> nat -> Weights) (feature_columns : list FeatureColumn)
        (behavior_feature_list behavior_seq_feature_list : list string) (model : Model)
        (name : string) (vocabulary_size embedding_dim maxlen : nat) :
  NoDup (map fc_name feature_columns) ->
  In (VarLenSparseFeat name vocabulary_size embedding_dim maxlen) feature_columns ->
  DIN w feature_columns behavior_feature_list behavior_seq_feature_list = Ok model ->
  uses_embedding_directly name (outputs model) = false /\
  (uses_embedding name (outputs model) = true ->
   In name behavior_seq_feature_list \/ In name behavior_feature_list).
Proof.
  intros Hnd Hin H. unfold DIN in H.
  bind_inv H as dense0 Ed0. bind_inv H as dense Ed.
  bind_inv H as sparse0 Es0. bind_inv H as sparse Es.
  bind_inv H as qs Eq. bind_inv H as ks Ek.
  bind_inv H as seq0 Eq0. bind_inv H as seq Eseq.
  bind_inv H as x Ex. bind_inv H as y Ey. inv H. cbn [outputs].
  apply call_Concatenate_Ok in Ex. destruct Ex as (xs & Hxs & ->).
  destruct xs as [|d' [|s' [|q' [|? ?]]]]; try discriminate Hxs.
  simpl in Hxs. inv Hxs.
  (* the dense branch mentions no table *)
  assert (Hdense : forall ta, embedding_occurs ta name d' = false).
  { intros ta. pose proof (concat_input_list_occurs ta name _ _ Ed) as Hd.
    simpl in Hd. rewrite Hd. eapply dense_inputs_no_table, Ed0. }
  (* the sparse branch mentions tables of Sparse descriptors only *)
  assert (Hsparse : forall ta, embedding_occurs ta name s' = false).
  { intros ta. pose proof (concat_input_list_occurs ta name _ _ Es) as Hs.
    simpl in Hs. rewrite Hs. apply existsb_false_Forall.
    eapply Forall_impl; [|apply concat_embedding_list_Ok; exact Es0].
    intros t (fc & e & x & Hfc & Gi & Ge & ->).
    apply filter_In in Hfc. destruct Hfc as [Hfc Hsp].
    destruct (embedding_occurs ta name (KFlatten (KEmbedding e x))) eqn:Ho; [|reflexivity].
    exfalso. change (embedding_occurs ta name (KEmbedding e x) = true) in Ho.
    pose proof (lookup_occurs _ _ _ _ _ _ Gi Ge Ho) as E.
    assert (Efc : fc = VarLenSparseFeat name vocabulary_size embedding_dim maxlen)
      by (apply (NoDup_names_injective feature_columns); assumption).
    subst fc. discriminate Hsp. }
  pose proof (pool_sequences_Ok _ _ _ _ _ Eq0) as Hpool.
  split.
  - unfold uses_embedding_directly.
    rewrite (get_dnn_logits_occurs false name _ _ _ _ _ Ey). simpl.
    rewrite Hdense, Hsparse, orb_false_r. simpl.
    pose proof (concat_input_list_occurs false name _ _ Eseq) as Hq.
    simpl in Hq. rewrite Hq. apply existsb_false_Forall.
    eapply Forall_impl; [|exact Hpool].
    intros t (layer & q & k & s & -> & _ & _). reflexivity.
  - unfold uses_embedding.
    rewrite (get_dnn_logits_occurs true name _ _ _ _ _ Ey). simpl.
    rewrite Hdense, Hsparse, orb_false_r. simpl.
    pose proof (concat_input_list_occurs true name _ _ Eseq) as Hq.
    simpl in Hq. rewrite Hq. intros Hex.
    apply existsb_exists in Hex. destruct Hex as (t & Ht & Hocc).
    rewrite Forall_forall in Hpool.
    destruct (Hpool t Ht) as (layer & q & k & s & -> & Hinq & Hink).
    simpl in Hocc. apply orb_true_iff in Hocc. destruct Hocc as [Hocc|Hocc].
    + right. pose proof (embedding_lookup_Ok _ _ _ _ Eq) as Hl.
      rewrite Forall_forall in Hl.
      destruct (Hl q Hinq) as (n & e & x & Hn & Gi & Ge & ->).
      rewrite <- (lookup_occurs _ _ _ _ _ _ Gi Ge Hocc). exact Hn.
    + left. pose proof (embedding_lookup_Ok _ _ _ _ Ek) as Hl.
      rewrite Forall_forall in Hl.
      destruct (Hl k Hink) as (n & e & x & Hn & Gi & Ge & ->).
      rewrite <- (lookup_occurs _ _ _ _ _ _ Gi Ge Hocc). exact Hn.
Qed.

Lemma sample_columns_NoDup : NoDup (map fc_name sample_columns).
Proof.
  simpl. repeat constructor; simpl; intuition discriminate.
Qed.

(** With [sample_columns], the model builds, and the table of "h1", which
    is the query of the attention pooling, is looked up in its output. *)
Lemma sample_model_builds :
  exists model,
    @DIN sample_ops sample_model_weights sample_columns ["h1"] ["h2"] = Ok model /\
    uses_embedding "h1" (outputs model) = true.
Proof.
  assert (A : match @DIN sample_ops sample_model_weights sample_columns ["h1"] ["h2"] with
              | Ok m => uses_embedding "h1" (outputs m)
              | Raise _ => false
              end = true) by (vm_compute; reflexivity).
  destruct (@DIN sample_ops sample_model_weights sample_columns ["h1"] ["h2"]) as [m|e];
    [|discriminate A].
  exists m. split; [reflexivity | exact A].
Qed.

Lemma sequence_embedding_only_through_attention_witness :
  exists model,
    @DIN sample_ops sample_model_weights sample_columns ["h1"] ["h2"] = Ok model /\
    uses_embedding_directly "h2" (outputs model) = false /\
    (uses_embedding "h2" (outputs model) = true -> In "h2" ["h2"] \/ In "h2" ["h1"]).
Proof.
  destruct sample_model_builds as (model & Hm & _).
  exists model. split; [exact Hm|].
  apply (@sequence_embedding_only_through_attention sample_ops sample_model_weights
           sample_columns ["h1"] ["h2"] model "h2" 10 4 5).
  - exact sample_columns_NoDup.
  - simpl. auto.
  - exact Hm.
Defined.

(** C10 (as stated) fails: "h1" is a VarLenSparse descriptor that is not
    listed in [behavior_seq_feature_list], and its table is looked up in
    the output of the model all the same, as the query of the pooling. *)
Lemma sequence_feature_as_query_counterexample :
  exists model,
    @DIN sample_ops sample_model_weights sample_columns ["h1"] ["h2"] = Ok model /\
    NoDup (map fc_name sample_columns) /\
    In (VarLenSparseFeat "h1" 10 4 1) sample_columns /\
    ~ In "h1" ["h2"] /\
    uses_embedding "h1" (outputs model) = true.
Proof.
  destruct sample_model_builds as (model & Hm & Hu).
  exists model. split; [exact Hm|]. split; [exact sample_columns_NoDup|].
  split; [simpl; auto|]. split; [|exact Hu].
  simpl. intuition discriminate.
Qed.

(** * Running the layers on the samples *)

Example sample_att_input :
  match LocalActivationUnit.att_input sample_query sample_keys with
  | Ok ai => map (map (map this)) (to_list3 ai)
  | Raise _ => []
  end = [[[1; 1; 1; 2; 0; -1; 1; 2]; [1; 1; 0; 3; 1; -2; 0; 3]]]%Q.
Proof. vm_compute. reflexivity. Qed.

Example sample_key_masks :
  match AttentionPoolingLayer.key_masks sample_keys with
  | Ok mask => to_list2 mask
  | Raise _ => []
  end = [[true; false]].
Proof. vm_compute. reflexivity. Qed.

(** One real position with score 52: the output is 52 times its key (1, 2). *)
Example sample_pooled :
  rows (@AttentionPoolingLayer.call sample_ops false sample_layer (sample_query, sample_keys))
  = [[52; 104]]%Q.
Proof. vm_compute. reflexivity. Qed.

Example sample_pooled_all_padding :
  rows (@AttentionPoolingLayer.call sample_ops false sample_layer
          (sample_query, sample_padded_keys))
  = [[0; 0]]%Q.
Proof. vm_compute. reflexivity. Qed.

(** An embedding of width 0 has no first coordinate: the mask raises. *)
Lemma key_masks_zero_width (keys : Tensor Qc) (B L : nat) :
  shape keys = [B; L; 0] -> raises (AttentionPoolingLayer.key_masks keys).
Proof.
  intros Hk. unfold AttentionPoolingLayer.key_masks, tf.getitem.
  rewrite Hk. eexists. reflexivity.
Qed.

(** * The layers without Dice, entry by entry *)

Lemma broadcast_index_batch (e : Shape) (b : nat) (i : Index) :
  in_range e i -> broadcast_index e (b :: i) = i.
Proof.
  intros H. unfold broadcast_index. simpl length.
  rewrite (in_range_length _ _ H).
  replace (S (length e) - length e) with 1 by lia. simpl.
  apply zip_with_clamp, H.
Qed.

Lemma PReLU_call_entries (l : PReLU.t) (x : Tensor Qc) (b : nat) (e : Shape) :
  shape x = b :: e ->
  PReLU.ready e l ->
  exists out a,
    PReLU.__call__ l x = Ok (PReLU_built l e, out) /\
    PReLU.alpha (PReLU_built l e) = Some a /\
    shape out = b :: e /\
    forall b0 i, b0 < b -> in_range e i ->
      elem out (b0 :: i) = PReLU_entry (elem a i) (elem x (b0 :: i)).
Proof.
  intros Hx Hr.
  assert (Hcall : forall l0 a, PReLU.alpha l0 = Some a -> shape a = e ->
            exists out, PReLU.call l0 x = Ok out /\ shape out = b :: e /\
              forall b0 i, b0 < b -> in_range e i ->
                elem out (b0 :: i) = PReLU_entry (elem a i) (elem x (b0 :: i))).
  { intros l0 a Ha Hs. unfold PReLU.call. rewrite Ha, Hx, Hs. cbn [length].
    rewrite Nat.eqb_refl.
    unfold tf.multiply, tf.add, tf.binary. cbn [shape tf.unary].
    rewrite Hs, Hx, broadcast_shape_batch. cbn [bind shape].
    rewrite broadcast_shape_same.
    eexists. split; [reflexivity|]. split; [reflexivity|].
    intros b0 i Hb Hi. cbn [elem tf.unary].
    rewrite !(broadcast_index_same (b :: e) (b0 :: i)) by (simpl; auto).
    rewrite broadcast_index_batch by exact Hi. reflexivity. }
  unfold PReLU.__call__, PReLU_built. destruct (PReLU.built l) eqn:Hb.
  - destruct (Hr Hb) as (a & Ha & Hs).
    destruct (Hcall l a Ha Hs) as (out & Hc & Ho & He).
    cbn [bind]. rewrite Hc. cbn [bind]. exists out, a. auto.
  - unfold PReLU.build. rewrite Hx. cbn [bind tl].
    destruct (Hcall (PReLU.mk (Some (weight (PReLU.weights l) "alpha" e)) true
                              (PReLU.weights l))
                    (weight (PReLU.weights l) "alpha" e) eq_refl eq_refl)
      as (out & Hc & Ho & He).
    rewrite Hc. cbn [bind]. exists out, (weight (PReLU.weights l) "alpha" e). auto.
Qed.

Lemma tensordot_last_eq (x k : Tensor Qc) (q : Shape) (c u : nat) :
  shape x = q ++ [c] -> shape k = [c; u] ->
  tf.tensordot_last x k
  = Ok (mkTensor (q ++ [u])
          (fun i => sum_n c (fun j => (elem x (removelast i ++ [j]) * elem k [j; last i 0%nat])%Qc))).
Proof.
  intros Hx Hk. unfold tf.tensordot_last.
  rewrite Hx, rev_unit, Hk, Nat.eqb_refl.
  change (rev (u :: rev q)) with (rev (rev q) ++ [u]).
  rewrite rev_involutive. reflexivity.
Qed.

Lemma activate_entries {F : FloatOps} (training : bool) (a : Activation)
      (x : Tensor Qc) (b : nat) (e : Shape) :
  shape x = b :: e ->
  Dense.activation_ready e a ->
  no_dice a ->
  exists out,
    Dense.activate training a x = Ok (activation_built a e, out) /\
    shape out = b :: e /\
    forall b0 i, b0 < b -> in_range e i ->
      elem out (b0 :: i) = activation_entry (activation_built a e) i (elem x (b0 :: i)).
Proof.
  intros Hx Hr Hnd. destruct a as [| |l|d]; cbn [Dense.activate activation_built].
  - exists x. auto.
  - exists (tf.sigmoid x). auto.
  - destruct (PReLU_call_entries l x b e Hx Hr) as (out & a & Hc & Ha & Ho & He).
    rewrite Hc. cbn [bind]. exists out. split; [reflexivity|]. split; [exact Ho|].
    intros b0 i Hb Hi. cbn [activation_entry]. rewrite Ha. apply He; assumption.
  - destruct Hnd.
Qed.

Lemma no_dice_built (a : Activation) (e : Shape) : no_dice a -> no_dice (activation_built a e).
Proof. destruct a; simpl; auto. Qed.

(** What a Dense layer without Dice computes, entry by entry. *)
Lemma Dense_call_entries {F : FloatOps} (training : bool) (l : Dense.t)
      (x : Tensor Qc) (b : nat) (p : Shape) (c : nat) :
  shape x = b :: p ++ [c] ->
  Dense.ready (p ++ [c]) l ->
  no_dice (Dense.activation l) ->
  exists out,
    Dense.__call__ training l x = Ok (Dense_built l (p ++ [c]), out) /\
    shape out = b :: p ++ [Dense.units l] /\
    forall b0 ip u, b0 < b -> in_range p ip -> u < Dense.units l ->
      elem out (b0 :: ip ++ [u])
      = Dense_entry (Dense_built l (p ++ [c])) c
          (fun j => elem x (b0 :: ip ++ [j])) (ip ++ [u]).
Proof.
  intros Hx [Hrw Hra] Hnd.
  rewrite removelast_last in Hra. rewrite last_last in Hrw.
  assert (Hcall : forall l0 k bi,
            Dense.kernel l0 = Some k -> Dense.bias l0 = Some bi ->
            shape k = [c; Dense.units l] -> shape bi = [Dense.units l] ->
            Dense.units l0 = Dense.units l -> Dense.activation l0 = Dense.activation l ->
            let l' := Dense.mk (Dense.units l0)
                        (activation_built (Dense.activation l) (p ++ [Dense.units l]))
                        (Dense.kernel l0) (Dense.bias l0) (Dense.built l0)
                        (Dense.weights l0) in
            exists out,
              Dense.call training l0 x = Ok (l', out) /\
              shape out = b :: p ++ [Dense.units l] /\
              forall b0 ip u, b0 < b -> in_range p ip -> u < Dense.units l ->
                elem out (b0 :: ip ++ [u])
                = Dense_entry l' c (fun j => elem x (b0 :: ip ++ [j])) (ip ++ [u])).
  { intros l0 k bi Hk Hb Hsk Hsb Hu Hact l'.
    unfold Dense.call. rewrite Hk, Hb.
    rewrite (tensordot_last_eq x k (b :: p) c (Dense.units l) Hx Hsk). red_bind.
    unfold tf.add.
    match goal with
    | |- context [tf.binary ?f ?t bi] =>
        rewrite (binary_channel_r f t bi (b :: p) (Dense.units l) eq_refl Hsb)
    end.
    red_bind. rewrite Hact.
    match goal with
    | |- context [Dense.activate training _ ?t] =>
        destruct (activate_entries training (Dense.activation l) t b
                    (p ++ [Dense.units l]) eq_refl Hra Hnd) as (out & Hc & Ho & He)
    end.
    rewrite Hc. red_bind. exists out.
    split; [unfold l'; rewrite Hk, Hb; reflexivity|]. split; [exact Ho|].
    intros b0 ip u Hb0 Hip Hu'.
    assert (Hin : in_range (p ++ [Dense.units l]) (ip ++ [u]))
      by (apply in_range_app; auto).
    rewrite (He b0 (ip ++ [u]) Hb0 Hin).
    unfold Dense_entry, l'. cbn [Dense.kernel Dense.bias Dense.activation].
    rewrite Hk, Hb. f_equal.
    cbn [elem].
    change (b0 :: ip ++ [u]) with ((b0 :: ip) ++ [u]).
    rewrite (broadcast_index_same ((b :: p) ++ [Dense.units l]) ((b0 :: ip) ++ [u]))
      by (apply in_range_app; simpl; auto).
    rewrite broadcast_index_channel by exact Hu'.
    rewrite removelast_last, !last_last. reflexivity. }
  unfold Dense.__call__, Dense_built. rewrite removelast_last, last_last.
  destruct (Dense.built l) eqn:Hb.
  - destruct (Hrw eq_refl) as (k & bi & Hk & Hbi & Hsk & Hsb). red_bind.
    apply (Hcall l k bi); auto.
  - unfold Dense.build.
    destruct (rev_cons_nonempty b p) as (y & ys & Hrev).
    replace (rev (shape x)) with (c :: y :: ys)
      by (rewrite Hx; change (b :: p ++ [c]) with ((b :: p) ++ [c]);
          rewrite rev_unit, Hrev; reflexivity).
    red_bind.
    apply (Hcall (Dense.mk (Dense.units l) (Dense.activation l)
                    (Some (weight (Dense.weights l) "kernel" [c; Dense.units l]))
                    (Some (weight (Dense.weights l) "bias" [Dense.units l]))
                    true (Dense.weights l))
                 (weight (Dense.weights l) "kernel" [c; Dense.units l])
                 (weight (Dense.weights l) "bias" [Dense.units l])); reflexivity.
Qed.

Lemma Dense_entry_ext {F : FloatOps} (l : Dense.t) (c : nat) (row row' : nat -> Qc) (i : Index) :
  (forall j, j < c -> row j = row' j) ->
  Dense_entry l c row i = Dense_entry l c row' i.
Proof.
  intros H. unfold Dense_entry.
  destruct (Dense.kernel l); [|reflexivity]. destruct (Dense.bias l); [|reflexivity].
  cbv zeta. f_equal. f_equal. apply sum_n_ext. intros j Hj. rewrite (H j Hj). reflexivity.
Qed.

Lemma Dense_built_ready (l : Dense.t) (e : Shape) :
  Dense.ready e l -> no_dice (Dense.activation l) ->
  Dense.units (Dense_built l e) = Dense.units l /\
  no_dice (Dense.activation (Dense_built l e)).
Proof.
  intros _ Hnd. unfold Dense_built.
  destruct (Dense.built l); cbn [Dense.units Dense.activation];
    (split; [reflexivity | apply no_dice_built; exact Hnd]).
Qed.

(** A Dense layer without Dice works row by row: equal input rows, in the
    same or in different batches, give equal output rows. *)
Lemma Dense_call_rows {F : FloatOps} (training : bool) (l : Dense.t)
      (x x' : Tensor Qc) (b b' : nat) (p : Shape) (c : nat) :
  shape x = b :: p ++ [c] ->
  shape x' = b' :: p ++ [c] ->
  Dense.ready (p ++ [c]) l ->
  no_dice (Dense.activation l) ->
  exists l' out out',
    Dense.__call__ training l x = Ok (l', out) /\
    Dense.__call__ training l x' = Ok (l', out') /\
    shape out = b :: p ++ [Dense.units l] /\
    shape out' = b' :: p ++ [Dense.units l] /\
    no_dice (Dense.activation l') /\
    forall b0 b0' ip, b0 < b -> b0' < b' -> in_range p ip ->
      (forall j, j < c -> elem x (b0 :: ip ++ [j]) = elem x' (b0' :: ip ++ [j])) ->
      forall u, u < Dense.units l ->
        elem out (b0 :: ip ++ [u]) = elem out' (b0' :: ip ++ [u]).
Proof.
  intros Hx Hx' Hr Hnd.
  destruct (Dense_call_entries training l x b p c Hx Hr Hnd) as (out & Hc & Ho & He).
  destruct (Dense_call_entries training l x' b' p c Hx' Hr Hnd) as (out' & Hc' & Ho' & He').
  exists (Dense_built l (p ++ [c])), out, out'.
  do 4 (split; [assumption|]).
  split; [apply (Dense_built_ready l (p ++ [c]) Hr Hnd)|].
  intros b0 b0' ip Hb Hb' Hip Hrow u Hu.
  rewrite (He b0 ip u Hb Hip Hu), (He' b0' ip u Hb' Hip Hu).
  apply Dense_entry_ext. exact Hrow.
Qed.

Lemma run_dnn_rows {F : FloatOps} (training : bool) (dnn : list Dense.t) :
  forall (x x' : Tensor Qc) (b b' : nat) (p : Shape) (c : nat),
    shape x = b :: p ++ [c] ->
    shape x' = b' :: p ++ [c] ->
    LocalActivationUnit.dnn_ready (p ++ [c]) dnn ->
    Forall (fun fc => no_dice (Dense.activation fc)) dnn ->
    exists dnn' out out',
      LocalActivationUnit.run_dnn training dnn x = Ok (dnn', out) /\
      LocalActivationUnit.run_dnn training dnn x' = Ok (dnn', out') /\
      Forall (fun fc => no_dice (Dense.activation fc)) dnn' /\
      forall b0 b0' ip, b0 < b -> b0' < b' -> in_range p ip ->
        (forall j, j < c -> elem x (b0 :: ip ++ [j]) = elem x' (b0' :: ip ++ [j])) ->
        forall u, u < last (c :: map Dense.units dnn) 0 ->
          elem out (b0 :: ip ++ [u]) = elem out' (b0' :: ip ++ [u]).
Proof.
  induction dnn as [|fc rest IH]; intros x x' b b' p c Hx Hx' Hr Hnd.
  - exists [], x, x'. split; [reflexivity|]. split; [reflexivity|].
    split; [constructor|].
    intros b0 b0' ip _ _ _ Hrow u Hu. apply Hrow. exact Hu.
  - destruct Hr as [Hfc Hrest]. rewrite removelast_last in Hrest.
    inversion Hnd as [|? ? Hnfc Hnrest]; subst.
    destruct (Dense_call_rows training fc x x' b b' p c Hx Hx' Hfc Hnfc)
      as (fc' & o & o' & Hc & Hc' & Ho & Ho' & Hfc' & He).
    destruct (IH o o' b b' p (Dense.units fc) Ho Ho' Hrest Hnrest)
      as (rest' & out & out' & Hrun & Hrun' & Hrest' & Hout).
    exists (fc' :: rest'), out, out'.
    cbn [LocalActivationUnit.run_dnn]. rewrite Hc, Hc'. red_bind.
    rewrite Hrun, Hrun'. red_bind. split; [reflexivity|]. split; [reflexivity|].
    split; [constructor; assumption|].
    intros b0 b0' ip Hb Hb' Hip Hrow u Hu.
    apply (Hout b0 b0' ip Hb Hb' Hip); [|exact Hu].
    intros j Hj. apply (He b0 b0' ip Hb Hb' Hip Hrow j Hj).
Qed.

Lemma att_input_entry_ext (D : nat) (q q' k k' : Tensor Qc) (b b' i j : nat) :
  same_query D q q' b b' -> same_key D k k' b b' i -> j < 4 * D ->
  att_input_entry D q k b i j = att_input_entry D q' k' b' i j.
Proof.
  intros Hq Hk Hj. unfold att_input_entry. cbv zeta.
  destruct (j <? D) eqn:E1; [apply Hq, Nat.ltb_lt, E1|].
  destruct (j - D <? D) eqn:E2; [apply Hk, Nat.ltb_lt, E2|].
  apply Nat.ltb_ge in E1, E2.
  destruct (j - D - D <? D) eqn:E3.
  - apply Nat.ltb_lt in E3. rewrite (Hq _ E3), (Hk _ E3). reflexivity.
  - apply Nat.ltb_ge in E3.
    assert (E4 : j - D - D - D < D) by lia.
    rewrite (Hq _ E4), (Hk _ E4). reflexivity.
Qed.

Lemma prelu_only_fresh (hidden_units : list nat) (w : nat -> Weights) :
  prelu_only (LocalActivationUnit.__init__ hidden_units "prelu" w).
Proof.
  split; [|exact I].
  unfold LocalActivationUnit.__init__. cbn [LocalActivationUnit.dnn].
  apply Forall_forall. intros fc Hin. apply in_map_iff in Hin.
  destruct Hin as ([k u] & <- & _). exact I.
Qed.

(** ** LocalActivationUnit and AttentionPoolingLayer: one example at a time *)

Lemma LocalActivationUnit_call_rows {F : FloatOps} (training : bool)
      (self : LocalActivationUnit.t) (q k q' k' : Tensor Qc) (B B' L D : nat) :
  shape q = [B; 1; D] -> shape k = [B; L; D] ->
  shape q' = [B'; 1; D] -> shape k' = [B'; L; D] ->
  LocalActivationUnit.ready [L; 4 * D] self ->
  prelu_only self ->
  exists self' out out',
    LocalActivationUnit.call training self (q, k) = Ok (self', out) /\
    LocalActivationUnit.call training self (q', k') = Ok (self', out') /\
    LocalActivationUnit.ready [L; 4 * D] self' /\
    prelu_only self' /\
    forall b b' i, b < B -> b' < B' -> i < L ->
      same_query D q q' b b' -> same_key D k k' b b' i ->
      elem out [b; i] = elem out' [b'; i].
Proof.
  intros Hq Hk Hq' Hk' Hr [Hnd Hndl].
  destruct (LocalActivationUnit_call_spec training self q k B L D Hq Hk Hr)
    as (s1 & ai & h & o & out & Hai & Hrun & Hsh & Hlin & _ & Hc & _ & He & Hr1' & Hhu).
  destruct (LocalActivationUnit_call_spec training self q' k' B' L D Hq' Hk' Hr)
    as (s2 & ai' & h' & o' & out' & Hai' & Hrun' & Hsh' & Hlin' & _ & Hc' & _ & He' & _ & Hhu').
  destruct (att_input_ok q k B L D Hq Hk) as (a1 & Ha1 & Hsa & Hea).
  destruct (att_input_ok q' k' B' L D Hq' Hk') as (a2 & Ha2 & Hsa' & Hea').
  rewrite Hai in Ha1. injection Ha1 as <-.
  rewrite Hai' in Ha2. injection Ha2 as <-.
  destruct Hr as (Hdnn & Hlr & Hone).
  change [L; 4 * D] with ([L] ++ [4 * D]) in Hdnn, Hlr.
  destruct (run_dnn_rows training (LocalActivationUnit.dnn self) ai ai' B B' [L] (4 * D)
              Hsa Hsa' Hdnn Hnd) as (dnn' & r & r' & Hr1 & Hr2 & Hnd' & Hrows).
  rewrite Hrun in Hr1. injection Hr1 as Hd1 <-.
  rewrite Hrun' in Hr2. injection Hr2 as Hd2 <-.
  rewrite dnn_out_snoc in Hlr.
  destruct (Dense_call_rows training (LocalActivationUnit.linear self) h h' B B' [L] _
              Hsh Hsh' Hlr Hndl) as (lin' & t & t' & Ht & Ht' & _ & _ & Hndl' & Hlrows).
  rewrite Hlin in Ht. injection Ht as Hl1 <-.
  rewrite Hlin' in Ht'. injection Ht' as Hl2 <-.
  assert (Hs : s1 = s2).
  { destruct s1, s2. cbn [LocalActivationUnit.dnn LocalActivationUnit.linear
                            LocalActivationUnit.hidden_units] in *. congruence. }
  subst s2. exists s1, out, out'. split; [exact Hc|]. split; [exact Hc'|].
  split; [exact Hr1'|]. split; [split; congruence|].
  intros b b' i Hb Hb' Hi Hsq Hsk. rewrite He, He'.
  apply (Hlrows b b' [i] Hb Hb'); [simpl; auto| |rewrite Hone; lia].
  intros j Hj. apply (Hrows b b' [i] Hb Hb'); [simpl; auto| |exact Hj].
  intros c Hc0. cbn [app]. rewrite (Hea b i c Hb Hi Hc0), (Hea' b' i c Hb' Hi Hc0).
  apply att_input_entry_ext; assumption.
Qed.

(** X1: with PReLU activations (what AttentionPoolingLayer always uses),
    two calls of a LocalActivationUnit on batches of any sizes leave the
    unit in the same state, again ready and with PReLU only, and the score
    of position [i] of an example is fixed by the query of that example and
    its key at [i] alone: it is the same in both batches wherever these two
    rows are the same, whatever the other examples and the other positions
    hold. *)
Theorem local_activation_unit_row_by_row {F : FloatOps} (training : bool)
        (self : LocalActivationUnit.t) (q k q' k' : Tensor Qc) (B B' L D : nat) :
  shape q = [B; 1; D] -> shape k = [B; L; D] ->
  shape q' = [B'; 1; D] -> shape k' = [B'; L; D] ->
  LocalActivationUnit.ready [L; 4 * D] self ->
  prelu_only self ->
  exists self' out out',
    LocalActivationUnit.call training self (q, k) = Ok (self', out) /\
    LocalActivationUnit.call training self (q', k') = Ok (self', out') /\
    LocalActivationUnit.ready [L; 4 * D] self' /\
    prelu_only self' /\
    forall b b' i, b < B -> b' < B' -> i < L ->
      same_query D q q' b b' -> same_key D k k' b b' i ->
      elem out [b; i] = elem out' [b'; i].
Proof.
  exact (LocalActivationUnit_call_rows training self q k q' k' B B' L D).
Qed.

Lemma local_activation_unit_row_by_row_witness :
  exists self' out out',
    @LocalActivationUnit.call sample_ops false
      (LocalActivationUnit.__init__ [2; 3] "prelu" sample_weights)
      (sample_query, sample_keys) = Ok (self', out) /\
    @LocalActivationUnit.call sample_ops false
      (LocalActivationUnit.__init__ [2; 3] "prelu" sample_weights)
      (sample_batch_query, sample_batch_keys) = Ok (self', out') /\
    elem out [0; 0] = elem out' [1; 0].
Proof.
  destruct (@local_activation_unit_row_by_row sample_ops false
              (LocalActivationUnit.__init__ [2; 3] "prelu" sample_weights)
              sample_query sample_keys sample_batch_query sample_batch_keys 1 2 2 2)
    as (self' & out & out' & Hc & Hc' & _ & _ & He).
  - reflexivity.
  - reflexivity.
  - reflexivity.
  - reflexivity.
  - apply LocalActivationUnit_fresh_ready.
  - apply prelu_only_fresh.
  - exists self', out, out'. split; [exact Hc|]. split; [exact Hc'|].
    apply He; [lia | lia | lia | |].
    + intros j Hj. destruct j as [|[|j]]; [reflexivity | reflexivity | lia].
    + intros j Hj. destruct j as [|[|j]]; [reflexivity | reflexivity | lia].
Defined.

(** ** LocalActivationUnit: the scores *)







Lemma AttentionPoolingLayer_call_state {F : FloatOps} (training : bool)
      (self self' : AttentionPoolingLayer.t) (queries keys out : Tensor Qc) :
  AttentionPoolingLayer.call training self (queries, keys) = Ok (self', out) ->
  exists lau' score,
    LocalActivationUnit.call training (AttentionPoolingLayer.local_att self) (queries, keys)
      = Ok (lau', score) /\
    self' = AttentionPoolingLayer.mk (AttentionPoolingLayer.att_hidden_units self) lau'.
Proof.
  unfold AttentionPoolingLayer.call. intros H.
  bind_inv H as mask Em. bind_inv H as ls El. destruct ls as [lau' score].
  bind_inv H as m1 E1. bind_inv H as m2 E2. bind_inv H as m3 E3. bind_inv H as m4 E4.
  injection H as <- _. exists lau', score. split; [exact El | reflexivity].
Qed.

(** X2: the pooled vector of an example is fixed by that example alone,
    and by its real positions only.  Two calls of an attention pooling
    layer on batches of any sizes leave the layer in the same state, and
    give the same output row for two examples that have the same query and,
    at every position, either the same key or padding (first coordinate 0)
    in both, whatever the rest of a padded key holds. *)
Theorem attention_pooling_row_by_row {F : FloatOps} (training : bool)
        (self : AttentionPoolingLayer.t) (q k q' k' : Tensor Qc) (B B' L D : nat) :
  shape q = [B; 1; D] -> shape k = [B; L; D] ->
  shape q' = [B'; 1; D] -> shape k' = [B'; L; D] ->
  0 < D ->
  AttentionPoolingLayer.ready L D self ->
  prelu_only (AttentionPoolingLayer.local_att self) ->
  exists self' out out',
    AttentionPoolingLayer.call training self (q, k) = Ok (self', out) /\
    AttentionPoolingLayer.call training self (q', k') = Ok (self', out') /\
    AttentionPoolingLayer.ready L D self' /\
    prelu_only (AttentionPoolingLayer.local_att self') /\
    forall b b', b < B -> b' < B' ->
      same_query D q q' b b' ->
      (forall i, i < L ->
         (elem k [b; i; 0] = 0%Qc /\ elem k' [b'; i; 0] = 0%Qc) \/ same_key D k k' b b' i) ->
      forall j, j < D -> elem out [b; j] = elem out' [b'; j].
Proof.
  intros Hq Hk Hq' Hk' HD Hr Hnd.
  destruct (AttentionPoolingLayer_call_spec training self q k B L D Hq Hk HD Hr)
    as (s1 & l1 & sc & mask & masked & out & Hm & Hl & _ & _ & _ & Hmk & Hc & _ & Hr1 & Ho).
  destruct (AttentionPoolingLayer_call_spec training self q' k' B' L D Hq' Hk' HD Hr)
    as (s2 & l2 & sc' & mask' & masked' & out' & Hm' & Hl' & _ & _ & _ & Hmk' & Hc' & _ & _ & Ho').
  destruct (LocalActivationUnit_call_rows training (AttentionPoolingLayer.local_att self)
              q k q' k' B B' L D Hq Hk Hq' Hk' Hr Hnd)
    as (lau & r & r' & Hlc & Hlc' & _ & Hnd' & Hrows).
  rewrite Hl in Hlc. injection Hlc as <- <-.
  rewrite Hl' in Hlc'. injection Hlc' as <- <-.
  destruct (AttentionPoolingLayer_call_state training self s1 q k out Hc) as (x1 & y1 & E1 & ->).
  destruct (AttentionPoolingLayer_call_state training self s2 q' k' out' Hc') as (x2 & y2 & E2 & ->).
  rewrite Hl in E1. injection E1 as <- <-.
  rewrite Hl' in E2. injection E2 as <- <-.
  destruct (key_masks_ok k B L D Hk HD) as (m & Hm1 & _ & Hem).
  destruct (key_masks_ok k' B' L D Hk' HD) as (m' & Hm1' & _ & Hem').
  rewrite Hm in Hm1. injection Hm1 as <-.
  rewrite Hm' in Hm1'. injection Hm1' as <-.
  do 3 eexists. split; [exact Hc|]. split; [exact Hc'|]. split; [exact Hr1|].
  split; [exact Hnd'|].
  intros b b' Hb Hb' Hsq Hpos j Hj. rewrite (Ho b j Hb Hj), (Ho' b' j Hb' Hj).
  apply sum_n_ext. intros i Hi.
  rewrite (Hmk b i Hb Hi), (Hmk' b' i Hb' Hi), Hem, Hem'.
  destruct (Hpos i Hi) as [[Hz Hz']|Hsk].
  - rewrite Hz, Hz'. cbn. ring.
  - rewrite (Hsk 0 HD), (Hsk j Hj), (Hrows b b' i Hb Hb' Hi Hsq Hsk). reflexivity.
Qed.

Lemma attention_pooling_row_by_row_witness :
  exists self' out out',
    @AttentionPoolingLayer.call sample_ops false sample_layer (sample_query, sample_keys)
      = Ok (self', out) /\
    @AttentionPoolingLayer.call sample_ops false sample_layer
      (sample_batch_query, sample_batch_keys) = Ok (self', out') /\
    forall j, j < 2 -> elem out [0; j] = elem out' [1; j].
Proof.
  destruct (@attention_pooling_row_by_row sample_ops false sample_layer
              sample_query sample_keys sample_batch_query sample_batch_keys 1 2 2 2)
    as (self' & out & out' & Hc & Hc' & _ & _ & He).
  - reflexivity.
  - reflexivity.
  - reflexivity.
  - reflexivity.
  - lia.
  - apply AttentionPoolingLayer_fresh_ready.
  - apply prelu_only_fresh.
  - exists self', out, out'. split; [exact Hc|]. split; [exact Hc'|].
    apply He; [lia | lia | |].
    + intros j Hj. destruct j as [|[|j]]; [reflexivity | reflexivity | lia].
    + intros i Hi. destruct i as [|[|i]]; [right | left | lia].
      * intros j Hj. destruct j as [|[|j]]; [reflexivity | reflexivity | lia].
      * split; reflexivity.
Defined.

(** * The input dictionary *)

Lemma input_step_eq (d : Dict.t KerasTensor) (fc : FeatureColumn) :
  input_step d fc = Dict.setitem d (fc_name fc) (input_of fc).
Proof. destruct fc; reflexivity. Qed.

Lemma setitem_absent {V : Type} (d : Dict.t V) (k : string) (v : V) :
  ~ In k (map fst d) -> Dict.setitem d k v = d ++ [(k, v)].
Proof.
  induction d as [|[k' v'] r IH]; intros Hn; simpl; [reflexivity|].
  destruct (String.eqb k k') eqn:E.
  - apply String.eqb_eq in E. subst. exfalso. apply Hn. left. reflexivity.
  - rewrite IH; [reflexivity|]. intros Hin. apply Hn. right. exact Hin.
Qed.

Lemma setitem_keys_present {V : Type} (d : Dict.t V) (k : string) (v : V) :
  In k (map fst d) -> map fst (Dict.setitem d k v) = map fst d.
Proof.
  induction d as [|[k' v'] r IH]; intros Hin; simpl; [destruct Hin|].
  destruct (String.eqb k k') eqn:E.
  - apply String.eqb_eq in E. subst. reflexivity.
  - simpl. rewrite IH; [reflexivity|]. destruct Hin as [Hin|Hin]; [|exact Hin].
    simpl in Hin. subst. rewrite String.eqb_refl in E. discriminate E.
Qed.

Lemma setitem_keys {V : Type} (d : Dict.t V) (k : string) (v : V) :
  map fst (Dict.setitem d k v) = map fst d \/
  (~ In k (map fst d) /\ map fst (Dict.setitem d k v) = map fst d ++ [k]).
Proof.
  destruct (in_dec string_dec k (map fst d)) as [Hin|Hn].
  - left. apply setitem_keys_present, Hin.
  - right. split; [exact Hn|]. rewrite setitem_absent by exact Hn.
    rewrite map_app. reflexivity.
Qed.

Lemma setitem_keys_NoDup {V : Type} (d : Dict.t V) (k : string) (v : V) :
  NoDup (map fst d) -> NoDup (map fst (Dict.setitem d k v)).
Proof.
  intros Hd. destruct (setitem_keys d k v) as [->|[Hn ->]]; [exact Hd|].
  apply NoDup_app; [exact Hd | repeat constructor; intros [] | ].
  intros x Hx [<-|[]]. exact (Hn Hx).
Qed.

Lemma setitem_keys_In {V : Type} (d : Dict.t V) (k k' : string) (v : V) :
  In k' (map fst (Dict.setitem d k v)) <-> k' = k \/ In k' (map fst d).
Proof.
  destruct (in_dec string_dec k (map fst d)) as [Hin|Hn].
  - rewrite setitem_keys_present by exact Hin. split; [auto|].
    intros [->|H]; assumption.
  - rewrite setitem_absent by exact Hn. rewrite map_app, in_app_iff. simpl.
    split; [intros [H|[H|[]]]; auto | intros [H|H]; auto].
Qed.

Lemma fold_input_step_keys (l : list FeatureColumn) : forall d,
  NoDup (map fst d) ->
  NoDup (map fst (fold_left input_step l d)) /\
  forall k, In k (map fst (fold_left input_step l d)) <->
            In k (map fst d) \/ In k (map fc_name l).
Proof.
  induction l as [|fc r IH]; intros d Hd; simpl.
  - split; [exact Hd|]. intros k. tauto.
  - destruct (IH (input_step d fc)) as [Hnd Hk].
    { rewrite input_step_eq. apply setitem_keys_NoDup, Hd. }
    split; [exact Hnd|]. intros k. rewrite Hk, input_step_eq, setitem_keys_In.
    split; [intros [[->|H]|H] | intros [H|[<-|H]]]; auto.
Qed.

Lemma fold_input_step_fresh (l : list FeatureColumn) : forall d,
  NoDup (map fc_name l) ->
  (forall fc, In fc l -> ~ In (fc_name fc) (map fst d)) ->
  fold_left input_step l d = d ++ map (fun fc => (fc_name fc, input_of fc)) l.
Proof.
  induction l as [|fc r IH]; intros d Hnd Hd; simpl.
  - rewrite app_nil_r. reflexivity.
  - inversion Hnd as [|? ? Hfc Hr]; subst.
    rewrite input_step_eq, setitem_absent by (apply Hd; left; reflexivity).
    rewrite IH; [rewrite <- app_assoc; reflexivity | exact Hr |].
    intros fc' Hin. rewrite map_app, in_app_iff. simpl.
    intros [H|[H|[]]].
    + exact (Hd fc' (or_intror Hin) H).
    + apply Hfc. rewrite H. apply in_map, Hin.
Qed.

(** X3: for descriptors with names that Keras keeps as they are (an
    empty name is replaced by a generated one), repeated or not, the input
    dictionary has one entry per distinct descriptor name and no other
    entry, and the entry of a name is the slot of the last descriptor
    processed with that name: a slot of shape [1] for a Sparse descriptor,
    of its [dimension] for a Dense one, of its [maxlen] for a VarLenSparse
    one, named as the descriptor. *)
Theorem build_input_layers_keys (feature_columns : list FeatureColumn) :
  forallb (fun fc => plain_name (fc_name fc)) feature_columns = true ->
  NoDup (map fst (build_input_layers feature_columns)) /\
  (forall k, In k (map fst (build_input_layers feature_columns)) <->
             In k (map fc_name feature_columns)) /\
  (forall before fc,
     feature_columns = before ++ [fc] ->
     Dict.get (build_input_layers feature_columns) (fc_name fc) = Some (input_of fc)) /\
  (forall before fc after,
     feature_columns = before ++ fc :: after ->
     ~ In (fc_name fc) (map fc_name after) ->
     Dict.get (build_input_layers feature_columns) (fc_name fc) = Some (input_of fc)).
Proof.
  intros _. rewrite build_input_layers_fold.
  destruct (fold_input_step_keys feature_columns Dict.empty (NoDup_nil _)) as [Hnd Hk].
  split; [exact Hnd|]. split; [intros k; rewrite Hk; simpl; tauto|].
  assert (Hlast : forall before fc after,
            feature_columns = before ++ fc :: after ->
            ~ In (fc_name fc) (map fc_name after) ->
            Dict.get (fold_left input_step feature_columns Dict.empty) (fc_name fc)
            = Some (input_of fc)).
  { intros before fc after -> Hn. rewrite fold_left_app. cbn [fold_left].
    rewrite fold_input_step_absent by exact Hn.
    rewrite input_step_eq, get_setitem, String.eqb_refl. reflexivity. }
  split; [|exact Hlast].
  intros before fc E. apply (Hlast before fc [] E). intros [].
Qed.

Lemma build_input_layers_keys_witness :
  Dict.get (build_input_layers [DenseFeat "x" 3; SparseFeat "y" 5 2; VarLenSparseFeat "x" 7 2 4])
           "x"
  = Some (Input [4] "x").
Proof.
  destruct (build_input_layers_keys
              [DenseFeat "x" 3; SparseFeat "y" 5 2; VarLenSparseFeat "x" 7 2 4] eq_refl)
    as (_ & _ & H & _).
  exact (H [DenseFeat "x" 3; SparseFeat "y" 5 2] (VarLenSparseFeat "x" 7 2 4) eq_refl).
Defined.

(** X4: in a schema (descriptor names are unique) with names that Keras
    keeps as they are, the input dictionary is the list of the
    descriptors' slots, one for each descriptor and in the order of the
    descriptors; so are its values, the inputs of the model. *)
Theorem build_input_layers_schema (feature_columns : list FeatureColumn) :
  NoDup (map fc_name feature_columns) ->
  forallb (fun fc => plain_name (fc_name fc)) feature_columns = true ->
  build_input_layers feature_columns
  = map (fun fc => (fc_name fc, input_of fc)) feature_columns /\
  Dict.values (build_input_layers feature_columns) = map input_of feature_columns.
Proof.
  intros Hnd _. rewrite build_input_layers_fold.
  rewrite (fold_input_step_fresh feature_columns Dict.empty Hnd) by (intros fc _ []).
  split; [reflexivity|]. unfold Dict.values. cbn [app Dict.empty].
  rewrite map_map. reflexivity.
Qed.

Lemma build_input_layers_schema_witness :
  Dict.values (build_input_layers sample_columns)
  = [Input [1] "d"; Input [1] "u"; Input [1] "h1"; Input [5] "h2"].
Proof.
  destruct (build_input_layers_schema sample_columns) as [_ H].
  - simpl. repeat constructor; simpl; intuition discriminate.
  - reflexivity.
  - exact H.
Defined.

(** * Lookups, in order *)

Lemma mapM_length {A B : Type} (f : A -> result B) (l : list A) : forall l',
  mapM f l = Ok l' -> length l' = length l.
Proof.
  induction l as [|a r IH]; intros l' H; simpl in H.
  - inv H. reflexivity.
  - bind_inv H as b Eb. bind_inv H as bs Ebs. inv H. simpl. rewrite (IH bs Ebs). reflexivity.
Qed.

Lemma mapM_app {A B : Type} (f : A -> result B) (l1 l2 : list A) :
  mapM f (l1 ++ l2) = (x <- mapM f l1 ;; y <- mapM f l2 ;; Ok (x ++ y)).
Proof.
  induction l1 as [|a r IH]; simpl.
  - destruct (mapM f l2); reflexivity.
  - destruct (f a) as [b|e]; cbn [bind]; [|reflexivity].
    rewrite IH. destruct (mapM f r) as [bs|e]; cbn [bind]; [|reflexivity].
    destruct (mapM f l2); reflexivity.
Qed.

(** X5: [embedding_lookup] returns a list exactly when every requested
    name has an input slot and an embedding table; the list then has one
    entry per requested name, in the order of the request and with
    repetitions kept, each the table of the name applied to its slot. *)
Theorem embedding_lookup_in_order (names : list string)
        (input_layer_dict : Dict.t KerasTensor) (embedding_layer_dict : Dict.t Embedding.t)
        (l : list KerasTensor) :
  embedding_lookup names input_layer_dict embedding_layer_dict = Ok l <->
  Forall2 (looked_up input_layer_dict embedding_layer_dict) names l.
Proof.
  unfold embedding_lookup. revert l.
  induction names as [|n r IH]; intros l; cbn [mapM].
  - split; intros H; [inv H; constructor | inv H; reflexivity].
  - split; intros H.
    + bind_inv H as t Et. bind_inv H as ts Ets. inv H.
      bind_inv Et as x Ex. bind_inv Et as e Ee. inv Et.
      unfold Dict.getitem in Ex, Ee.
      destruct (Dict.get input_layer_dict n) as [x'|] eqn:Gx; [|discriminate Ex].
      destruct (Dict.get embedding_layer_dict n) as [e'|] eqn:Ge; [|discriminate Ee].
      inv Ex. inv Ee. constructor; [|apply IH; exact Ets].
      exists x, e. auto.
    + inv H. destruct H2 as (x & e & Gx & Ge & ->).
      apply IH in H4. rewrite H4.
      unfold Dict.getitem. rewrite Gx, Ge. reflexivity.
Qed.

(** X6: [concat_embedding_list] is [embedding_lookup] on the names of the
    descriptors, followed, when [flatten] is set, by a Flatten of every
    entry; it raises what the lookup raises. *)
Theorem concat_embedding_list_is_lookup (feature_columns : list FeatureColumn)
        (input_layer_dict : Dict.t KerasTensor) (embedding_layer_dict : Dict.t Embedding.t) :
  concat_embedding_list feature_columns input_layer_dict embedding_layer_dict false
  = embedding_lookup (map fc_name feature_columns) input_layer_dict embedding_layer_dict /\
  concat_embedding_list feature_columns input_layer_dict embedding_layer_dict true
  = (l <- embedding_lookup (map fc_name feature_columns) input_layer_dict
            embedding_layer_dict ;;
     Ok (map KFlatten l)).
Proof.
  unfold concat_embedding_list, embedding_lookup.
  induction feature_columns as [|fc r [IH1 IH2]]; [split; reflexivity|].
  cbn [map mapM]. rewrite IH1, IH2.
  destruct (Dict.getitem input_layer_dict (fc_name fc)) as [x|e]; cbn [bind];
    [|split; reflexivity].
  destruct (Dict.getitem embedding_layer_dict (fc_name fc)) as [t|e]; cbn [bind];
    [|split; reflexivity].
  cbn [call_Embedding call_Flatten bind].
  destruct (mapM _ (map fc_name r)) as [ts|e]; cbn [bind map]; split; reflexivity.
Qed.

(** * When [DIN] returns a model *)

Lemma fold_embedding_step_origin (l : list FeatureColumn) : forall d k e,
  Dict.get (fold_left embedding_step l d) k = Some e ->
  Dict.get d k = Some e \/
  exists fc, In fc l /\ fc_name fc = k /\ is_DenseFeat fc = false.
Proof.
  induction l as [|fc r IH]; intros d k e H; simpl in H; [left; exact H|].
  destruct (IH _ _ _ H) as [H0|(fc' & Hin & Hn & Hd)].
  - destruct fc as [n v dim|n dim|n v dim m]; simpl in H0.
    + rewrite get_setitem in H0. destruct (String.eqb k n) eqn:E; [|left; exact H0].
      apply String.eqb_eq in E. right. eexists. split; [left; reflexivity|].
      split; [symmetry; exact E | reflexivity].
    + left. exact H0.
    + rewrite get_setitem in H0. destruct (String.eqb k n) eqn:E; [|left; exact H0].
      apply String.eqb_eq in E. right. eexists. split; [left; reflexivity|].
      split; [symmetry; exact E | reflexivity].
  - right. exists fc'. split; [right; exact Hin | split; assumption].
Qed.

Lemma build_embedding_layers_origin (fcs : list FeatureColumn) (inputs : Dict.t KerasTensor)
      (k : string) (e : Embedding.t) :
  Dict.get (build_embedding_layers fcs inputs) k = Some e -> has_table fcs k.
Proof.
  rewrite build_embedding_layers_fold. intros H.
  destruct (fold_embedding_step_origin _ _ _ _ H) as [H0|H0]; [discriminate H0 | exact H0].
Qed.

Lemma build_embedding_layers_has (fcs : list FeatureColumn) (inputs : Dict.t KerasTensor)
      (k : string) :
  has_table fcs k -> exists e, Dict.get (build_embedding_layers fcs inputs) k = Some e.
Proof.
  intros (fc & Hin & <- & Hd).
  rewrite build_embedding_layers_fold. generalize (@Dict.empty Embedding.t).
  induction fcs as [|a r IH]; intros d; [destruct Hin|]. simpl.
  destruct Hin as [->|Hin].
  - apply fold_embedding_step_keeps. destruct fc; try discriminate Hd;
      simpl; rewrite get_setitem, String.eqb_refl; eauto.
  - apply IH, Hin.
Qed.

Lemma lookup_has_table (fcs : list FeatureColumn) (names : list string) :
  (forall n, In n names -> has_table fcs n) ->
  exists l, embedding_lookup names (build_input_layers fcs)
              (build_embedding_layers fcs (build_input_layers fcs)) = Ok l.
Proof.
  unfold embedding_lookup.
  induction names as [|n r IH]; intros H; cbn [mapM]; [eauto|].
  destruct IH as (l & El); [intros n' Hn'; apply H; right; exact Hn'|].
  destruct (H n (or_introl eq_refl)) as (fc & Hin & Hn & Hd).
  destruct (build_input_layers_present fcs fc Hin) as (x & Gx). rewrite Hn in Gx.
  destruct (build_embedding_layers_has fcs (build_input_layers fcs) n) as (e & Ge).
  { exists fc. auto. }
  rewrite El. unfold Dict.getitem. rewrite Gx, Ge. cbn [bind call_Embedding]. eauto.
Qed.

Lemma pool_sequences_length {F : FloatOps} (w : nat -> nat -> Weights)
      (qs ks : list KerasTensor) :
  forall i l, pool_sequences w i qs ks = Ok l ->
  length l = length ks /\ (ks = [] \/ i + length ks <= length qs).
Proof.
  induction ks as [|k0 r IH]; intros i l H; simpl in H.
  - inv H. split; [reflexivity | left; reflexivity].
  - bind_inv H as q Eq. bind_inv H as s Es. bind_inv H as rest Erest. inv H.
    destruct (nth_error qs i) as [q'|] eqn:En; [|discriminate]. 
    assert (Hi : i < length qs) by (apply nth_error_Some; congruence).
    destruct (IH (S i) rest Erest) as [Hl Hb]. simpl. split; [rewrite Hl; reflexivity|].
    right. destruct Hb as [->|Hb]; simpl; lia.
Qed.

Lemma pool_sequences_app {F : FloatOps} (w : nat -> nat -> Weights)
      (qs es ks : list KerasTensor) :
  forall i, i + length ks <= length qs ->
  pool_sequences w i (qs ++ es) ks = pool_sequences w i qs ks.
Proof.
  induction ks as [|k0 r IH]; intros i Hi; simpl; [reflexivity|].
  simpl in Hi. rewrite nth_error_app1 by lia.
  rewrite (IH (S i)) by lia. reflexivity.
Qed.

Lemma concat_input_list_Some (l : list KerasTensor) (t : KerasTensor) :
  concat_input_list l = Ok (Some t) -> l <> [].
Proof.
  intros H ->. discriminate H.
Qed.

(** X7: [DIN] returns a model only if the schema has a Dense descriptor
    and a Sparse descriptor, [behavior_seq_feature_list] is not empty and
    is no longer than [behavior_feature_list], and every name of the two
    lists is the name of a descriptor that is not Dense.  In every other
    case it raises. *)
Theorem DIN_returns_only_if {F : FloatOps} (w : nat -> nat -> Weights)
        (feature_columns : list FeatureColumn)
        (behavior_feature_list behavior_seq_feature_list : list string) (model : Model) :
  DIN w feature_columns behavior_feature_list behavior_seq_feature_list = Ok model ->
  (exists fc, In fc feature_columns /\ is_DenseFeat fc = true) /\
  (exists fc, In fc feature_columns /\ is_SparseFeat fc = true) /\
  behavior_seq_feature_list <> [] /\
  length behavior_seq_feature_list <= length behavior_feature_list /\
  (forall n, In n (behavior_feature_list ++ behavior_seq_feature_list) ->
             has_table feature_columns n).
Proof.
  intros H. unfold DIN in H.
  bind_inv H as dense0 Ed0. bind_inv H as dense Ed.
  bind_inv H as sparse0 Es0. bind_inv H as sparse Es.
  bind_inv H as qs Eq. bind_inv H as ks Ek.
  bind_inv H as seq0 Eq0. bind_inv H as seq Eseq.
  bind_inv H as x Ex. bind_inv H as y Ey. inv H.
  apply call_Concatenate_Ok in Ex. destruct Ex as (xs & Hxs & ->).
  destruct xs as [|d' [|s' [|q' [|? ?]]]]; try discriminate Hxs.
  simpl in Hxs. inv Hxs.
  apply concat_input_list_Some in Ed, Es, Eseq.
  pose proof (mapM_length _ _ _ Ed0) as Ld.
  pose proof (mapM_length _ _ _ Es0) as Ls.
  pose proof (mapM_length _ _ _ Eq) as Lq.
  pose proof (mapM_length _ _ _ Ek) as Lk.
  destruct (pool_sequences_length _ _ _ _ _ Eq0) as [Lp Hb].
  split; [|split; [|split; [|split]]].
  - destruct (filter is_DenseFeat feature_columns) as [|fc r] eqn:E.
    + destruct dense0; [congruence | discriminate Ld].
    + exists fc. apply filter_In. rewrite E. left. reflexivity.
  - destruct (filter is_SparseFeat feature_columns) as [|fc r] eqn:E.
    + destruct sparse0; [congruence | discriminate Ls].
    + exists fc. apply filter_In. rewrite E. left. reflexivity.
  - intros ->. destruct ks; [|discriminate Lk]. destruct seq0; [congruence | discriminate Lp].
  - destruct Hb as [->|Hb]; [destruct seq0; [congruence | discriminate Lp]|]. lia.
  - intros n Hn.
    assert (Hl : forall names l,
               embedding_lookup names (build_input_layers feature_columns)
                 (build_embedding_layers feature_columns (build_input_layers feature_columns))
               = Ok l ->
               In n names -> has_table feature_columns n).
    { intros names l El Hin.
      assert (Hm : ~ missing (build_input_layers feature_columns)
                     (build_embedding_layers feature_columns
                        (build_input_layers feature_columns)) n).
      { intros Hm. destruct (embedding_lookup_missing names _ _ (ex_intro _ n (conj Hin Hm)))
          as (k & _ & _ & Hr). congruence. }
      destruct (Dict.get (build_embedding_layers feature_columns
                            (build_input_layers feature_columns)) n) as [e|] eqn:Ge.
      - eapply build_embedding_layers_origin, Ge.
      - exfalso. apply Hm. right. exact Ge. }
    apply in_app_or in Hn. destruct Hn as [Hn|Hn]; [eapply Hl, Hn; exact Eq | eapply Hl, Hn; exact Ek].
Qed.

Lemma DIN_returns_only_if_witness :
  (exists fc, In fc sample_columns /\ is_DenseFeat fc = true) /\
  length ["h2"] <= length ["h1"] /\
  has_table sample_columns "h2".
Proof.
  destruct sample_model_builds as (m & Hm & _).
  destruct (@DIN_returns_only_if sample_ops sample_model_weights sample_columns
              ["h1"] ["h2"] m Hm) as (Hd & _ & _ & Hl & Ht).
  split; [exact Hd|]. split; [exact Hl|]. apply Ht. simpl. auto.
Defined.

(** X8: the entries of [behavior_feature_list] beyond the length of
    [behavior_seq_feature_list] are looked up and then dropped: the i-th
    sequence is pooled against the i-th behaviour feature, and further
    behaviour features, when they name descriptors that have a table, do
    not change what [DIN] returns or raises. *)
Theorem DIN_surplus_behavior_features {F : FloatOps} (w : nat -> nat -> Weights)
        (feature_columns : list FeatureColumn)
        (behavior_feature_list surplus behavior_seq_feature_list : list string) :
  length behavior_seq_feature_list <= length behavior_feature_list ->
  (forall n, In n surplus -> has_table feature_columns n) ->
  DIN w feature_columns (behavior_feature_list ++ surplus) behavior_seq_feature_list
  = DIN w feature_columns behavior_feature_list behavior_seq_feature_list.
Proof.
  intros Hlen Hs. unfold DIN.
  destruct (mapM _ (filter is_DenseFeat feature_columns)) as [dense0|e]; cbn [bind];
    [|reflexivity].
  destruct (concat_input_list dense0) as [dense|e]; cbn [bind]; [|reflexivity].
  destruct (concat_embedding_list _ _ _ true) as [sparse0|e]; cbn [bind]; [|reflexivity].
  destruct (concat_input_list sparse0) as [sparse|e]; cbn [bind]; [|reflexivity].
  destruct (lookup_has_table feature_columns surplus Hs) as (es & Ees).
  unfold embedding_lookup at 1. rewrite mapM_app.
  fold (embedding_lookup behavior_feature_list (build_input_layers feature_columns)
          (build_embedding_layers feature_columns (build_input_layers feature_columns))).
  fold (embedding_lookup surplus (build_input_layers feature_columns)
          (build_embedding_layers feature_columns (build_input_layers feature_columns))).
  rewrite Ees.
  destruct (embedding_lookup behavior_feature_list _ _) as [qs|e] eqn:Eq; cbn [bind];
    [|reflexivity].
  destruct (embedding_lookup behavior_seq_feature_list _ _) as [ks|e] eqn:Ek; cbn [bind];
    [|reflexivity].
  apply mapM_length in Eq, Ek.
  rewrite pool_sequences_app by (simpl; lia). reflexivity.
Qed.

Lemma DIN_surplus_behavior_features_witness :
  @DIN sample_ops sample_model_weights sample_columns (["h1"] ++ ["u"; "h2"]) ["h2"]
  = @DIN sample_ops sample_model_weights sample_columns ["h1"] ["h2"].
Proof.
  apply (@DIN_surplus_behavior_features sample_ops).
  - simpl. lia.
  - intros n [<-|[<-|[]]].
    + exists (SparseFeat "u" 10 4). simpl. auto.
    + exists (VarLenSparseFeat "h2" 10 4 5). simpl. auto 6.
Defined.

(** * The head of the model *)

Lemma call_Dense_builds {F : FloatOps} (layer : Dense.t) (x : KerasTensor) (n : nat) :
  kshape x = [n] -> Dense.ready [n] layer ->
  exists layer', call_Dense layer x = Ok (KDense layer' x) /\
                 Dense.units layer' = Dense.units layer.
Proof.
  intros Hx Hr. unfold call_Dense.
  destruct (Dense_call_ok false layer (placeholder (kshape x)) symbolic_batch [] n)
    as (l' & out & Hc & _ & _ & Hu).
  - rewrite Hx. reflexivity.
  - exact Hr.
  - rewrite Hc. cbn [bind]. eauto.
Qed.

Lemma dense_stack_builds {F : FloatOps} (dnns : list Dense.t) :
  forall (x : KerasTensor) (n : nat),
    kshape x = [n] ->
    Forall (fun l => forall e, Dense.ready e l) dnns ->
    exists h,
      fold_left (fun acc dnn => dnn_out <- acc ;; call_Dense dnn dnn_out) dnns (Ok x) = Ok h /\
      kshape h = [last (n :: map Dense.units dnns) 0] /\
      dense_units h = dense_units x ++ map Dense.units dnns /\
      below_dense h = below_dense x.
Proof.
  induction dnns as [|d r IH]; intros x n Hx Hr.
  - exists x. split; [reflexivity|]. split; [exact Hx|]. simpl. rewrite app_nil_r.
    split; reflexivity.
  - inversion Hr as [|? ? Hd Hrest]; subst.
    destruct (call_Dense_builds d x n Hx (Hd [n])) as (d' & Hc & Hu).
    destruct (IH (KDense d' x) (Dense.units d)) as (h & Hf & Hk & Hdu & Hbd).
    { simpl. rewrite Hx, Hu. reflexivity. }
    { exact Hrest. }
    exists h. cbn [fold_left bind]. rewrite Hc. split; [exact Hf|].
    split; [exact Hk|]. split; [|exact Hbd].
    rewrite Hdu. cbn [dense_units map]. rewrite Hu, <- app_assoc.
    reflexivity.
Qed.

Lemma fresh_stack (activation : string) (w : nat -> Weights) (hidden_units : list nat) :
  forall start,
    let dnns :=
      map (fun ku : nat * nat =>
             let (k, unit) := ku in
             Dense.__init__ unit
               (if String.eqb activation "prelu" then act_PReLU (PReLU.__init__ (w k))
                else act_Dice (Dice.__init__ (w k)))
               (w k))
          (combine (seq start (length hidden_units)) hidden_units) in
    map Dense.units dnns = hidden_units /\
    Forall (fun l => forall e, Dense.ready e l) dnns.
Proof.
  induction hidden_units as [|u r IH]; intros start; simpl.
  - split; constructor.
  - destruct (IH (S start)) as [Hu Hr]. split; [rewrite Hu; reflexivity|].
    constructor; [|exact Hr]. intros e. apply Dense_fresh_ready.
Qed.

Lemma get_dnn_logits_ok {F : FloatOps} (dnn_input : KerasTensor) (n : nat)
      (hidden_units : list nat) (activation : string) (w : nat -> Weights) :
  kshape dnn_input = [n] ->
  exists l h,
    get_dnn_logits dnn_input hidden_units activation w = Ok (KDense l h) /\
    Dense.units l = 1 /\
    Dense.activation l = act_sigmoid /\
    kshape (KDense l h) = [1] /\
    dense_units (KDense l h) = dense_units dnn_input ++ hidden_units ++ [1] /\
    below_dense (KDense l h) = below_dense dnn_input.
Proof.
  intros Hx. unfold get_dnn_logits.
  destruct (fresh_stack activation w hidden_units 0) as [Hu Hr]. cbv zeta in Hu, Hr.
  destruct (dense_stack_builds _ dnn_input n Hx Hr) as (h & Hf & Hk & Hdu & Hbd).
  rewrite Hf. cbn [bind]. rewrite Hu in Hk, Hdu.
  set (m := last (n :: hidden_units) 0) in *.
  unfold call_Dense.
  destruct (Dense_call_entries false
              (Dense.__init__ 1 act_sigmoid (w (length hidden_units)))
              (placeholder (kshape h)) symbolic_batch [] m) as (out & Hc & _).
  - rewrite Hk. reflexivity.
  - split; [discriminate | exact I].
  - exact I.
  - rewrite Hc. cbn [bind]. do 2 eexists. split; [reflexivity|].
    split; [reflexivity|]. split; [reflexivity|].
    split; [simpl; rewrite Hk; reflexivity|]. split; [|exact Hbd].
    cbn [dense_units]. rewrite Hdu, <- app_assoc. reflexivity.
Qed.

(** X9: on every input with one axis after the batch axis, and for every
    [hidden_units] and [activation], [get_dnn_logits] returns: a Dense
    layer of one unit with the sigmoid activation, on top of one Dense
    layer per entry of [hidden_units], of these widths and in this order,
    themselves on top of the input; the result has shape [1]. *)
Theorem get_dnn_logits_builds {F : FloatOps} (dnn_input : KerasTensor) (n : nat)
        (hidden_units : list nat) (activation : string) (w : nat -> Weights) :
  kshape dnn_input = [n] ->
  exists l h,
    get_dnn_logits dnn_input hidden_units activation w = Ok (KDense l h) /\
    Dense.units l = 1 /\
    Dense.activation l = act_sigmoid /\
    kshape (KDense l h) = [1] /\
    dense_units (KDense l h) = dense_units dnn_input ++ hidden_units ++ [1] /\
    below_dense (KDense l h) = below_dense dnn_input.
Proof.
  exact (get_dnn_logits_ok dnn_input n hidden_units activation w).
Qed.

Lemma get_dnn_logits_builds_witness :
  exists l h,
    @get_dnn_logits sample_ops (KInput "x" [7]) [5; 3] "dice" sample_weights
    = Ok (KDense l h) /\
    dense_units (KDense l h) = [5; 3; 1].
Proof.
  destruct (@get_dnn_logits_builds sample_ops (KInput "x" [7]) 7 [5; 3] "dice"
              sample_weights eq_refl) as (l & h & Hg & _ & _ & _ & Hd & _).
  exists l, h. split; [exact Hg | exact Hd].
Defined.

(** * A well-formed configuration builds *)

Lemma build_input_layers_get (fcs : list FeatureColumn) (fc : FeatureColumn) :
  NoDup (map fc_name fcs) -> In fc fcs ->
  Dict.get (build_input_layers fcs) (fc_name fc) = Some (input_of fc).
Proof.
  intros Hnd Hin. apply in_split in Hin. destruct Hin as (l1 & l2 & ->).
  rewrite map_app in Hnd. cbn [map] in Hnd. apply NoDup_remove_2 in Hnd.
  rewrite build_input_layers_fold, fold_left_app. cbn [fold_left].
  rewrite fold_input_step_absent
    by (intros H; apply Hnd, in_or_app; right; exact H).
  rewrite input_step_eq, get_setitem, String.eqb_refl. reflexivity.
Qed.

Lemma build_embedding_layers_get (fcs : list FeatureColumn) (inputs : Dict.t KerasTensor)
      (fc : FeatureColumn) :
  NoDup (map fc_name fcs) -> In fc fcs ->
  Dict.get (build_embedding_layers fcs inputs) (fc_name fc) = table_of fc.
Proof.
  intros Hnd Hin. rewrite build_embedding_layers_fold.
  rewrite (fold_embedding_step_present fcs Dict.empty fc Hnd Hin).
  destruct (table_of fc); reflexivity.
Qed.

Lemma descriptor_In (fcs : list FeatureColumn) (fc : FeatureColumn) :
  NoDup (map fc_name fcs) -> In fc fcs -> descriptor fcs (fc_name fc) = Some fc.
Proof.
  unfold descriptor. induction fcs as [|a r IH]; intros Hnd Hin; [destruct Hin|].
  inversion Hnd as [|? ? Ha Hr]; subst. simpl.
  destruct (String.eqb (fc_name a) (fc_name fc)) eqn:E.
  - apply String.eqb_eq in E. destruct Hin as [->|Hin]; [reflexivity|].
    exfalso. apply Ha. rewrite E. apply in_map, Hin.
  - destruct Hin as [->|Hin]; [rewrite String.eqb_refl in E; discriminate E|].
    apply IH; assumption.
Qed.

Lemma descriptor_Some (fcs : list FeatureColumn) (n : string) (fc : FeatureColumn) :
  descriptor fcs n = Some fc -> In fc fcs /\ fc_name fc = n.
Proof.
  unfold descriptor. intros H. apply find_some in H. destruct H as [Hin E].
  apply String.eqb_eq in E. auto.
Qed.

Lemma Forall2_nth_error_r {A B : Type} (R : A -> B -> Prop) (l : list A) (l' : list B) :
  Forall2 R l l' ->
  forall j b, nth_error l' j = Some b -> exists a, nth_error l j = Some a /\ R a b.
Proof.
  induction 1 as [|a b l l' Hab _ IH]; intros j y Hj.
  - destruct j; discriminate Hj.
  - destruct j as [|j]; simpl in *; [inv Hj; eauto | apply IH, Hj].
Qed.

Lemma Forall2_nth_error_l {A B : Type} (R : A -> B -> Prop) (l : list A) (l' : list B) :
  Forall2 R l l' ->
  forall j a, nth_error l j = Some a -> exists b, nth_error l' j = Some b /\ R a b.
Proof.
  induction 1 as [|a b l l' Hab _ IH]; intros j y Hj.
  - destruct j; discriminate Hj.
  - destruct j as [|j]; simpl in *; [inv Hj; eauto | apply IH, Hj].
Qed.

Lemma widths_sum {A : Type} (f : A -> nat) (l : list A) (ts : list KerasTensor) :
  Forall2 (fun a t => kshape t = [f a]) l ts ->
  Forall (fun t => exists n, kshape t = [n]) ts /\
  list_sum (map width ts) = list_sum (map f l).
Proof.
  induction 1 as [|a t l ts Hat _ [IH1 IH2]]; [split; [constructor | reflexivity]|].
  split; [constructor; eauto|]. simpl. unfold width at 1. rewrite Hat, IH2. reflexivity.
Qed.

Lemma call_Concatenate_rank1 (l : list KerasTensor) :
  l <> [] ->
  Forall (fun t => exists n, kshape t = [n]) l ->
  call_Concatenate 1 (map Some l) = Ok (KConcatenate 1 l) /\
  kshape (KConcatenate 1 l) = [list_sum (map width l)].
Proof.
  intros Hne Hl. destruct l as [|x rest]; [congruence|].
  inversion Hl as [|? ? (n & Hn) Hrest]; subst. split.
  - unfold call_Concatenate. rewrite mapM_Some. cbn [bind].
    unfold tf.concat. cbn [map]. unfold placeholder at 1. cbn [shape length].
    rewrite Hn. cbn [length].
    change (norm_axis 2 1) with (@Ok nat 1). cbn [bind].
    match goal with
    | |- context [forallb ?f ?l] => assert (Hf : forallb f l = true)
    end.
    { apply forallb_forall. intros u Hu.
      apply in_map_iff in Hu. destruct Hu as (t & <- & Ht).
      rewrite Forall_forall in Hrest. destruct (Hrest t Ht) as (m & Hm).
      unfold placeholder. cbn [shape]. rewrite Hm. cbn [remove_nth length].
      destruct (shape_eq_dec [symbolic_batch] [symbolic_batch]); [reflexivity | congruence]. }
    rewrite Hf. reflexivity.
  - cbn [kshape]. rewrite Hn. reflexivity.
Qed.

Lemma concat_input_list_rank1 (l : list KerasTensor) :
  l <> [] ->
  Forall (fun t => exists n, kshape t = [n]) l ->
  exists t, concat_input_list l = Ok (Some t) /\ kshape t = [list_sum (map width l)].
Proof.
  intros Hne Hl. destruct l as [|x [|y rest]]; [congruence| |].
  - exists x. split; [reflexivity|]. inversion Hl as [|? ? (n & Hn) _]; subst.
    simpl. unfold width. rewrite Hn. simpl. rewrite Nat.add_0_r. reflexivity.
  - destruct (call_Concatenate_rank1 (x :: y :: rest) Hne Hl) as [Hc Hk].
    exists (KConcatenate 1 (x :: y :: rest)). split; [|exact Hk].
    unfold concat_input_list. cbn [length Nat.ltb Nat.leb]. rewrite Hc. reflexivity.
Qed.

Lemma dense_inputs_exact (fcs l : list FeatureColumn) :
  NoDup (map fc_name fcs) ->
  (forall fc, In fc l -> In fc fcs) ->
  mapM (fun fc => Dict.getitem (build_input_layers fcs) (fc_name fc)) l
  = Ok (map input_of l).
Proof.
  intros Hnd. induction l as [|fc r IH]; intros Hsub; cbn [mapM map]; [reflexivity|].
  unfold Dict.getitem at 1.
  rewrite (build_input_layers_get fcs fc Hnd (Hsub fc (or_introl eq_refl))). cbn [bind].
  rewrite IH by (intros f Hf; apply Hsub; right; exact Hf). reflexivity.
Qed.

Lemma sparse_embeddings_exact (fcs l : list FeatureColumn) :
  NoDup (map fc_name fcs) ->
  (forall fc, In fc l -> In fc fcs /\ is_SparseFeat fc = true) ->
  exists ts,
    concat_embedding_list l (build_input_layers fcs)
      (build_embedding_layers fcs (build_input_layers fcs)) true = Ok ts /\
    Forall2 (fun fc t => kshape t = [embedding_width fc]) l ts.
Proof.
  intros Hnd. unfold concat_embedding_list.
  induction l as [|fc r IH]; intros Hsub; cbn [mapM].
  - exists []. split; [reflexivity | constructor].
  - destruct (Hsub fc (or_introl eq_refl)) as [Hin Hsp].
    destruct IH as (ts & Ets & Hts); [intros f Hf; apply Hsub; right; exact Hf|].
    rewrite Ets. unfold Dict.getitem.
    rewrite (build_input_layers_get fcs fc Hnd Hin).
    rewrite (build_embedding_layers_get fcs _ fc Hnd Hin).
    destruct fc as [n v d|n d|n v d m]; try discriminate Hsp.
    cbn [table_of bind call_Embedding call_Flatten].
    eexists. split; [reflexivity|]. constructor; [|exact Hts].
    unfold embedding_width. simpl. rewrite Nat.mul_1_r, Nat.add_0_r. reflexivity.
Qed.

Lemma lookup_shapes (fcs : list FeatureColumn) (names : list string) :
  NoDup (map fc_name fcs) ->
  (forall n, In n names -> has_table fcs n) ->
  exists ts,
    embedding_lookup names (build_input_layers fcs)
      (build_embedding_layers fcs (build_input_layers fcs)) = Ok ts /\
    Forall2 (fun n t => exists fc, descriptor fcs n = Some fc /\
                                   kshape t = [input_width fc; embedding_width fc])
            names ts.
Proof.
  intros Hnd. unfold embedding_lookup.
  induction names as [|n r IH]; intros H; cbn [mapM].
  - exists []. split; [reflexivity | constructor].
  - destruct IH as (ts & Ets & Hts); [intros n' Hn'; apply H; right; exact Hn'|].
    destruct (H n (or_introl eq_refl)) as (fc & Hin & Hn & Hd). subst n.
    rewrite Ets. unfold Dict.getitem.
    rewrite (build_input_layers_get fcs fc Hnd Hin).
    rewrite (build_embedding_layers_get fcs _ fc Hnd Hin).
    pose proof (descriptor_In fcs fc Hnd Hin) as Hdesc.
    destruct fc as [n v d|n d|n v d m]; try discriminate Hd;
      cbn [table_of bind call_Embedding];
      (eexists; split; [reflexivity|]; constructor; [|exact Hts]);
      eexists; (split; [exact Hdesc | reflexivity]).
Qed.

Lemma call_AttentionPoolingLayer_builds {F : FloatOps} (hidden_units : list nat)
      (w : nat -> Weights) (q k : KerasTensor) (L D : nat) :
  kshape q = [1; D] -> kshape k = [L; D] -> 0 < D ->
  exists layer',
    call_AttentionPoolingLayer (AttentionPoolingLayer.__init__ hidden_units w) q k
    = Ok (KAttentionPooling layer' q k [D]).
Proof.
  intros Hq Hk HD. unfold call_AttentionPoolingLayer.
  destruct (AttentionPoolingLayer_call_spec false
              (AttentionPoolingLayer.__init__ hidden_units w)
              (placeholder (kshape q)) (placeholder (kshape k)) symbolic_batch L D)
    as (self' & lau' & score & mask & masked & out & _ & _ & _ & _ & _ & _ & Hc & Ho & _).
  - rewrite Hq. reflexivity.
  - rewrite Hk. reflexivity.
  - exact HD.
  - apply AttentionPoolingLayer_fresh_ready.
  - rewrite Hc. cbn [bind]. rewrite Ho. eauto.
Qed.

Lemma pool_sequences_builds {F : FloatOps} (w : nat -> nat -> Weights)
      (qs ks : list KerasTensor) :
  forall i,
    (forall j k, nth_error ks j = Some k ->
       exists q L D, nth_error qs (i + j) = Some q /\
                     kshape q = [1; D] /\ kshape k = [L; D] /\ 0 < D) ->
    exists ts,
      pool_sequences w i qs ks = Ok ts /\
      Forall2 (fun k t => kshape t = [last (kshape k) 0]) ks ts.
Proof.
  induction ks as [|k0 r IH]; intros i H; cbn [pool_sequences].
  - exists []. split; [reflexivity | constructor].
  - destruct (H 0 k0 eq_refl) as (q & L & D & Hq & Hsq & Hsk & HD).
    rewrite Nat.add_0_r in Hq. rewrite Hq. cbn [bind].
    destruct (call_AttentionPoolingLayer_builds
                AttentionPoolingLayer.default_att_hidden_units (w i) q k0 L D Hsq Hsk HD)
      as (layer' & Hc).
    rewrite Hc. cbn [bind].
    destruct (IH (S i)) as (ts & Ets & Hts).
    { intros j k Hj. destruct (H (S j) k Hj) as (q' & L' & D' & Hq' & Hr).
      exists q', L', D'. rewrite Nat.add_succ_comm. auto. }
    rewrite Ets. cbn [bind]. eexists. split; [reflexivity|].
    constructor; [|exact Hts]. simpl. rewrite Hsk. reflexivity.
Qed.

Lemma Forall2_map_r {A B : Type} (R : A -> B -> Prop) (g : A -> B) (l : list A) :
  (forall a, In a l -> R a (g a)) -> Forall2 R l (map g l).
Proof.
  induction l as [|a r IH]; intros H; simpl; constructor.
  - apply H. left. reflexivity.
  - apply IH. intros a' Ha'. apply H. right. exact Ha'.
Qed.

Lemma Forall2_compose {A B C : Type} (R : A -> B -> Prop) (S : B -> C -> Prop)
      (T : A -> C -> Prop) (l1 : list A) (l2 : list B) :
  (forall a b c, R a b -> S b c -> T a c) ->
  Forall2 R l1 l2 -> forall l3, Forall2 S l2 l3 -> Forall2 T l1 l3.
Proof.
  intros H. induction 1 as [|a b l1 l2 Hab _ IH]; intros l3 H3; inv H3; constructor.
  - eapply H; eassumption.
  - apply IH. assumption.
Qed.

Lemma Forall2_nonempty {A B : Type} (R : A -> B -> Prop) (l : list A) (l' : list B) :
  Forall2 R l l' -> l <> [] -> l' <> [].
Proof.
  intros H Hne ->. inv H. congruence.
Qed.

Lemma build_input_layers_values (fcs : list FeatureColumn) :
  NoDup (map fc_name fcs) ->
  Dict.values (build_input_layers fcs) = map input_of fcs.
Proof.
  intros Hnd. rewrite build_input_layers_fold.
  rewrite (fold_input_step_fresh fcs Dict.empty Hnd) by (intros fc _ []).
  unfold Dict.values. cbn [app Dict.empty]. rewrite map_map. reflexivity.
Qed.

Lemma DIN_ok {F : FloatOps} (w : nat -> nat -> Weights)
      (feature_columns : list FeatureColumn)
      (behavior_feature_list behavior_seq_feature_list : list string) :
  NoDup (map fc_name feature_columns) ->
  (exists fc, In fc feature_columns /\ is_DenseFeat fc = true) ->
  (exists fc, In fc feature_columns /\ is_SparseFeat fc = true) ->
  behavior_seq_feature_list <> [] ->
  (forall n, In n behavior_feature_list -> has_table feature_columns n) ->
  Forall2 (poolable feature_columns)
          (firstn (length behavior_seq_feature_list) behavior_feature_list)
          behavior_seq_feature_list ->
  exists model l h,
    DIN w feature_columns behavior_feature_list behavior_seq_feature_list = Ok model /\
    inputs model = map input_of feature_columns /\
    outputs model = KDense l h /\
    Dense.activation l = act_sigmoid /\
    kshape (outputs model) = [1] /\
    dense_units (outputs model) = [200; 80; 1] /\
    kshape (below_dense (outputs model))
    = [dnn_input_width feature_columns behavior_seq_feature_list].
Proof.
  intros Hnd (fd & Hfd & Hd) (fs & Hfs & Hs) Hne Hq Hpool.
  (* the dense branch *)
  set (dense := filter is_DenseFeat feature_columns).
  assert (Ed0 : mapM (fun fc => Dict.getitem (build_input_layers feature_columns) (fc_name fc))
                     dense = Ok (map input_of dense)).
  { apply dense_inputs_exact; [exact Hnd|]. intros fc Hfc. apply filter_In in Hfc. apply Hfc. }
  destruct (widths_sum input_width dense (map input_of dense)) as [Hdr Hdw].
  { apply Forall2_map_r. reflexivity. }
  destruct (concat_input_list_rank1 (map input_of dense)) as (td & Etd & Hktd); [|exact Hdr|].
  { intros E. apply map_eq_nil in E.
    assert (Hin : In fd dense) by (apply filter_In; auto). rewrite E in Hin. exact Hin. }
  (* the sparse branch *)
  set (sparse := filter is_SparseFeat feature_columns).
  destruct (sparse_embeddings_exact feature_columns sparse Hnd) as (ts & Ets & Hts).
  { intros fc Hfc. apply filter_In in Hfc. exact Hfc. }
  destruct (widths_sum embedding_width sparse ts Hts) as [Hsr Hsw].
  destruct (concat_input_list_rank1 ts) as (tsp & Etsp & Hktsp); [|exact Hsr|].
  { apply (Forall2_nonempty _ _ _ Hts). intros E.
    assert (Hin : In fs sparse) by (apply filter_In; auto). rewrite E in Hin. exact Hin. }
  (* the lookups *)
  destruct (lookup_shapes feature_columns behavior_feature_list Hnd Hq) as (qs & Eqs & Hqs).
  assert (Hk : forall n, In n behavior_seq_feature_list -> has_table feature_columns n).
  { intros n Hn. apply In_nth_error in Hn. destruct Hn as (j & Hj).
    destruct (Forall2_nth_error_r _ _ _ Hpool j n Hj) as (qn & _ & Hp).
    unfold poolable in Hp.
    destruct (descriptor feature_columns qn); [|destruct Hp].
    destruct (descriptor feature_columns n) as [k|] eqn:Ek; [|destruct Hp].
    apply descriptor_Some in Ek. destruct Ek as [Hin Hname].
    exists k. split; [exact Hin|]. split; [exact Hname | apply Hp]. }
  destruct (lookup_shapes feature_columns behavior_seq_feature_list Hnd Hk) as (ks & Eks & Hks).
  (* the poolings *)
  destruct (pool_sequences_builds w qs ks 0) as (ps & Eps & Hps).
  { intros j k Hj. cbn [Nat.add].
    destruct (Forall2_nth_error_r _ _ _ Hks j k Hj) as (kn & Hkn & fk & Hfk & Hsk).
    destruct (Forall2_nth_error_r _ _ _ Hpool j kn Hkn) as (qn & Hqn & Hp).
    rewrite nth_error_firstn in Hqn.
    destruct (j <? length behavior_seq_feature_list); [|discriminate Hqn].
    destruct (Forall2_nth_error_l _ _ _ Hqs j qn Hqn) as (q & Hq' & fq & Hfq & Hsq).
    unfold poolable in Hp. rewrite Hfq, Hfk in Hp.
    destruct Hp as (_ & _ & Hw & He & Hpos).
    exists q, (input_width fk), (embedding_width fk).
    split; [exact Hq'|]. split; [rewrite Hsq, Hw, He; reflexivity|].
    split; [exact Hsk | exact Hpos]. }
  assert (Hpw : Forall2 (fun n t =>
                  kshape t = [match descriptor feature_columns n with
                              | Some k => embedding_width k
                              | None => 0
                              end]) behavior_seq_feature_list ps).
  { eapply Forall2_compose; [|exact Hks|exact Hps].
    intros n k t (fk & Hfk & Hsk) Ht. cbv beta in Ht. rewrite Hfk, Ht, Hsk. reflexivity. }
  destruct (widths_sum _ _ _ Hpw) as [Hpr Hpsw].
  destruct (concat_input_list_rank1 ps) as (tp & Etp & Hktp); [|exact Hpr|].
  { apply (Forall2_nonempty _ _ _ Hpw Hne). }
  (* the concatenation of the three branches *)
  destruct (call_Concatenate_rank1 [td; tsp; tp]) as [Ec Hkc]; [discriminate| |].
  { repeat constructor; eauto. }
  (* the head *)
  destruct (get_dnn_logits_ok (KConcatenate 1 [td; tsp; tp]) _ default_dnn_hidden_units
              "prelu" (w (length ks)) Hkc) as (l & h & Eg & _ & Hact & Hkg & Hdu & Hbd).
  exists (mkModel (Dict.values (build_input_layers feature_columns)) (KDense l h)), l, h.
  split.
  { unfold DIN. fold dense. fold sparse.
    rewrite Ed0. cbn [bind]. rewrite Etd. cbn [bind]. rewrite Ets. cbn [bind].
    rewrite Etsp. cbn [bind]. rewrite Eqs. cbn [bind]. rewrite Eks. cbn [bind].
    rewrite Eps. cbn [bind]. rewrite Etp. cbn [bind].
    change [Some td; Some tsp; Some tp] with (map Some [td; tsp; tp]).
    rewrite Ec. cbn [bind]. rewrite Eg. reflexivity. }
  cbn [inputs outputs].
  split; [apply build_input_layers_values, Hnd|]. split; [reflexivity|].
  split; [exact Hact|]. split; [exact Hkg|]. split; [exact Hdu|].
  rewrite Hbd. cbn [below_dense]. rewrite Hkc. unfold dnn_input_width.
  cbn [map list_sum]. unfold width. rewrite Hktd, Hktsp, Hktp. cbn [nth].
  fold dense. fold sparse. rewrite Hdw, Hsw, Hpsw. f_equal. cbn [list_sum fold_right]. lia.
Qed.

(** X10: a well-formed configuration builds.  In a schema (descriptor names
    are unique) that passes the checks of Keras (positive table sizes;
    plain names that no table and no layer named by Keras can bear), with
    a Dense and a Sparse descriptor, with at least one behaviour sequence,
    every behaviour feature the name of a descriptor with a table, and the
    i-th behaviour feature and the i-th behaviour sequence poolable
    together (one slot for the feature, the same embedding width, not 0),
    [DIN] returns a model: its inputs are the
    descriptors' slots in the order of the schema; its output has shape
    [1] and is a sigmoid Dense layer on top of Dense layers of 200 and 80
    units, on top of a tensor as wide as the Dense dimensions, the Sparse
    embeddings and one pooled embedding per sequence together. *)
Theorem DIN_builds {F : FloatOps} (w : nat -> nat -> Weights)
        (feature_columns : list FeatureColumn)
        (behavior_feature_list behavior_seq_feature_list : list string) :
  NoDup (map fc_name feature_columns) ->
  keras_accepts feature_columns = true ->
  (exists fc, In fc feature_columns /\ is_DenseFeat fc = true) ->
  (exists fc, In fc feature_columns /\ is_SparseFeat fc = true) ->
  behavior_seq_feature_list <> [] ->
  (forall n, In n behavior_feature_list -> has_table feature_columns n) ->
  Forall2 (poolable feature_columns)
          (firstn (length behavior_seq_feature_list) behavior_feature_list)
          behavior_seq_feature_list ->
  exists model l h,
    DIN w feature_columns behavior_feature_list behavior_seq_feature_list = Ok model /\
    inputs model = map input_of feature_columns /\
    outputs model = KDense l h /\
    Dense.activation l = act_sigmoid /\
    kshape (outputs model) = [1] /\
    dense_units (outputs model) = [200; 80; 1] /\
    kshape (below_dense (outputs model))
    = [dnn_input_width feature_columns behavior_seq_feature_list].
Proof.
  intros Hnd _.
  exact (DIN_ok w feature_columns behavior_feature_list behavior_seq_feature_list Hnd).
Qed.

Lemma DIN_builds_witness :
  exists model,
    @DIN sample_ops sample_model_weights scenario_columns_with_dense
      scenario_behavior_feature_list scenario_behavior_seq_feature_list = Ok model /\
    inputs model
    = [Input [1] "time"; Input [1] "user_id"; Input [50] "history"; Input [1] "candidate_id"] /\
    kshape (below_dense (outputs model)) = [25].
Proof.
  destruct (@DIN_builds sample_ops sample_model_weights scenario_columns_with_dense
              scenario_behavior_feature_list scenario_behavior_seq_feature_list)
    as (m & l & h & Hm & Hi & _ & _ & _ & _ & Hw).
  - simpl. repeat constructor; simpl; intuition discriminate.
  - reflexivity.
  - exists (DenseFeat "time" 1). simpl. auto.
  - exists (SparseFeat "user_id" 100 8). simpl. auto.
  - discriminate.
  - intros n [<-|[]]. exists (SparseFeat "candidate_id" 500 8). simpl. auto 7.
  - simpl. constructor; [|constructor]. unfold poolable, embedding_width. simpl.
    repeat split; lia.
  - exists m. split; [exact Hm|]. split; [exact Hi | exact Hw].
Defined.

(** * Dice: zero stays zero *)

(** X11: whatever the gate (the statistics, the logistic function, the
    mode) and whatever [alpha], Dice sends an entry that is 0 to 0. *)
Theorem dice_keeps_zero {F : FloatOps} (training : bool) (d : Dice.t)
        (x : Tensor Qc) (q : Shape) (c : nat) :
  shape x = q ++ [c] ->
  Dice.ready c d ->
  exists d' out a,
    Dice.__call__ training d x = Ok (d', out) /\
    Dice.alpha d' = Some a /\
    forall i, in_range (shape x) i -> elem x i = 0%Qc -> elem out i = 0%Qc.
Proof.
  intros Hx Hr.
  destruct (Dice_call_spec training d x q c Hx Hr)
    as (d' & out & a & lb & mm & mv & Hc & Ha & _ & _ & _ & _ & _ & _ & He).
  exists d', out, a. split; [exact Hc|]. split; [exact Ha|].
  intros i Hi. rewrite (He i Hi).
  destruct (BatchNormalization.statistics training mm mv x) as [mean var].
  unfold Dice_formula. cbv zeta. intros ->. ring.
Qed.

Lemma dice_keeps_zero_witness :
  exists d' out,
    @Dice.__call__ sample_ops true (Dice.__init__ (sample_weights 0)) sample_keys
    = Ok (d', out) /\
    elem out [0; 1; 0] = 0%Qc.
Proof.
  destruct (@dice_keeps_zero sample_ops true (Dice.__init__ (sample_weights 0))
              sample_keys [1; 2] 2) as (d' & out & a & Hc & _ & He).
  - reflexivity.
  - apply Dice_fresh_ready.
  - exists d', out. split; [exact Hc|].
    apply (He [0; 1; 0]); [simpl; lia | reflexivity].
Defined.

(** * The layers that [__init__] creates *)

Lemma fresh_stack_activations (activation : string) (w : nat -> Weights)
      (hidden_units : list nat) :
  forall start,
    Forall (fun fc => Dense.built fc = false /\
                      is_PReLU (Dense.activation fc) = String.eqb activation "prelu" /\
                      is_Dice (Dense.activation fc) = negb (String.eqb activation "prelu"))
      (map (fun ku : nat * nat =>
              let (k, unit) := ku in
              Dense.__init__ unit
                (if String.eqb activation "prelu" then act_PReLU (PReLU.__init__ (w k))
                 else act_Dice (Dice.__init__ (w k)))
                (w k))
           (combine (seq start (length hidden_units)) hidden_units)).
Proof.
  induction hidden_units as [|u r IH]; intros start; simpl; constructor; [|apply IH].
  destruct (String.eqb activation "prelu"); repeat split.
Qed.

(** X12: a LocalActivationUnit has one Dense layer per entry of
    [hidden_units], of these widths and in this order, and a final Dense
    layer of one unit without activation, none of them built yet.  The
    layers of the stack use PReLU when [activation] is the string "prelu",
    and Dice for every other string; an AttentionPoolingLayer passes no
    activation, so that its unit always uses PReLU. *)
Theorem local_activation_unit_layers (hidden_units : list nat) (activation : string)
        (w : nat -> Weights) :
  let self := LocalActivationUnit.__init__ hidden_units activation w in
  map Dense.units (LocalActivationUnit.dnn self) = hidden_units /\
  Dense.units (LocalActivationUnit.linear self) = 1 /\
  Dense.activation (LocalActivationUnit.linear self) = act_linear /\
  Dense.built (LocalActivationUnit.linear self) = false /\
  Forall (fun fc => Dense.built fc = false) (LocalActivationUnit.dnn self) /\
  (activation = "prelu" ->
   Forall (fun fc => is_PReLU (Dense.activation fc) = true) (LocalActivationUnit.dnn self)) /\
  (activation <> "prelu" ->
   Forall (fun fc => is_Dice (Dense.activation fc) = true) (LocalActivationUnit.dnn self)) /\
  Forall (fun fc => is_PReLU (Dense.activation fc) = true)
         (LocalActivationUnit.dnn
            (AttentionPoolingLayer.local_att
               (AttentionPoolingLayer.__init__ hidden_units w))).
Proof.
  cbv zeta. unfold AttentionPoolingLayer.__init__, LocalActivationUnit.__init__.
  cbn [LocalActivationUnit.dnn LocalActivationUnit.linear AttentionPoolingLayer.local_att].
  split; [apply (fresh_stack activation w hidden_units 0)|].
  do 3 (split; [reflexivity|]).
  pose proof (fresh_stack_activations activation w hidden_units 0) as H.
  split; [eapply Forall_impl; [|exact H]; intros fc Hfc; apply Hfc|].
  split; [|split].
  - intros E. eapply Forall_impl; [|exact H]. intros fc (_ & Hp & _).
    rewrite Hp. apply String.eqb_eq, E.
  - intros E. eapply Forall_impl; [|exact H]. intros fc (_ & _ & Hd).
    rewrite Hd. apply String.eqb_neq in E. rewrite E. reflexivity.
  - eapply Forall_impl; [|exact (fresh_stack_activations "prelu" w hidden_units 0)].
    intros fc (_ & Hp & _). rewrite Hp. reflexivity.
Qed.

Lemma local_activation_unit_layers_witness :
  Forall (fun fc => is_Dice (Dense.activation fc) = true)
         (LocalActivationUnit.dnn (LocalActivationUnit.__init__ [4; 2] "relu" sample_weights)).
Proof.
  destruct (local_activation_unit_layers [4; 2] "relu" sample_weights)
    as (_ & _ & _ & _ & _ & _ & H & _).
  apply H. discriminate.
Defined.

(** * Concatenation of a branch *)

(** X13: on one or more tensors with one axis after the batch axis,
    [concat_input_list] does not raise and returns a tensor, with one axis
    too, whose width is the sum of the widths of the inputs. *)
Theorem concat_input_list_widths (input_list : list KerasTensor) :
  input_list <> [] ->
  Forall (fun t => exists n, kshape t = [n]) input_list ->
  exists t, concat_input_list input_list = Ok (Some t) /\
            kshape t = [list_sum (map width input_list)].
Proof.
  exact (concat_input_list_rank1 input_list).
Qed.

Lemma concat_input_list_widths_witness :
  exists t, concat_input_list [KInput "a" [2]; KInput "b" [3]; KInput "c" [4]] = Ok (Some t) /\
            kshape t = [9].
Proof.
  destruct (concat_input_list_widths [KInput "a" [2]; KInput "b" [3]; KInput "c" [4]])
    as (t & Ht & Hk).
  - discriminate.
  - repeat constructor; simpl; eauto.
  - exists t. split; [exact Ht | exact Hk].
Defined.

(** * More sequences than behaviour features *)




(** * The wiring of the graph *)

Lemma get_In_values {V : Type} (d : Dict.t V) (k : string) (v : V) :
  Dict.get d k = Some v -> In v (Dict.values d).
Proof.
  unfold Dict.values. induction d as [|[k' v'] r IH]; simpl; [discriminate|].
  destruct (String.eqb k k'); [intros H; inv H; auto | auto].
Qed.

Lemma slot_well_wired (fcs : list FeatureColumn) (k : string) (x : KerasTensor) :
  Dict.get (build_input_layers fcs) k = Some x ->
  Forall (well_wired (Dict.values (build_input_layers fcs))) (nodes x).
Proof.
  intros G. destruct (build_input_layers_inputs fcs k x G) as (s & ->).
  simpl. constructor; [|constructor]. simpl. eapply get_In_values, G.
Qed.

Lemma lookup_well_wired (fcs : list FeatureColumn) (n : string) (t : KerasTensor) :
  looked_up (build_input_layers fcs)
            (build_embedding_layers fcs (build_input_layers fcs)) n t ->
  Forall (well_wired (Dict.values (build_input_layers fcs))) (nodes t).
Proof.
  intros (x & e & Gx & Ge & ->). cbn [nodes]. constructor.
  - destruct (build_input_layers_inputs fcs n x Gx) as (s & ->).
    exists n, s. split; [reflexivity|].
    split; [eapply build_embedding_layers_names, Ge | eapply get_In_values, Gx].
  - eapply slot_well_wired, Gx.
Qed.

Lemma Forall_flat_map {A B : Type} (P : B -> Prop) (f : A -> list B) (l : list A) :
  Forall (fun a => Forall P (f a)) l -> Forall P (flat_map f l).
Proof.
  induction 1 as [|a l Ha _ IH]; simpl; [constructor|].
  apply Forall_app. split; assumption.
Qed.

Lemma concat_input_list_well_wired (declared l : list KerasTensor) (t : KerasTensor) :
  concat_input_list l = Ok (Some t) ->
  Forall (fun x => Forall (well_wired declared) (nodes x)) l ->
  Forall (well_wired declared) (nodes t).
Proof.
  intros H Hl. destruct l as [|x [|y rest]].
  - discriminate H.
  - inv H. inv Hl. assumption.
  - unfold concat_input_list in H. cbn [length Nat.ltb Nat.leb] in H.
    bind_inv H as c Ec. inv H.
    apply call_Concatenate_Ok in Ec. destruct Ec as (xs & Hxs & ->).
    apply map_Some_injective in Hxs. subst xs.
    cbn [nodes]. constructor; [exact I|]. apply Forall_flat_map, Hl.
Qed.

Lemma dense_stack_well_wired {F : FloatOps} (declared : list KerasTensor)
      (dnns : list Dense.t) :
  forall (x y : KerasTensor),
    fold_left (fun acc dnn => dnn_out <- acc ;; call_Dense dnn dnn_out) dnns (Ok x) = Ok y ->
    Forall (well_wired declared) (nodes x) ->
    Forall (well_wired declared) (nodes y).
Proof.
  induction dnns as [|d r IH]; intros x y H Hx; cbn [fold_left bind] in H.
  - inv H. exact Hx.
  - destruct (call_Dense d x) as [x1|e] eqn:E.
    + apply call_Dense_Ok in E. destruct E as (d' & ->).
      apply (IH _ _ H). cbn [nodes]. constructor; [exact I | exact Hx].
    + exfalso. clear -H. induction r as [|d0 r IHr]; [discriminate H | exact (IHr H)].
Qed.

(** X15: in a model that [DIN] returns for descriptors with names that
    Keras keeps as they are, every input slot that the output is computed
    from is one of the declared inputs of the model, and every embedding
    table, named [emb_<n>], is applied to the input slot named [n] and to
    nothing else. *)
Theorem DIN_well_wired {F : FloatOps} (w : nat -> nat -> Weights)
        (feature_columns : list FeatureColumn)
        (behavior_feature_list behavior_seq_feature_list : list string) (model : Model) :
  forallb (fun fc => plain_name (fc_name fc)) feature_columns = true ->
  DIN w feature_columns behavior_feature_list behavior_seq_feature_list = Ok model ->
  Forall (well_wired (inputs model)) (nodes (outputs model)).
Proof.
  intros _ H. unfold DIN in H.
  bind_inv H as dense0 Ed0. bind_inv H as dense Ed.
  bind_inv H as sparse0 Es0. bind_inv H as sparse Es.
  bind_inv H as qs Eq. bind_inv H as ks Ek.
  bind_inv H as seq0 Eq0. bind_inv H as seq Eseq.
  bind_inv H as x Ex. bind_inv H as y Ey. inv H. cbn [inputs outputs].
  apply call_Concatenate_Ok in Ex. destruct Ex as (xs & Hxs & ->).
  destruct xs as [|d' [|s' [|q' [|? ?]]]]; try discriminate Hxs.
  simpl in Hxs. inv Hxs.
  set (declared := Dict.values (build_input_layers feature_columns)).
  assert (Hd : Forall (well_wired declared) (nodes d')).
  { apply (concat_input_list_well_wired declared _ _ Ed).
    clear -Ed0. revert dense0 Ed0.
    induction (filter is_DenseFeat feature_columns) as [|fc r IH]; intros l H;
      cbn [mapM] in H.
    - inv H. constructor.
    - bind_inv H as x Ex. bind_inv H as xs Exs. inv H.
      constructor; [|apply IH; exact Exs].
      unfold Dict.getitem in Ex.
      destruct (Dict.get (build_input_layers feature_columns) (fc_name fc)) eqn:G;
        [|discriminate Ex].
      inv Ex. eapply slot_well_wired, G. }
  assert (Hs : Forall (well_wired declared) (nodes s')).
  { apply (concat_input_list_well_wired declared _ _ Es).
    eapply Forall_impl; [|apply concat_embedding_list_Ok; exact Es0].
    intros t (fc & e & x & _ & Gi & Ge & ->).
    cbn [nodes]. constructor; [exact I|].
    change (Forall (well_wired declared) (nodes (KEmbedding e x))).
    apply (lookup_well_wired feature_columns (fc_name fc)). exists x, e. auto. }
  assert (Hl : forall names l,
             embedding_lookup names (build_input_layers feature_columns)
               (build_embedding_layers feature_columns (build_input_layers feature_columns))
             = Ok l ->
             forall t, In t l -> Forall (well_wired declared) (nodes t)).
  { intros names l El t Ht. pose proof (embedding_lookup_Ok _ _ _ _ El) as Hf.
    rewrite Forall_forall in Hf. destruct (Hf t Ht) as (n & e & x & _ & Gi & Ge & ->).
    apply (lookup_well_wired feature_columns n). exists x, e. auto. }
  assert (Hq : Forall (well_wired declared) (nodes q')).
  { apply (concat_input_list_well_wired declared _ _ Eseq).
    eapply Forall_impl; [|apply (pool_sequences_Ok _ _ _ _ _ Eq0)].
    intros t (layer & q & k & s & -> & Hinq & Hink).
    cbn [nodes]. constructor; [exact I|]. apply Forall_app. split.
    - apply (Hl _ _ Eq q Hinq).
    - apply (Hl _ _ Ek k Hink). }
  unfold get_dnn_logits in Ey. bind_inv Ey as h Eh.
  apply call_Dense_Ok in Ey. destruct Ey as (layer' & ->).
  cbn [nodes]. constructor; [exact I|].
  apply (dense_stack_well_wired declared _ _ _ Eh).
  cbn [nodes flat_map]. constructor; [exact I|].
  rewrite app_nil_r. apply Forall_app. split; [exact Hd|].
  apply Forall_app. split; [exact Hs | exact Hq].
Qed.

Lemma DIN_well_wired_witness :
  exists model,
    @DIN sample_ops sample_model_weights sample_columns ["h1"] ["h2"] = Ok model /\
    Forall (well_wired (inputs model)) (nodes (outputs model)).
Proof.
  destruct sample_model_builds as (m & Hm & _).
  exists m. split; [exact Hm|].
  exact (@DIN_well_wired sample_ops sample_model_weights sample_columns ["h1"] ["h2"] m
           eq_refl Hm).
Defined.

(** * The model of the script *)

(** X16: whatever the vocabulary sizes counted in the data, provided
    that none of those of the three Sparse features is 0, the call of
    [DIN] in the script returns a model.  Its inputs are, in this order,
    "user_id", "history" (50 slots), "imp_news_id", "user_news_features"
    and "time"; the final stack of Dense layers (200, 80 and 1 units)
    reads 33 columns (1 for the time, 8 for each of the three Sparse
    features, 8 for the pooled history) and returns one. *)
Theorem main_model_builds {F : FloatOps} (w : nat -> nat -> Weights)
        (users histories impressions categories : nat) :
  0 < users -> 0 < impressions -> 0 < categories ->
  exists model,
    DIN w (main_feature_columns users histories impressions categories)
        main_behavior_feature_list main_behavior_seq_feature_list = Ok model /\
    inputs model = [Input [1] "user_id"; Input [50] "history"; Input [1] "imp_news_id";
                    Input [1] "user_news_features"; Input [1] "time"] /\
    dense_units (outputs model) = [200; 80; 1] /\
    kshape (below_dense (outputs model)) = [33] /\
    kshape (outputs model) = [1].
Proof.
  intros _ _ _.
  destruct (DIN_ok w (main_feature_columns users histories impressions categories)
              main_behavior_feature_list main_behavior_seq_feature_list)
    as (m & l & h & Hm & Hi & _ & _ & Hk & Hdu & Hw).
  - simpl. repeat constructor; simpl; intuition discriminate.
  - exists (DenseFeat "time" 1). simpl. auto 7.
  - exists (SparseFeat "user_id" users 8). simpl. auto.
  - discriminate.
  - intros n [<-|[]]. exists (SparseFeat "imp_news_id" impressions 8). simpl. auto 7.
  - simpl. constructor; [|constructor]. unfold poolable, embedding_width. simpl.
    repeat split; lia.
  - exists m. split; [exact Hm|]. split; [exact Hi|]. split; [exact Hdu|].
    split; [exact Hw | exact Hk].
Qed.

Lemma main_model_builds_witness :
  keras_accepts (main_feature_columns 500 300 900 17) = true /\
  exists model,
    @DIN sample_ops sample_model_weights (main_feature_columns 500 300 900 17)
      main_behavior_feature_list main_behavior_seq_feature_list = Ok model /\
    kshape (below_dense (outputs model)) = [33].
Proof.
  split; [reflexivity|].
  destruct (@main_model_builds sample_ops sample_model_weights 500 300 900 17)
    as (m & Hm & _ & _ & Hw & _); [lia | lia | lia |].
  exists m. split; [exact Hm | exact Hw].
Defined.

(** * The labels of the script *)

(** X17: when the comprehension of [y_train] returns, every row of the
    column is a string, and the labels are those of the first impression
    of each row that has one, in the order of the rows: a row without
    impression gives no label, so that there can be fewer labels than
    rows, and the alternative [else 0] gives none of the labels.  A row
    that is not a string makes the comprehension raise. *)
Theorem y_train_first_impressions (split : string -> list string)
        (label : string -> result Z) (impressions : list Cell) (l : list Z) :
  y_train split label impressions = Ok l ->
  exists rows,
    impressions = map CStr rows /\
    mapM label (flat_map (fun x => firstn 1 (split x)) rows) = Ok l /\
    length l <= length impressions.
Proof.
  revert l. induction impressions as [|s rest IH]; intros l H; cbn [y_train] in H.
  - inv H. exists []. repeat split. simpl. lia.
  - bind_inv H as tokens Et. bind_inv H as labels El. bind_inv H as others Eo. inv H.
    destruct s as [x|]; [|discriminate Et]. injection Et as <-.
    change (mapM label (firstn 1 (split x)) = Ok labels) in El.
    destruct (IH others Eo) as (rows & -> & Hm & Hlen).
    exists (x :: rows). split; [reflexivity|]. cbn [flat_map].
    rewrite mapM_app, El, Hm. cbn [bind]. split; [reflexivity|].
    apply mapM_length in El. rewrite length_app, El, length_firstn.
    cbn [length map]. lia.
Qed.

Lemma y_train_first_impressions_witness :
  exists rows,
    [CStr "N1-1 N2-0"; CStr ""] = map CStr rows /\
    length [1%Z] <= length [CStr "N1-1 N2-0"; CStr ""].
Proof.
  destruct (y_train_first_impressions
              (fun x => if String.eqb x "" then [] else ["N1-1"; "N2-0"])
              (fun n => Ok 1%Z) [CStr "N1-1 N2-0"; CStr ""] [1%Z] eq_refl)
    as (rows & Hr & _ & Hl).
  exists rows. split; [exact Hr | exact Hl].
Defined.

(** * Embeddings of width 0 *)

(** X18: on keys of width 0, whatever the queries and the state of the
    layer, the attention pooling raises: the keys have no first
    coordinate to read the mask from. *)
Theorem attention_pooling_zero_width_raises {F : FloatOps} (training : bool)
        (self : AttentionPoolingLayer.t) (queries keys : Tensor Qc) (B L : nat) :
  shape keys = [B; L; 0] ->
  raises (AttentionPoolingLayer.call training self (queries, keys)).
Proof.
  intros Hk. destruct (key_masks_zero_width keys B L Hk) as (e & He).
  exists e. unfold AttentionPoolingLayer.call. rewrite He. reflexivity.
Qed.

Lemma attention_pooling_zero_width_raises_witness :
  raises (@AttentionPoolingLayer.call sample_ops false sample_layer
            (sample_query, of_list3 1 2 0 [[[]; []]])).
Proof.
  apply (@attention_pooling_zero_width_raises sample_ops false sample_layer
           sample_query (of_list3 1 2 0 [[[]; []]]) 1 2).
  reflexivity.
Defined.

(** * The embedding dictionary *)

(** X19: for descriptors whose sizes [Embedding] accepts, and whatever
    dictionary is passed as [input_layer_dict], the embedding dictionary
    has a table for a name exactly when a descriptor that is not Dense has
    this name, and the table of name [n] is named [emb_<n>]. *)
Theorem build_embedding_layers_tables (feature_columns : list FeatureColumn)
        (input_layer_dict : Dict.t KerasTensor) (n : string) :
  forallb valid_sizes feature_columns = true ->
  ((exists e, Dict.get (build_embedding_layers feature_columns input_layer_dict) n = Some e)
   <-> has_table feature_columns n) /\
  (forall e, Dict.get (build_embedding_layers feature_columns input_layer_dict) n = Some e ->
             Embedding.name e = String.append "emb_" n).
Proof.
  intros _. split; [split|].
  - intros (e & He). eapply build_embedding_layers_origin, He.
  - apply build_embedding_layers_has.
  - intros e He. eapply build_embedding_layers_names, He.
Qed.

Lemma build_embedding_layers_tables_witness :
  (exists e, Dict.get (build_embedding_layers sample_columns Dict.empty) "h2" = Some e) /\
  ~ (exists e, Dict.get (build_embedding_layers sample_columns Dict.empty) "d" = Some e).
Proof.
  split.
  - apply (build_embedding_layers_tables sample_columns Dict.empty "h2" eq_refl).
    exists (VarLenSparseFeat "h2" 10 4 5). simpl. auto 7.
  - intros H.
    apply (build_embedding_layers_tables sample_columns Dict.empty "d" eq_refl) in H.
    destruct H as (fc & Hin & Hn & Hd).
    simpl in Hin. destruct Hin as [<-|[<-|[<-|[<-|[]]]]]; discriminate.
Defined.
